(** * Amazon price tracker: a shallow embedding of [main.py]

    The program is a sequential Python script: an identifier extractor
    ([extract_asin]), a link builder ([create_associate_url]), a price
    fetcher ([get_amazon_price]), a notifier ([send_telegram_message]), a
    product store ([load_products]) and a polling loop
    ([monitor_products]), plus the single-shot command [check_price].

    Modelling conventions.
    - A Python [str] is a Rocq [string]; every [ascii] stands for one
      character (a code point below 256), so [String.length] is Python's
      [len].  Strings with other characters are outside the model; a
      property that would not hold of them says so.  The one literal of
      the program outside that range, the four characters in front of
      the notification text, is kept as the bytes found in the source
      file.
    - [None] is [option]'s [None]; Python truthiness of an optional
      string is [truthy].
    - Exceptions are values of [exn]; a computation that can raise
      returns a [result].
    - Effects (network, standard output, sleeping, the environment, the
      file system, the clock) are threaded through a trace of events; what
      the outside answers is read from a [World].  [time.sleep] checks
      its argument before it calls the operating system: these checks
      are part of the model, the outcome of the call is the world's.
    - The [while True] loop of [monitor_products] is modelled by its first
      [cycles] turns, for every number [cycles].
    - The [monitor] command hands whatever [json.load] returned to the
      loop, so it is modelled over JSON values; the command-line layer
      ([typer]) is not modelled. *)

From Stdlib Require Import String Ascii List ZArith NArith Lia Bool DecimalString.
From stdpp Require Import base option gmap strings.
Import ListNotations.

Local Open Scope list_scope.
Local Open Scope string_scope.

(** ** Characters and strings *)

Module Str.

Definition code (c : ascii) : N := N_of_ascii c.

Definition in_range (lo hi : N) (c : ascii) : bool :=
  ((lo <=? code c) && (code c <=? hi))%N.

Definition is_upper (c : ascii) : bool := in_range 65 90 c.
Definition is_lower (c : ascii) : bool := in_range 97 122 c.
Definition is_digit (c : ascii) : bool := in_range 48 57 c.

(** [c.isascii() and c.isalpha()] *)
Definition is_ascii_alpha (c : ascii) : bool := is_upper c || is_lower c.

(** A letter or a digit of the ASCII range. *)
Definition is_alnum (c : ascii) : bool := is_upper c || is_lower c || is_digit c.

(** [str.lower()] on one character: the ASCII capitals and the capitals
    of the Latin-1 range (192..214 and 216..222) move up by 32. *)
Definition lower_char (c : ascii) : ascii :=
  if is_upper c || in_range 192 214 c || in_range 216 222 c
  then ascii_of_N (code c + 32) else c.

Fixpoint lower (s : string) : string :=
  match s with
  | EmptyString => EmptyString
  | String c rest => String (lower_char c) (lower rest)
  end.

Fixpoint forallb (p : ascii -> bool) (s : string) : bool :=
  match s with
  | EmptyString => true
  | String c rest => p c && forallb p rest
  end.

(** [c in s] *)
Fixpoint mem (c : ascii) (s : string) : bool :=
  match s with
  | EmptyString => false
  | String d rest => Ascii.eqb c d || mem c rest
  end.

(** [s.replace(c, "")] for a one-character [c]. *)
Fixpoint remove (c : ascii) (s : string) : string :=
  match s with
  | EmptyString => EmptyString
  | String d rest => if Ascii.eqb c d then remove c rest else String d (remove c rest)
  end.

(** [s.lstrip(chars)] with the set of characters given as a predicate. *)
Fixpoint lstrip (p : ascii -> bool) (s : string) : string :=
  match s with
  | EmptyString => EmptyString
  | String c rest => if p c then lstrip p rest else s
  end.

(** [s.partition(c)] for a one-character separator that may be one of
    several ([stop]): the text before the first such character, and the
    text from that character on ([None] when there is none). *)
Fixpoint break (stop : ascii -> bool) (s : string) : string * option string :=
  match s with
  | EmptyString => (EmptyString, None)
  | String c rest =>
      if stop c then (EmptyString, Some s)
      else let '(before, after) := break stop rest in (String c before, after)
  end.

(** [s.split(sep)] for a one-character separator: never an empty list. *)
Fixpoint split (sep : ascii) (s : string) : list string :=
  match s with
  | EmptyString => [EmptyString]
  | String c rest =>
      if Ascii.eqb c sep then EmptyString :: split sep rest
      else match split sep rest with
           | part :: parts => String c part :: parts
           | [] => [String c EmptyString]
           end
  end.

(** [s.startswith(p)], returning what follows the prefix. *)
Fixpoint strip_prefix (p s : string) : option string :=
  match p, s with
  | EmptyString, _ => Some s
  | String a p', String b s' => if Ascii.eqb a b then strip_prefix p' s' else None
  | String _ _, EmptyString => None
  end.

(** Number of positions of [s] at which [sub] starts (overlapping
    occurrences counted). *)
Fixpoint occurrences (sub s : string) : nat :=
  (match strip_prefix sub s with Some _ => 1 | None => 0 end) +
  match s with
  | EmptyString => 0
  | String _ rest => occurrences sub rest
  end.

(** [str(n)] for an integer. *)
Definition of_Z (n : Z) : string := NilZero.string_of_int (Z.to_int n).

End Str.

(** Truthiness of an optional string: [None] and [""] are false. *)
Definition truthy (v : option string) : bool :=
  match v with
  | None => false
  | Some s => negb (String.eqb s "")
  end.

(** [f"{v}"] for an optional string. *)
Definition format (v : option string) : string :=
  match v with
  | None => "None"
  | Some s => s
  end.

(** ** Exceptions *)

Inductive exn_class : Type :=
  | ValueError
  | AttributeError
  | FileNotFoundError
  | JSONDecodeError
  | OtherException (name : string).

Record exn : Type := Exn { exn_cls : exn_class; exn_msg : string }.

Inductive result (A : Type) : Type :=
  | Ok (a : A)
  | Raise (e : exn).
Arguments Ok {A} a.
Arguments Raise {A} e.

Definition is_class (c : exn_class) (e : exn) : bool :=
  match c, exn_cls e with
  | ValueError, ValueError => true
  | AttributeError, AttributeError => true
  | FileNotFoundError, FileNotFoundError => true
  | JSONDecodeError, JSONDecodeError => true
  | OtherException a, OtherException b => String.eqb a b
  | _, _ => false
  end.

(** ** The regular expressions of [extract_asin]

    Both patterns are a literal, a group of exactly ten characters of
    [[A-Z0-9]], and the alternative [(?:/|\?|$)].  [re.search] returns
    the leftmost match; as the pattern has one length only, a position
    either matches or not. *)

Module Re.

(** [[A-Z0-9]] *)
Definition asin_class (c : ascii) : bool := Str.is_upper c || Str.is_digit c.

(** [(?:/|\?|$)]: without [re.MULTILINE], [$] holds at the end of the
    string and just before a newline that ends the string. *)
Definition at_delimiter (s : string) : bool :=
  match s with
  | EmptyString => true
  | String c rest =>
      Ascii.eqb c "/" || Ascii.eqb c "?" || (Ascii.eqb c "010" && String.eqb rest "")
  end.

(** [([A-Z0-9]{n})]: the group and what follows it. *)
Fixpoint class_run (n : nat) (s : string) : option (string * string) :=
  match n with
  | O => Some (EmptyString, s)
  | S n' =>
      match s with
      | EmptyString => None
      | String c rest =>
          if asin_class c then
            match class_run n' rest with
            | Some (group, after) => Some (String c group, after)
            | None => None
            end
          else None
      end
  end.

(** The pattern [lit([A-Z0-9]{10})(?:/|\?|$)] matched at the start of [s];
    the result is [group(1)]. *)
Definition match_here (lit s : string) : option string :=
  match Str.strip_prefix lit s with
  | None => None
  | Some rest =>
      match class_run 10 rest with
      | Some (group, after) => if at_delimiter after then Some group else None
      | None => None
      end
  end.

(** [re.search(pattern, s)], as [group(1)] of the leftmost match. *)
Fixpoint search (lit s : string) : option string :=
  match match_here lit s with
  | Some group => Some group
  | None =>
      match s with
      | EmptyString => None
      | String _ rest => search lit rest
      end
  end.

End Re.

(** ** [urllib.parse.urlparse]

    The standard library's [urlsplit] and [urlparse] (CPython 3.11), for a
    [str] argument and the default [scheme=''] and [allow_fragments=True].
    [unicodedata.normalize('NFKC', s)], which [_checknetloc] calls, is
    given by its table for the characters below U+0100, the characters of
    this model: fourteen of them have a compatibility decomposition, none
    is a combining mark, so a string is normalised character by
    character.  [ipaddress.ip_address], which only a bracketed host
    reaches, is taken as given. *)

Module UrlParse.

Record ParseResult : Type := {
  scheme : string;
  netloc : string;
  path : string;
  params : string;
  query : string;
  fragment : string
}.

(** [_WHATWG_C0_CONTROL_OR_SPACE] *)
Definition c0_control_or_space (c : ascii) : bool := (Str.code c <=? 32)%N.

(** [_UNSAFE_URL_BYTES_TO_REMOVE]: tab, carriage return, newline *)
Definition remove_unsafe (url : string) : string :=
  Str.remove "010" (Str.remove "013" (Str.remove "009" url)).

Definition scheme_chars : string :=
  "abcdefghijklmnopqrstuvwxyzABCDEFGHIJKLMNOPQRSTUVWXYZ0123456789+-.".

Definition uses_params : list string :=
  [""; "ftp"; "hdl"; "prospero"; "http"; "imap"; "https"; "shttp"; "rtsp";
   "rtspu"; "sip"; "sips"; "mms"; "sftp"; "tel"].

Definition invalid_ipv6 : exn := Exn ValueError "Invalid IPv6 URL".

(** The scheme and the rest: [i = url.find(':')], and the prefix is a
    scheme when [i > 0], it starts with an ASCII letter and holds scheme
    characters only. *)
Definition split_scheme (url : string) : string * string :=
  match Str.break (Ascii.eqb ":") url with
  | (String c0 before, Some (String _ after)) =>
      if Str.is_ascii_alpha c0 && Str.forallb (fun c => Str.mem c scheme_chars) (String c0 before)
      then (Str.lower (String c0 before), after)
      else (EmptyString, url)
  | _ => (EmptyString, url)
  end.

(** [_splitnetloc(url, 2)], given what follows the two slashes. *)
Definition splitnetloc (after_slashes : string) : string * string :=
  match Str.break (fun c => Str.mem c "/?#") after_slashes with
  | (domain, Some rest) => (domain, rest)
  | (domain, None) => (domain, EmptyString)
  end.

(** [url.split(c, 1)] when [c in url], else the url and the empty string. *)
Definition cut (c : ascii) (url : string) : string * string :=
  match Str.break (Ascii.eqb c) url with
  | (before, Some (String _ after)) => (before, after)
  | (before, _) => (before, EmptyString)
  end.

(** [s.rpartition(c)[2]] *)
Fixpoint after_last (c : ascii) (s : string) : string :=
  match s with
  | EmptyString => EmptyString
  | String d rest =>
      if Str.mem c rest then after_last c rest
      else if Ascii.eqb d c then rest else s
  end.

Definition is_hex (c : ascii) : bool :=
  Str.is_digit c || Str.in_range 97 102 c || Str.in_range 65 70 c.

(** [re.match(r"\Av[a-fA-F0-9]+\..+\Z", hostname)], given what follows
    the [v]. *)
Definition ipvfuture (after_v : string) : bool :=
  match Str.break (fun c => negb (is_hex c)) after_v with
  | (String _ _, Some (String dot (String c tail))) =>
      Ascii.eqb dot "." && Str.forallb (fun d => negb (Ascii.eqb d "010")) (String c tail)
  | _ => false
  end.

(** [unicodedata.normalize('NFKC', c)] for one character below U+0100, as
    code points. *)
Definition nfkc_char (c : ascii) : list N :=
  match Str.code c with
  | 160 => [32]
  | 168 => [32; 776]
  | 170 => [97]
  | 175 => [32; 772]
  | 178 => [50]
  | 179 => [51]
  | 180 => [32; 769]
  | 181 => [956]
  | 184 => [32; 807]
  | 185 => [49]
  | 186 => [111]
  | 188 => [49; 8260; 52]
  | 189 => [49; 8260; 50]
  | 190 => [51; 8260; 52]
  | n => [n]
  end%N.

(** [unicodedata.normalize('NFKC', s)], as code points *)
Fixpoint nfkc (s : string) : list N :=
  match s with
  | EmptyString => []
  | String c rest => (nfkc_char c ++ nfkc rest)%list
  end.

(** The code points of [s] *)
Fixpoint codes (s : string) : list N :=
  match s with
  | EmptyString => []
  | String c rest => Str.code c :: codes rest
  end.

Fixpoint same_codes (a b : list N) : bool :=
  match a, b with
  | [], [] => true
  | x :: a', y :: b' => (x =? y)%N && same_codes a' b'
  | _, _ => false
  end.

(** [s.isascii()] *)
Definition isascii (s : string) : bool := Str.forallb (fun c => (Str.code c <? 128)%N) s.

(** [_checknetloc(netloc)] *)
Definition checknetloc (netloc : string) : result unit :=
  if String.eqb netloc "" || isascii netloc then Ok tt
  else
    let n := Str.remove "?" (Str.remove "#" (Str.remove ":" (Str.remove "@" netloc))) in
    let netloc2 := nfkc n in
    if same_codes (codes n) netloc2 then Ok tt
    else if existsb (fun c => existsb (N.eqb c) netloc2) (codes "/?#@:")
    then Raise (Exn ValueError ("netloc '" ++ netloc ++
                                "' contains invalid characters under NFKC normalization"))
    else Ok tt.

Section Bracketed.

(** [isinstance(ipaddress.ip_address(hostname), ipaddress.IPv4Address)],
    or the [ValueError] that [ip_address] raises. *)
Variable ip_address : string -> result bool.

Definition check_bracketed_host (hostname : string) : result unit :=
  match hostname with
  | String "v" after_v =>
      if ipvfuture after_v then Ok tt
      else Raise (Exn ValueError "IPvFuture address is invalid")
  | _ =>
      match ip_address hostname with
      | Raise e => Raise e
      | Ok true => Raise (Exn ValueError "An IPv4 address cannot be in brackets")
      | Ok false => Ok tt
      end
  end.

Definition check_bracketed_netloc (netloc : string) : result unit :=
  let hostname_and_port := after_last "@" netloc in
  match Str.break (Ascii.eqb "[") hostname_and_port with
  | (before_bracket, Some (String _ bracketed)) =>
      if negb (String.eqb before_bracket "") then Raise invalid_ipv6
      else
        let '(hostname, port) := cut "]" bracketed in
        match port with
        | EmptyString => check_bracketed_host hostname
        | String c _ =>
            if Ascii.eqb c ":" then check_bracketed_host hostname
            else Raise invalid_ipv6
        end
  | (_, _) => check_bracketed_host (fst (cut ":" hostname_and_port))
  end.

(** [urlsplit(url)]: scheme, netloc, path-with-params, query, fragment. *)
Definition urlsplit (url : string) : result (string * string * string * string * string) :=
  let url := Str.lstrip c0_control_or_space url in
  let url := remove_unsafe url in
  let '(scheme, url) := split_scheme url in
  let after_netloc :=
    match url with
    | String "/" (String "/" after_slashes) =>
        let '(netloc, url) := splitnetloc after_slashes in
        if (Str.mem "[" netloc && negb (Str.mem "]" netloc))
           || (Str.mem "]" netloc && negb (Str.mem "[" netloc))
        then Raise invalid_ipv6
        else if Str.mem "[" netloc && Str.mem "]" netloc then
          match check_bracketed_netloc netloc with
          | Ok _ => Ok (netloc, url)
          | Raise e => Raise e
          end
        else Ok (netloc, url)
    | _ => Ok (EmptyString, url)
    end in
  match after_netloc with
  | Raise e => Raise e
  | Ok (netloc, url) =>
      let '(url, fragment) := cut "#" url in
      let '(url, query) := cut "?" url in
      match checknetloc netloc with
      | Raise e => Raise e
      | Ok _ => Ok (scheme, netloc, url, query, fragment)
      end
  end.

(** [_splitparams(url)]: the path is cut at the first [;] found from the
    last [/] on (from the start when there is no [/]). *)
Fixpoint splitparams (url : string) : string * string :=
  match url with
  | EmptyString => (EmptyString, EmptyString)
  | String c rest =>
      if Str.mem "/" rest then
        let '(before, after) := splitparams rest in (String c before, after)
      else cut ";" url
  end.

Definition urlparse (url : string) : result ParseResult :=
  match urlsplit url with
  | Raise e => Raise e
  | Ok (scheme, netloc, url, query, fragment) =>
      let '(url, params) :=
        if existsb (String.eqb scheme) uses_params && Str.mem ";" url
        then splitparams url else (url, EmptyString) in
      Ok {| scheme := scheme; netloc := netloc; path := url;
            params := params; query := query; fragment := fragment |}
  end.

End Bracketed.

End UrlParse.

(** ** The outside world *)

(** [BeautifulSoup(response.content, "lxml")] is taken as the list of the
    page's elements in document order; [getText()] of an element is its
    [text], a multi-valued [class] attribute is the list [classes]. *)
Record Element : Type := {
  tag : string;
  classes : list string;
  attrs : list (string * string);
  text : string
}.

Record Response : Type := {
  status_code : Z;
  content : list Element
}.

(** What [json.load] returns; a number is kept as its literal. *)
#[warnings="-register-all"]
Inductive json : Type :=
  | JNull
  | JBool (b : bool)
  | JNumber (literal : string)
  | JString (s : string)
  | JArray (items : list json)
  | JObject (members : list (string * json)).

(** One entry of the product file: a JSON object with string values. *)
Abbreviation Product := (gmap string string).

Inductive Event : Type :=
  | Get (url : string) (headers : list (string * string))
  | Post (url : string) (json_data : list (string * string))
  | Print (line : string)
  | Sleep (seconds : Z)
  | Open (filename : string)
  | Notify (message : string).

Abbreviation trace := (list Event).

(** The answers of the outside, each a function of what has happened so
    far.  [Notify] is a ghost event: it records that
    [send_telegram_message] was entered. *)
Record World : Type := {
  environ : gmap string string;
  ip_address : string -> result bool;
  requests_get : trace -> string -> list (string * string) -> result Response;
  requests_post : trace -> string -> list (string * string) -> result Response;
  open_read : trace -> string -> result string;
  json_loads : string -> result json;
  datetime_now : trace -> string;
  time_sleep : trace -> Z -> result unit
}.

(** ** Computations with a trace and exceptions *)

Definition M (A : Type) : Type := trace -> result A * trace.

Definition ret {A : Type} (a : A) : M A := fun tr => (Ok a, tr).

Definition bind {A B : Type} (m : M A) (k : A -> M B) : M B :=
  fun tr =>
    match m tr with
    | (Ok a, tr') => k a tr'
    | (Raise e, tr') => (Raise e, tr')
    end.

Definition lift {A : Type} (r : result A) : M A := fun tr => (r, tr).

Definition emit (e : Event) : M unit := fun tr => (Ok tt, (tr ++ [e])%list).

(** The [except] clauses of a [try]: what each catches, and its handler.
    The first clause that catches the exception handles it; an exception
    raised by no clause's class goes on. *)
Fixpoint handle {A : Type} (clauses : list ((exn -> bool) * (exn -> M A))) (e : exn) : M A :=
  match clauses with
  | [] => fun tr => (Raise e, tr)
  | (caught, handler) :: others => if caught e then handler e else handle others e
  end.

(** [try: m except ...] *)
Definition try_except {A : Type} (m : M A) (clauses : list ((exn -> bool) * (exn -> M A))) : M A :=
  fun tr =>
    match m tr with
    | (Raise e, tr') => handle clauses e tr'
    | done => done
    end.

Notation "'let*' x ':=' m 'in' k" := (bind m (fun x => k))
  (at level 10, x pattern, m at level 100, k at level 200).
Notation "m '>>' k" := (bind m (fun _ => k))
  (at level 90, right associativity).

Definition print (line : string) : M unit := emit (Print line).

(** [for x in xs: body x] *)
Fixpoint for_each {A : Type} (xs : list A) (body : A -> M unit) : M unit :=
  match xs with
  | [] => ret tt
  | x :: rest => body x >> for_each rest body
  end.

Definition nl : string := String "010" EmptyString.

(** ** The program *)

Section Program.

Variable W : World.

(** [os.getenv(key)] *)
Definition getenv (key : string) : option string := environ W !! key.

Definition urlparse (url : string) : result UrlParse.ParseResult :=
  UrlParse.urlparse (ip_address W) url.

(** The loop of [extract_asin] over [enumerate(path_parts)]: the first
    part equal to [dp] that has a next part of length 10 returns that
    next part. *)
Fixpoint scan_dp (path_parts : list string) : option string :=
  match path_parts with
  | [] => None
  | part :: following =>
      match following with
      | next :: _ =>
          if String.eqb part "dp" && Nat.eqb (String.length next) 10
          then Some next else scan_dp following
      | [] => None
      end
  end.

Definition extract_asin (url : string) : result (option string) :=
  let asin_match := Re.search "/dp/" url in
  match asin_match with
  | None =>
      match urlparse url with
      | Raise e => Raise e
      | Ok parsed_url =>
          let path_parts := Str.split "/" (UrlParse.path parsed_url) in
          match scan_dp path_parts with
          | Some asin => Ok (Some asin)
          | None =>
              let asin_match := Re.search "/" url in
              match asin_match with
              | Some group1 => Ok (Some group1)
              | None => Ok None
              end
          end
      end
  | Some group1 => Ok (Some group1)
  end.

(** [asin] is optional because [check_price] passes [None]. *)
Definition create_associate_url (asin : option string) (associate_id : option string) : string :=
  let associate_id :=
    match associate_id with
    | None => default "yourtrackingid" (getenv "AMAZON_ASSOCIATE_ID")
    | Some given => given
    end in
  "https://www.amazon.com/dp/" ++ format asin ++ "/ref=nosim?tag=" ++ associate_id.

Definition headers : list (string * string) :=
  [("Accept-Language", "en-US,en;q=0.9");
   ("User-Agent", "Mozilla/5.0 (Windows NT 10.0; Win64; x64) AppleWebKit/537.36 (KHTML, like Gecko) Chrome/107.0.0.0 Safari/537.36 Edg/107.0.1418.35")].

(** [requests.get(url, headers=headers)] *)
Definition get (url : string) (hdrs : list (string * string)) : M Response :=
  fun tr => (requests_get W tr url hdrs, (tr ++ [Get url hdrs])%list).

(** [requests.post(url, json=data)] *)
Definition post (url : string) (data : list (string * string)) : M Response :=
  fun tr => (requests_post W tr url data, (tr ++ [Post url data])%list).

(** [soup.find(name, class_=cls)] *)
Definition find_class (soup : list Element) (name cls : string) : option Element :=
  List.find (fun e => String.eqb (tag e) name && existsb (String.eqb cls) (classes e)) soup.

(** [element.get(key)] *)
Definition attr (e : Element) (key : string) : option string :=
  match List.find (fun kv => String.eqb (fst kv) key) (attrs e) with
  | Some kv => Some (snd kv)
  | None => None
  end.

(** [soup.find(name, {key: value})] *)
Definition find_attr (soup : list Element) (name key value : string) : option Element :=
  List.find (fun e => String.eqb (tag e) name &&
                      match attr e key with
                      | Some v => String.eqb v value
                      | None => false
                      end) soup.

(** [element.getText()], an [AttributeError] when [element] is [None]. *)
Definition getText (element : option Element) : M string :=
  match element with
  | Some e => ret (text e)
  | None => lift (Raise (Exn AttributeError "'NoneType' object has no attribute 'getText'"))
  end.

Definition get_amazon_price (url : string) : M (option string * option string) :=
  let* response := get url headers in
  if negb (status_code response =? 200)%Z then
    print ("Error: Unable to access the URL. Status code: " ++ Str.of_Z (status_code response)) >>
    ret (None, None)
  else
    let soup := content response in
    try_except
      (let* item_price := getText (find_class soup "span" "a-offscreen") in
       let delivery_price_element :=
         find_attr soup "span" "data-csa-c-content-id" "DEXUnifiedCXPDM" in
       let delivery_price :=
         match delivery_price_element with
         | Some e => attr e "data-csa-c-delivery-price"
         | None => None
         end in
       ret (Some item_price, delivery_price))
      [(is_class AttributeError,
        fun _ =>
          print "Error: Could not find price elements on the page" >>
          ret (None, None))].

Definition send_telegram_message (message : string) (bot_token chat_id : option string) : M bool :=
  emit (Notify message) >>
  let bot_token :=
    match bot_token with
    | None => getenv "TELEGRAM_BOT_TOKEN"
    | Some _ => bot_token
    end in
  let chat_id :=
    match chat_id with
    | None => getenv "TELEGRAM_CHAT_ID"
    | Some _ => chat_id
    end in
  if negb (truthy bot_token) || negb (truthy chat_id) then
    print "Error: Telegram credentials not found in environment variables" >>
    ret false
  else
    let url := "https://api.telegram.org/bot" ++ format bot_token ++ "/sendMessage" in
    let data := [("chat_id", format chat_id); ("text", message); ("parse_mode", "HTML")] in
    try_except
      (let* response := post url data in
       ret (status_code response =? 200)%Z)
      [(fun _ => true,
        fun e =>
          print ("Error sending Telegram message: " ++ exn_msg e) >>
          ret false)].

(** [open(filename, 'r')] and the reading of the whole file *)
Definition read_file (filename : string) : M string :=
  fun tr => (open_read W tr filename, (tr ++ [Open filename])%list).

Definition load_products (filename : string) : M json :=
  try_except
    (let* text := read_file filename in
     lift (json_loads W text))
    [(is_class FileNotFoundError,
      fun _ => print ("Error: " ++ filename ++ " not found") >> ret (JArray []));
     (is_class JSONDecodeError,
      fun _ => print ("Error: " ++ filename ++ " is not valid JSON") >> ret (JArray []))].

(** The four characters in front of the notification text, as the bytes of
    the source file. *)
Definition party : string :=
  String "195" (String "176" (String "197" (String "184" (String "197"
    (String "189" (String "226" (String "128" (String "176" EmptyString)))))))).

(** [delivery_price and delivery_price.lower() == "free"] *)
Definition free_shipping (delivery_price : option string) : bool :=
  truthy delivery_price &&
  match delivery_price with
  | Some d => String.eqb (Str.lower d) "free"
  | None => false
  end.

(** The text sent when shipping is free *)
Definition notification_message (name item_price associate_url : string) : string :=
  party ++ " Free shipping available for " ++ name ++ "!" ++ nl ++
  "Price: " ++ item_price ++ nl ++
  "Link: " ++ associate_url.

(** The body of the [for product in products] loop of [monitor_products];
    [continue] ends it.  [if not url] holds for a missing and for an empty
    [url]. *)
Definition check_product (associate_id bot_token chat_id : option string)
    (product : Product) : M unit :=
  let name := default "Unknown Product" (product !! "name") in
  match product !! "url" with
  | None => ret tt
  | Some url =>
    if String.eqb url "" then ret tt
    else
    let* asin := lift (extract_asin url) in
    if negb (truthy asin) then
      print ("Error: Could not extract ASIN from URL for " ++ name)
    else
      let associate_url := create_associate_url asin associate_id in
      let* (item_price, delivery_price) := get_amazon_price associate_url in
      if negb (truthy item_price) then
        print ("Error: Could not get price for " ++ name)
      else if free_shipping delivery_price then
        let message := notification_message name (format item_price) associate_url in
        let* sent := send_telegram_message message bot_token chat_id in
        if sent then print ("Notification sent for " ++ name)
        else print ("Failed to send notification for " ++ name)
      else
        print (name ++ ": " ++ format item_price ++ " (Shipping: " ++
               (if truthy delivery_price then format delivery_price else "Unknown") ++ ")")
  end.

(** [time.sleep(seconds)] for an [int]: the conversion to nanoseconds
    raises [OverflowError] outside of -9223372036..9223372036, a negative
    length is then refused with [ValueError], and for the others the
    sleep of the operating system is called, which returns or raises. *)
Definition sleep (seconds : Z) : M unit :=
  if (seconds <? -9223372036)%Z || (9223372036 <? seconds)%Z then
    lift (Raise (Exn (OtherException "OverflowError")
                   "timestamp too large to convert to C _PyTime_t"))
  else if (seconds <? 0)%Z then
    lift (Raise (Exn ValueError "sleep length must be non-negative"))
  else fun tr => (time_sleep W tr seconds, (tr ++ [Sleep seconds])%list).

(** One turn of the [while True] loop of [monitor_products]. *)
Definition cycle (products : list Product) (associate_id bot_token chat_id : option string)
    (sleep_minutes : Z) : M unit :=
  let* current_time := (fun tr => (Ok (datetime_now W tr), tr)) in
  print (nl ++ "Checking prices at " ++ current_time) >>
  for_each products (check_product associate_id bot_token chat_id) >>
  print (nl ++ "Sleeping for " ++ Str.of_Z sleep_minutes ++ " minutes...") >>
  sleep (sleep_minutes * 60).

(** The loop never ends by itself; [monitor_products] is its first
    [cycles] turns. *)
Fixpoint monitor_products (cycles : nat) (products : list Product)
    (associate_id bot_token chat_id : option string) (sleep_minutes : Z) : M unit :=
  match cycles with
  | O => ret tt
  | S cycles' =>
      cycle products associate_id bot_token chat_id sleep_minutes >>
      monitor_products cycles' products associate_id bot_token chat_id sleep_minutes
  end.

Definition check_price (url : string) (associate_id : option string) : M unit :=
  let* asin := lift (extract_asin url) in
  let* asin_url :=
    if negb (truthy asin) then
      print "Error: Could not extract ASIN from URL. Using original URL." >>
      ret url
    else
      let asin_url := "https://www.amazon.com/dp/" ++ format asin in
      print ("Cleaned URL: " ++ asin_url) >>
      ret asin_url in
  let associate_url := create_associate_url asin associate_id in
  print ("Associate URL: " ++ associate_url) >>
  print ("Processing URL: " ++ associate_url) >>
  let* (item_price, delivery_price) := get_amazon_price associate_url in
  if truthy item_price then
    print ("Item price: " ++ format item_price) >>
    print ("Delivery price: " ++ format delivery_price)
  else
    print "Failed to retrieve price information".

End Program.

(** ** The [monitor] command

    [monitor] hands whatever [json.load] returned to [monitor_products],
    so the loop is stated here over JSON values: [check_item] is the body
    of the loop on any value and [monitor_values] the loop on any list
    value.  A JSON object is the [dict] that [json.load] builds from its
    members (the last value of a repeated key, the keys in the order of
    their first occurrence); [None] is [JNull].  What [str()] gives for a
    number, an array or an object, and whether a number literal denotes
    zero, are taken as given. *)

Section Command.

Variable W : World.

(** [str(v)] for a number, an array or an object *)
Variable str_of : json -> string.

(** Whether the number that a JSON literal denotes is zero *)
Variable is_zero : string -> bool.

(** A literal with a fraction or an exponent, [NaN] or an infinity is a
    [float], any other an [int]. *)
Definition is_float (literal : string) : bool :=
  Str.mem "." literal || Str.mem "e" literal || Str.mem "E" literal
  || Str.mem "N" literal || Str.mem "I" literal.

(** [type(v).__name__] *)
Definition type_name (v : json) : string :=
  match v with
  | JNull => "NoneType"
  | JBool _ => "bool"
  | JNumber literal => if is_float literal then "float" else "int"
  | JString _ => "str"
  | JArray _ => "list"
  | JObject _ => "dict"
  end.

(** Truthiness of a value *)
Definition json_truthy (v : json) : bool :=
  match v with
  | JNull => false
  | JBool b => b
  | JNumber literal => negb (is_zero literal)
  | JString s => negb (String.eqb s "")
  | JArray items => match items with [] => false | _ :: _ => true end
  | JObject members => match members with [] => false | _ :: _ => true end
  end.

(** [f"{v}"] *)
Definition json_format (v : json) : string :=
  match v with
  | JNull => "None"
  | JBool true => "True"
  | JBool false => "False"
  | JString s => s
  | _ => str_of v
  end.

(** [d.get(key)] on the dict of [members], [None] when the key is absent *)
Fixpoint obj_get (members : list (string * json)) (key : string) : option json :=
  match members with
  | [] => None
  | (k, v) :: rest =>
      match obj_get rest key with
      | Some later => Some later
      | None => if String.eqb k key then Some v else None
      end
  end.

(** The keys of the dict of [members] *)
Fixpoint obj_keys (members : list (string * json)) : list string :=
  match members with
  | [] => []
  | (k, _) :: rest => k :: List.filter (fun k' => negb (String.eqb k' k)) (obj_keys rest)
  end.

Fixpoint characters (s : string) : list json :=
  match s with
  | EmptyString => []
  | String c rest => JString (String c EmptyString) :: characters rest
  end.

Definition type_error (message : string) : exn := Exn (OtherException "TypeError") message.

(** [len(v)] *)
Definition json_len (v : json) : result Z :=
  match v with
  | JArray items => Ok (Z.of_nat (List.length items))
  | JObject members => Ok (Z.of_nat (List.length (obj_keys members)))
  | JString s => Ok (Z.of_nat (String.length s))
  | _ => Raise (type_error ("object of type '" ++ type_name v ++ "' has no len()"))
  end.

(** What [for x in v] goes through *)
Definition json_iter (v : json) : result (list json) :=
  match v with
  | JArray items => Ok items
  | JObject members => Ok (List.map JString (obj_keys members))
  | JString s => Ok (characters s)
  | _ => Raise (type_error ("'" ++ type_name v ++ "' object is not iterable"))
  end.

(** The body of the [for product in products] loop of [monitor_products]
    on any value: [product.get] needs a dict, [re.search] a string. *)
Definition check_item (associate_id bot_token chat_id : option string)
    (product : json) : M unit :=
  match product with
  | JObject members =>
    let url := default JNull (obj_get members "url") in
    let name := json_format (default (JString "Unknown Product") (obj_get members "name")) in
    if negb (json_truthy url) then ret tt
    else
    let* asin :=
      lift match url with
           | JString s => extract_asin W s
           | _ => Raise (type_error ("expected string or bytes-like object, got '"
                                     ++ type_name url ++ "'"))
           end in
    if negb (truthy asin) then
      print ("Error: Could not extract ASIN from URL for " ++ name)
    else
      let associate_url := create_associate_url W asin associate_id in
      let* (item_price, delivery_price) := get_amazon_price W associate_url in
      if negb (truthy item_price) then
        print ("Error: Could not get price for " ++ name)
      else if free_shipping delivery_price then
        let message := notification_message name (format item_price) associate_url in
        let* sent := send_telegram_message W message bot_token chat_id in
        if sent then print ("Notification sent for " ++ name)
        else print ("Failed to send notification for " ++ name)
      else
        print (name ++ ": " ++ format item_price ++ " (Shipping: " ++
               (if truthy delivery_price then format delivery_price else "Unknown") ++ ")")
  | _ =>
    lift (Raise (Exn AttributeError
                   ("'" ++ type_name product ++ "' object has no attribute 'get'")))
  end.

(** One turn of the loop of [monitor_products] on any value *)
Definition cycle_values (products : json) (associate_id bot_token chat_id : option string)
    (sleep_minutes : Z) : M unit :=
  let* current_time := (fun tr => (Ok (datetime_now W tr), tr)) in
  print (nl ++ "Checking prices at " ++ current_time) >>
  (let* items := lift (json_iter products) in
   for_each items (check_item associate_id bot_token chat_id)) >>
  print (nl ++ "Sleeping for " ++ Str.of_Z sleep_minutes ++ " minutes...") >>
  sleep W (sleep_minutes * 60).

(** The first [cycles] turns of [monitor_products] on any value *)
Fixpoint monitor_values (cycles : nat) (products : json)
    (associate_id bot_token chat_id : option string) (sleep_minutes : Z) : M unit :=
  match cycles with
  | O => ret tt
  | S cycles' =>
      cycle_values products associate_id bot_token chat_id sleep_minutes >>
      monitor_values cycles' products associate_id bot_token chat_id sleep_minutes
  end.

(** The [monitor] command, its loop cut after [cycles] turns *)
Definition monitor (cycles : nat) (associate_id : option string) (sleep_minutes : Z)
    (products_file : string) : M unit :=
  let* products := load_products W products_file in
  if negb (json_truthy products) then
    print "No products to monitor. Please check your products.json file."
  else
    let* count := lift (json_len products) in
    print ("Starting to monitor " ++ Str.of_Z count ++ " products...") >>
    monitor_values cycles products associate_id None None sleep_minutes.

End Command.

(** The dict [item] read as a product: its [url] and [name] are strings
    or missing, as in [product]. *)
Definition represents (item : json) (product : Product) : Prop :=
  exists members,
    item = JObject members /\
    obj_get members "url" = JString <$> product !! "url" /\
    obj_get members "name" = JString <$> product !! "name".

(** ** What a trace shows *)

(** The messages handed to [send_telegram_message], in order. *)
Fixpoint notifications (tr : trace) : list string :=
  match tr with
  | [] => []
  | Notify message :: rest => message :: notifications rest
  | _ :: rest => notifications rest
  end.

(** The outbound network requests, in order. *)
Fixpoint requests (tr : trace) : list Event :=
  match tr with
  | [] => []
  | Get url hdrs :: rest => Get url hdrs :: requests rest
  | Post url data :: rest => Post url data :: requests rest
  | _ :: rest => requests rest
  end.

(** The URLs fetched with [requests.get], in order. *)
Fixpoint fetched (tr : trace) : list string :=
  match tr with
  | [] => []
  | Get url _ :: rest => url :: fetched rest
  | _ :: rest => fetched rest
  end.

(** The addresses posted to with [requests.post], in order. *)
Fixpoint posted (tr : trace) : list string :=
  match tr with
  | [] => []
  | Post url _ :: rest => url :: posted rest
  | _ :: rest => posted rest
  end.

(** The lines printed, in order. *)
Fixpoint printed (tr : trace) : list string :=
  match tr with
  | [] => []
  | Print line :: rest => line :: printed rest
  | _ :: rest => printed rest
  end.

(** How often [message] was handed to the notifier. *)
Definition times_notified (message : string) (tr : trace) : nat :=
  count_occ string_dec (notifications tr) message.

(** The seconds slept, in order. *)
Fixpoint slept (tr : trace) : list Z :=
  match tr with
  | [] => []
  | Sleep seconds :: rest => seconds :: slept rest
  | _ :: rest => slept rest
  end.

(** An event other than a sleep. *)
Definition awake (e : Event) : Prop :=
  match e with
  | Sleep _ => False
  | _ => True
  end.

(** A computation only adds events to the trace, all of them in [P]. *)
Definition adds {A : Type} (P : Event -> Prop) (m : M A) : Prop :=
  forall tr, exists added, snd (m tr) = (tr ++ added)%list /\ Forall P added.

(** ** The notions of the specification *)

(** Two characters equal up to the case of an ASCII letter. *)
Definition char_eq_ci (c d : ascii) : bool :=
  Ascii.eqb c d
  || (Str.is_upper c && (Str.code d =? Str.code c + 32)%N)
  || (Str.is_upper d && (Str.code c =? Str.code d + 32)%N).

(** Case-insensitive equality of two strings. *)
Fixpoint eq_ci (s t : string) : bool :=
  match s, t with
  | EmptyString, EmptyString => true
  | String c s', String d t' => char_eq_ci c d && eq_ci s' t'
  | _, _ => false
  end.

(** The delivery price is present and case-insensitively equals [free]. *)
Definition delivery_is_free (delivery_price : option string) : bool :=
  match delivery_price with
  | Some d => eq_ci d "free"
  | None => false
  end.

(** A status of the success range, 200 to 299. *)
Definition success_status (status : Z) : bool := ((200 <=? status) && (status <? 300))%Z.

(** [url] holds [lit], then the ten characters [code], each satisfying
    [ok], then [/], [?] or the end of the string. *)
Definition code_after (ok : ascii -> bool) (lit url before code after : string) : Prop :=
  url = before ++ lit ++ code ++ after /\
  String.length code = 10%nat /\
  Str.forallb ok code = true /\
  (after = "" \/ exists rest, after = String "/" rest \/ after = String "?" rest).

(** The token and the chat id in force: the argument, else the
    environment. *)
Definition token_in_force (W : World) (bot_token : option string) : option string :=
  match bot_token with
  | None => getenv W "TELEGRAM_BOT_TOKEN"
  | Some _ => bot_token
  end.

Definition chat_in_force (W : World) (chat_id : option string) : option string :=
  match chat_id with
  | None => getenv W "TELEGRAM_CHAT_ID"
  | Some _ => chat_id
  end.

(** The request of the notifier: its URL and its JSON body. *)
Definition telegram_url (token : option string) : string :=
  "https://api.telegram.org/bot" ++ format token ++ "/sendMessage".

Definition telegram_data (chat : option string) (message : string) : list (string * string) :=
  [("chat_id", format chat); ("text", message); ("parse_mode", "HTML")].

(** [time.sleep] accepts the seconds of [sleep_minutes] and returns, at
    any time. *)
Definition sleep_returns (W : World) (sleep_minutes : Z) : Prop :=
  (0 <= sleep_minutes * 60 <= 9223372036)%Z /\
  forall tr, time_sleep W tr (sleep_minutes * 60) = Ok tt.

(** The affiliate tag in force: the argument, else the environment, else
    the placeholder. *)
Definition tag_in_force (W : World) (associate_id : option string) : string :=
  match associate_id with
  | None => default "yourtrackingid" (getenv W "AMAZON_ASSOCIATE_ID")
  | Some given => given
  end.

(** The URL, with the tabs and line ends taken out as [urlsplit] does,
    holds a [/] followed by the ten characters [seg], none of them a [/],
    and then the end of the URL or one of [/], [?], [#], [;]: a
    ten-character segment. *)
Definition segment_at (url before seg after : string) : Prop :=
  UrlParse.remove_unsafe url = before ++ "/" ++ seg ++ after /\
  String.length seg = 10%nat /\
  Str.mem "/" seg = false /\
  (after = "" \/ exists c rest, after = String c rest /\ Str.mem c "/?#;" = true).

(** [n] characters, none of them a [/], and what follows them. *)
Fixpoint take_part (n : nat) (s : string) : option string :=
  match n with
  | O => Some s
  | S n' =>
      match s with
      | EmptyString => None
      | String c rest => if Ascii.eqb c "/" then None else take_part n' rest
      end
  end.

(** A ten-character segment starts at the first character of [s]. *)
Definition segment_here (s : string) : bool :=
  match s with
  | EmptyString => false
  | String c rest =>
      Ascii.eqb c "/" &&
      match take_part 10 rest with
      | Some EmptyString => true
      | Some (String d _) => Str.mem d "/?#;"
      | None => false
      end
  end.

(** The decision of [segment_at] on a cleaned URL. *)
Fixpoint has_segment (s : string) : bool :=
  segment_here s ||
  match s with
  | EmptyString => false
  | String _ rest => has_segment rest
  end.

(** The path ends at the end of the URL or in front of [?], [#] or [;]. *)
Definition path_end (suffix : string) : Prop :=
  suffix = "" \/ exists c rest, suffix = String c rest /\ Str.mem c "?#;" = true.

(** The test of [soup.find("span", class_=cls)] on one element *)
Definition span_with_class (cls : string) (e : Element) : bool :=
  String.eqb (tag e) "span" && existsb (String.eqb cls) (classes e).

(** The page that the loop fetches for a product: none without a [url],
    none when no identifier is extracted. *)
Definition fetch_target (W : World) (associate_id : option string) (product : Product)
    : result (option string) :=
  match product !! "url" with
  | None => Ok None
  | Some url =>
      if String.eqb url "" then Ok None
      else
        match extract_asin W url with
        | Raise e => Raise e
        | Ok None => Ok None
        | Ok (Some asin) => Ok (Some (create_associate_url W (Some asin) associate_id))
        end
  end.

(** The world with another environment *)
Definition with_environ (env : gmap string string) (W : World) : World :=
  {| environ := env;
     ip_address := ip_address W;
     requests_get := requests_get W;
     requests_post := requests_post W;
     open_read := open_read W;
     json_loads := json_loads W;
     datetime_now := datetime_now W;
     time_sleep := time_sleep W |}.

(** The pages that one pass over [products] asks for, in order, up to the
    first product whose URL makes [extract_asin] raise. *)
Fixpoint fetch_targets (W : World) (associate_id : option string) (products : list Product)
    : list string :=
  match products with
  | [] => []
  | product :: rest =>
      match fetch_target W associate_id product with
      | Raise _ => []
      | Ok None => fetch_targets W associate_id rest
      | Ok (Some page) => page :: fetch_targets W associate_id rest
      end
  end.

(** What the loop may do to the outside: GET the product page of a
    ten-character identifier on [www.amazon.com] with the affiliate tag
    in force and the browser-like headers; POST a message to the
    messaging endpoint of a non-empty token in force, for a non-empty
    chat id in force; print, hand a message to the notifier, sleep.  It
    opens no file. *)
Definition loop_event (W : World) (associate_id bot_token chat_id : option string)
    (e : Event) : Prop :=
  match e with
  | Get url hdrs =>
      hdrs = headers /\
      exists asin,
        String.length asin = 10%nat /\
        url = "https://www.amazon.com/dp/" ++ asin ++ "/ref=nosim?tag="
              ++ tag_in_force W associate_id
  | Post url data =>
      truthy (token_in_force W bot_token) = true /\
      truthy (chat_in_force W chat_id) = true /\
      url = telegram_url (token_in_force W bot_token) /\
      exists message, data = telegram_data (chat_in_force W chat_id) message
  | Open _ => False
  | _ => True
  end.

(** An event other than a message handed to the notifier and a POST. *)
Definition silent (e : Event) : Prop :=
  match e with
  | Notify _ | Post _ _ => False
  | _ => True
  end.

(** ** Worlds for the examples *)

Module Examples.

(** A product page with a price element and a delivery element. *)
Definition page (price : string) (delivery : option string) : Response :=
  {| status_code := 200;
     content :=
       [ {| tag := "span"; classes := ["a-price"; "a-offscreen"]; attrs := []; text := price |};
         {| tag := "span"; classes := [];
            attrs := ("data-csa-c-content-id", "DEXUnifiedCXPDM") ::
                     match delivery with
                     | Some d => [("data-csa-c-delivery-price", d)]
                     | None => []
                     end;
            text := "" |} ] |}.

(** A world that always gives the same answers. *)
Definition world (env : gmap string string) (get_reply post_reply : result Response) : World :=
  {| environ := env;
     ip_address := fun _ => Raise (Exn ValueError "does not appear to be an IPv4 or IPv6 address");
     requests_get := fun _ _ _ => get_reply;
     requests_post := fun _ _ _ => post_reply;
     open_read := fun _ _ => Raise (Exn FileNotFoundError "No such file or directory");
     json_loads := fun _ => Raise (Exn JSONDecodeError "Expecting value");
     datetime_now := fun _ => "2024-01-01 00:00:00";
     time_sleep := fun _ _ => Ok tt |}.

Definition credentials : gmap string string :=
  {[ "TELEGRAM_BOT_TOKEN" := "123:abc"; "TELEGRAM_CHAT_ID" := "42" ]}.

Definition reply (status : Z) : result Response :=
  Ok {| status_code := status; content := [] |}.

Definition kettle : Product :=
  {[ "name" := "Kettle"; "url" := "https://www.amazon.com/dp/B08N5WRWNW" ]}.

Definition lamp : Product :=
  {[ "name" := "Lamp"; "url" := "https://www.amazon.com/dp/B000000001" ]}.

(** A product without a [url] *)
Definition bare_entry : Product := {[ "name" := "Mug" ]}.

(** Credentials are set; the page of the lamp is refused with status 503,
    every other page shows a price and free delivery. *)
Definition shop : World :=
  {| environ := credentials;
     ip_address := fun _ => Raise (Exn ValueError "does not appear to be an IPv4 or IPv6 address");
     requests_get := fun _ url _ =>
       if String.eqb url "https://www.amazon.com/dp/B000000001/ref=nosim?tag=yourtrackingid"
       then reply 503 else Ok (page "$24.99" (Some "Free"));
     requests_post := fun _ _ _ => reply 200;
     open_read := fun _ _ => Raise (Exn FileNotFoundError "No such file or directory");
     json_loads := fun _ => Raise (Exn JSONDecodeError "Expecting value");
     datetime_now := fun _ => "2024-01-01 00:00:00";
     time_sleep := fun _ _ => Ok tt |}.

(** No credentials, no affiliate tag; every request is answered with an
    empty page of status 200. *)
Definition bare : World := world ∅ (reply 200) (reply 200).

(** Credentials are set; the product page answers [get_reply], the
    messaging endpoint answers with status [post_status]. *)
Definition configured (get_reply : result Response) (post_status : Z) : World :=
  world credentials get_reply (reply post_status).

(** The world of [shop] with a product file: reading any file gives
    [text], which parses as [parsed]. *)
Definition with_file (text : string) (parsed : result json) : World :=
  {| environ := credentials;
     ip_address := ip_address shop;
     requests_get := requests_get shop;
     requests_post := requests_post shop;
     open_read := fun _ _ => Ok text;
     json_loads := fun _ => parsed;
     datetime_now := datetime_now shop;
     time_sleep := time_sleep shop |}.

(** The world of [shop] with a product file that cannot be read: opening
    or reading any file raises [e]. *)
Definition unreadable (e : exn) : World :=
  {| environ := credentials;
     ip_address := ip_address shop;
     requests_get := requests_get shop;
     requests_post := requests_post shop;
     open_read := fun _ _ => Raise e;
     json_loads := json_loads shop;
     datetime_now := datetime_now shop;
     time_sleep := time_sleep shop |}.

(** What reading a text file raises when its first byte is [0xff] *)
Definition not_utf8 : exn :=
  Exn (OtherException "UnicodeDecodeError")
    "'utf-8' codec can't decode byte 0xff in position 0: invalid start byte".

(** The product file entry of [kettle] *)
Definition kettle_entry : json :=
  JObject [("name", JString "Kettle"); ("url", JString "https://www.amazon.com/dp/B08N5WRWNW")].

(** [s] between double quotes *)
Definition quoted (s : string) : string := String "034" (s ++ String "034" "").

(** The text of a product file that holds [kettle_entry] *)
Definition kettle_file : string :=
  "[{" ++ quoted "name" ++ ": " ++ quoted "Kettle" ++ ", " ++
  quoted "url" ++ ": " ++ quoted "https://www.amazon.com/dp/B08N5WRWNW" ++ "}]".

(** The text of a product file that holds the entry alone, not in a list *)
Definition kettle_alone : string :=
  "{" ++ quoted "name" ++ ": " ++ quoted "Kettle" ++ ", " ++
  quoted "url" ++ ": " ++ quoted "https://www.amazon.com/dp/B08N5WRWNW" ++ "}".

(** Nothing is known about numbers, arrays and objects as text *)
Definition no_text : json -> string := fun _ => "".

Definition zero_literal : string -> bool := fun literal => String.eqb literal "0".

End Examples.

(** * Properties *)

(** ** The observers on a joined trace *)

Lemma notifications_app (a b : trace) :
  notifications (a ++ b)%list = (notifications a ++ notifications b)%list.
Proof.
  induction a as [|e a IH]; simpl; [reflexivity|].
  destruct e; simpl; rewrite IH; reflexivity.
Qed.

Lemma requests_app (a b : trace) :
  requests (a ++ b)%list = (requests a ++ requests b)%list.
Proof.
  induction a as [|e a IH]; simpl; [reflexivity|].
  destruct e; simpl; rewrite IH; reflexivity.
Qed.

Lemma fetched_app (a b : trace) :
  fetched (a ++ b)%list = (fetched a ++ fetched b)%list.
Proof.
  induction a as [|e a IH]; simpl; [reflexivity|].
  destruct e; simpl; rewrite IH; reflexivity.
Qed.

(** ** The identifier extractor *)

Module StrFacts.

Lemma append_nil_l (s : string) : "" ++ s = s.
Proof. reflexivity. Qed.

Lemma append_cons (c : ascii) (s t : string) : String c s ++ t = String c (s ++ t).
Proof. reflexivity. Qed.

Lemma append_nil_r (s : string) : s ++ "" = s.
Proof.
  induction s as [|c s IH]; [reflexivity|].
  rewrite append_cons, IH. reflexivity.
Qed.

Lemma append_assoc (s t u : string) : (s ++ t) ++ u = s ++ t ++ u.
Proof.
  induction s as [|c s IH]; [reflexivity|].
  rewrite !append_cons, IH. reflexivity.
Qed.

Lemma length_append (s t : string) :
  String.length (s ++ t) = (String.length s + String.length t)%nat.
Proof.
  induction s as [|c s IH]; [reflexivity|].
  rewrite append_cons. simpl. rewrite IH. reflexivity.
Qed.

End StrFacts.

Ltac str_simpl := rewrite ?StrFacts.append_nil_l, ?StrFacts.append_cons in *.

Module ReFacts.

Lemma strip_prefix_app (p r : string) : Str.strip_prefix p (p ++ r) = Some r.
Proof.
  induction p as [|a p IH]; str_simpl; simpl; [reflexivity|].
  rewrite Ascii.eqb_refl. exact IH.
Qed.

Lemma strip_prefix_inv (p s r : string) : Str.strip_prefix p s = Some r -> s = p ++ r.
Proof.
  revert s. induction p as [|a p IH]; intros s H; str_simpl; simpl in *.
  - congruence.
  - destruct s as [|b s]; [discriminate|].
    destruct (Ascii.eqb a b) eqn:E; [|discriminate].
    apply Ascii.eqb_eq in E. subst b. f_equal. apply IH, H.
Qed.

Lemma class_run_app (group after : string) :
  Str.forallb Re.asin_class group = true ->
  Re.class_run (String.length group) (group ++ after) = Some (group, after).
Proof.
  induction group as [|c group IH]; str_simpl; simpl; intros H; [reflexivity|].
  apply andb_true_iff in H as [Hc Hg].
  rewrite Hc, (IH Hg). reflexivity.
Qed.

Lemma class_run_inv (n : nat) (s group after : string) :
  Re.class_run n s = Some (group, after) ->
  s = group ++ after /\ String.length group = n /\
  Str.forallb Re.asin_class group = true.
Proof.
  revert s group after. induction n as [|n IH]; intros s group after H; simpl in H.
  - injection H as <- <-. repeat split.
  - destruct s as [|c s]; [discriminate|].
    destruct (Re.asin_class c) eqn:Ec; [|discriminate].
    destruct (Re.class_run n s) as [[g a]|] eqn:E; [|discriminate].
    injection H as <- <-.
    destruct (IH _ _ _ E) as [-> [<- Hg]].
    str_simpl. simpl. rewrite Ec, Hg. repeat split.
Qed.

(** What a match at the start of [s] means. *)
Lemma match_here_inv (lit s group : string) :
  Re.match_here lit s = Some group ->
  exists after,
    s = lit ++ group ++ after /\ String.length group = 10%nat /\
    Str.forallb Re.asin_class group = true /\ Re.at_delimiter after = true.
Proof.
  unfold Re.match_here. intros H.
  destruct (Str.strip_prefix lit s) as [rest|] eqn:Ep; [|discriminate].
  destruct (Re.class_run 10 rest) as [[g after]|] eqn:Er; [|discriminate].
  destruct (Re.at_delimiter after) eqn:Ed; [|discriminate].
  injection H as <-.
  apply strip_prefix_inv in Ep. apply class_run_inv in Er as [-> [Hlen Hcls]].
  exists after. repeat split; assumption.
Qed.

Lemma match_here_intro (lit group after : string) :
  String.length group = 10%nat ->
  Str.forallb Re.asin_class group = true ->
  Re.at_delimiter after = true ->
  Re.match_here lit (lit ++ group ++ after) = Some group.
Proof.
  intros Hlen Hcls Hd. unfold Re.match_here.
  rewrite strip_prefix_app, <- Hlen, (class_run_app group after Hcls), Hd.
  reflexivity.
Qed.

(** A search result is a match at some position. *)
Lemma search_inv (lit s group : string) :
  Re.search lit s = Some group ->
  exists before after,
    s = before ++ lit ++ group ++ after /\ String.length group = 10%nat /\
    Str.forallb Re.asin_class group = true /\ Re.at_delimiter after = true.
Proof.
  induction s as [|c s IH]; simpl; intros H.
  - destruct (Re.match_here lit "") eqn:E; [|discriminate].
    injection H as ->. apply match_here_inv in E as [after E].
    exists "", after. exact E.
  - destruct (Re.match_here lit (String c s)) eqn:E.
    + injection H as ->. apply match_here_inv in E as [after E].
      exists "", after. exact E.
    + destruct (IH H) as [before [after [-> Hrest]]].
      exists (String c before), after. split; [reflexivity | exact Hrest].
Qed.

End ReFacts.

Lemma scan_dp_length (path_parts : list string) (asin : string) :
  scan_dp path_parts = Some asin -> String.length asin = 10%nat.
Proof.
  induction path_parts as [|part following IH]; simpl; [discriminate|].
  destruct following as [|next rest]; [discriminate|].
  destruct (String.eqb part "dp" && Nat.eqb (String.length next) 10) eqn:E.
  - intros H. injection H as <-.
    apply andb_true_iff in E as [_ E]. apply Nat.eqb_eq, E.
  - exact IH.
Qed.

(** Whatever [extract_asin] returns as an identifier has ten characters. *)
Lemma extract_asin_length (W : World) (url asin : string) :
  extract_asin W url = Ok (Some asin) -> String.length asin = 10%nat.
Proof.
  unfold extract_asin. intros H.
  destruct (Re.search "/dp/" url) as [g|] eqn:E1.
  - injection H as <-.
    apply ReFacts.search_inv in E1 as [b [a [_ [Hlen _]]]]. exact Hlen.
  - destruct (urlparse W url) as [parsed|e]; [|discriminate].
    destruct (scan_dp _) as [a|] eqn:E2.
    + injection H as <-. apply (scan_dp_length _ _ E2).
    + destruct (Re.search "/" url) as [g|] eqn:E3; [|discriminate].
      injection H as <-.
      apply ReFacts.search_inv in E3 as [b [a [_ [Hlen _]]]]. exact Hlen.
Qed.

Lemma extract_asin_truthy (W : World) (url asin : string) :
  extract_asin W url = Ok (Some asin) -> truthy (Some asin) = true.
Proof.
  intros H. apply extract_asin_length in H.
  destruct asin; [discriminate | reflexivity].
Qed.

(** ** The first pattern of the extractor *)

Lemma search_unfold (lit s : string) :
  Re.search lit s =
  match Re.match_here lit s with
  | Some group => Some group
  | None =>
      match s with
      | EmptyString => None
      | String _ rest => Re.search lit rest
      end
  end.
Proof. destruct s; reflexivity. Qed.

Lemma delimiter_of_spec (after : string) :
  after = "" \/ (exists rest, after = String "/" rest \/ after = String "?" rest) ->
  Re.at_delimiter after = true.
Proof.
  intros [-> | [rest [-> | ->]]]; reflexivity.
Qed.

(** The delimiter of the pattern is the one of the specification, or the
    newline that ends the string. *)
Lemma delimiter_cases (after : string) :
  Re.at_delimiter after = true ->
  (after = "" \/ (exists rest, after = String "/" rest \/ after = String "?" rest)) \/
  after = nl.
Proof.
  destruct after as [|c rest]; [left; left; reflexivity|].
  unfold Re.at_delimiter. intros H.
  apply orb_true_iff in H as [H | H]; [apply orb_true_iff in H as [H | H]|].
  - apply Ascii.eqb_eq in H. subst c. left. right. exists rest. left. reflexivity.
  - apply Ascii.eqb_eq in H. subst c. left. right. exists rest. right. reflexivity.
  - apply andb_true_iff in H as [Hc Hr].
    apply Ascii.eqb_eq in Hc. apply String.eqb_eq in Hr. subst. right. reflexivity.
Qed.

Lemma length_zero_empty (s : string) : String.length s = 0%nat -> s = "".
Proof. destruct s; [reflexivity | discriminate]. Qed.

(** [re.search] returns the code of the leftmost occurrence of the
    pattern. *)
Lemma search_dp_leftmost (before code after : string) :
  String.length code = 10%nat ->
  Str.forallb Re.asin_class code = true ->
  after = "" \/ (exists rest, after = String "/" rest \/ after = String "?" rest) ->
  (forall before' code' after',
     code_after Re.asin_class "/dp/" (before ++ "/dp/" ++ code ++ after) before' code' after' ->
     String.length before <= String.length before') ->
  Re.search "/dp/" (before ++ "/dp/" ++ code ++ after) = Some code.
Proof.
  intros Hlen Hcls Hdelim.
  induction before as [|c before IH]; intros Hleft; rewrite search_unfold.
  - rewrite StrFacts.append_nil_l.
    rewrite (ReFacts.match_here_intro "/dp/" code after Hlen Hcls (delimiter_of_spec _ Hdelim)).
    reflexivity.
  - destruct (Re.match_here "/dp/" (String c before ++ "/dp/" ++ code ++ after)) as [g|] eqn:E.
    + exfalso.
      apply ReFacts.match_here_inv in E as [after' [Heq [Hlen' [Hcls' Hd']]]].
      destruct (delimiter_cases after' Hd') as [Hspec | ->].
      * assert (Hocc : code_after Re.asin_class "/dp/"
                         (String c before ++ "/dp/" ++ code ++ after) "" g after').
        { repeat split; assumption. }
        apply Hleft in Hocc. simpl in Hocc. lia.
      * pose proof (f_equal String.length Heq) as Hl.
        rewrite !StrFacts.length_append, Hlen, Hlen' in Hl. simpl in Hl.
        assert (Hb : String.length before = 0%nat) by lia.
        assert (Ha : String.length after = 0%nat) by lia.
        apply length_zero_empty in Hb, Ha. subst before after.
        str_simpl. discriminate Heq.
    + rewrite (StrFacts.append_cons c before). apply IH.
      intros before' code' after' [Heq Hrest].
      assert (Hocc : code_after Re.asin_class "/dp/"
                       (String c before ++ "/dp/" ++ code ++ after)
                       (String c before') code' after').
      { split; [|exact Hrest].
        rewrite !(StrFacts.append_cons c), Heq. reflexivity. }
      apply Hleft in Hocc. simpl in Hocc. lia.
Qed.

(** C2, as stated, fails.  The first URL holds [/dp/] followed by the ten
    alphanumeric characters [b08n5wrwnw] and the end of the string, and
    [extract_asin] returns another text, [some-title]: lower-case letters
    are outside the pattern's class, so the first pattern does not match
    and the scan of the path takes the first ten-character part after a
    [dp].  The second URL holds two such codes, and the one returned is
    the first. *)
Lemma extract_asin_lowercase_counterexample :
  code_after Str.is_alnum "/dp/" "https://www.amazon.com/dp/some-title/dp/b08n5wrwnw"
    "https://www.amazon.com/dp/some-title" "b08n5wrwnw" "" /\
  extract_asin Examples.bare "https://www.amazon.com/dp/some-title/dp/b08n5wrwnw"
    = Ok (Some "some-title") /\
  code_after Str.is_alnum "/dp/" "https://www.amazon.com/dp/B08N5WRWNW/dp/B000000001"
    "https://www.amazon.com/dp/B08N5WRWNW" "B000000001" "" /\
  extract_asin Examples.bare "https://www.amazon.com/dp/B08N5WRWNW/dp/B000000001"
    = Ok (Some "B08N5WRWNW").
Proof.
  split; [|split; [|split]].
  - repeat split. left. reflexivity.
  - vm_compute. reflexivity.
  - repeat split. left. reflexivity.
  - vm_compute. reflexivity.
Qed.

(** C2, amended.  When the URL holds [/dp/] followed by exactly ten
    characters of [A-Z0-9] (capital letters and digits) and then [/], [?]
    or the end of the string, [extract_asin] returns that ten-character
    code, the one of the leftmost such place. *)
Theorem extract_asin_returns_dp_code (W : World) (url before code after : string) :
  code_after Re.asin_class "/dp/" url before code after ->
  (forall before' code' after',
     code_after Re.asin_class "/dp/" url before' code' after' ->
     String.length before <= String.length before') ->
  extract_asin W url = Ok (Some code).
Proof.
  intros [-> [Hlen [Hcls Hdelim]]] Hleft.
  unfold extract_asin.
  rewrite (search_dp_leftmost before code after Hlen Hcls Hdelim Hleft).
  reflexivity.
Qed.

Lemma extract_asin_returns_dp_code_witness :
  extract_asin Examples.bare "https://www.amazon.com/dp/B08N5WRWNW/ref=sr_1_1?keywords=kettle"
    = Ok (Some "B08N5WRWNW").
Proof.
  apply (extract_asin_returns_dp_code Examples.bare
           "https://www.amazon.com/dp/B08N5WRWNW/ref=sr_1_1?keywords=kettle"
           "https://www.amazon.com" "B08N5WRWNW" "/ref=sr_1_1?keywords=kettle").
  - repeat split. right. eexists. left. reflexivity.
  - intros before' code' after' [Heq _].
    do 22 (destruct before' as [|? before'];
           [ rewrite StrFacts.append_nil_l in Heq; discriminate Heq
           | rewrite StrFacts.append_cons in Heq; injection Heq as _ Heq ]).
    simpl. lia.
Defined.

(** C3: the code at the failing input.  The first pattern does not match
    [http://[], so the URL goes to [urlparse], whose [ValueError] for a
    host with an opening and no closing bracket is not caught: the
    extractor raises instead of returning [None].  In the loop the
    exception ends the turn before the products that follow are looked
    at. *)
Theorem extract_asin_raises_on_unbalanced_bracket
    (W : World) (associate_id bot_token chat_id : option string)
    (others : list Product) (sleep_minutes : Z) (tr : trace) :
  extract_asin W "http://[" = Raise (Exn ValueError "Invalid IPv6 URL") /\
  monitor_products W 1 ({[ "name" := "Broken"; "url" := "http://[" ]} :: others)
    associate_id bot_token chat_id sleep_minutes tr =
    (Raise (Exn ValueError "Invalid IPv6 URL"),
     (tr ++ [Print (nl ++ "Checking prices at " ++ datetime_now W tr)])%list).
Proof.
  split; reflexivity.
Qed.

(** ** Where the parsed path lies in the URL *)

Module UrlFacts.

Lemma remove_append (c : ascii) (s t : string) :
  Str.remove c (s ++ t) = Str.remove c s ++ Str.remove c t.
Proof.
  induction s as [|d s IH]; [reflexivity|].
  rewrite StrFacts.append_cons. simpl.
  destruct (Ascii.eqb c d); [exact IH|].
  rewrite StrFacts.append_cons, IH. reflexivity.
Qed.

Lemma remove_unsafe_append (s t : string) :
  UrlParse.remove_unsafe (s ++ t) = UrlParse.remove_unsafe s ++ UrlParse.remove_unsafe t.
Proof. unfold UrlParse.remove_unsafe. rewrite !remove_append. reflexivity. Qed.

Lemma remove_cons_other (c d : ascii) (s : string) :
  Ascii.eqb d c = false -> Str.remove c (String d s) = String d (Str.remove c s).
Proof. intros H. simpl. rewrite Ascii.eqb_sym, H. reflexivity. Qed.

Lemma remove_unsafe_cons (c : ascii) (s : string) :
  Str.mem c (String "009" (String "013" (String "010" ""))) = false ->
  UrlParse.remove_unsafe (String c s) = String c (UrlParse.remove_unsafe s).
Proof.
  intros H. cbn [Str.mem] in H.
  apply orb_false_iff in H as [H1 H]. apply orb_false_iff in H as [H2 H].
  apply orb_false_iff in H as [H3 _].
  unfold UrlParse.remove_unsafe.
  rewrite (remove_cons_other "009" c s H1), (remove_cons_other "013" c _ H2),
          (remove_cons_other "010" c _ H3).
  reflexivity.
Qed.

Lemma lstrip_suffix (p : ascii -> bool) (s : string) :
  exists stripped, s = stripped ++ Str.lstrip p s.
Proof.
  induction s as [|c s [stripped IH]].
  - exists "". reflexivity.
  - simpl. destruct (p c).
    + exists (String c stripped). rewrite StrFacts.append_cons, <- IH. reflexivity.
    + exists "". reflexivity.
Qed.

Lemma break_none (stop : ascii -> bool) (s before : string) :
  Str.break stop s = (before, None) -> s = before.
Proof.
  revert before. induction s as [|c s IH]; intros before H; simpl in H.
  - injection H as <-. reflexivity.
  - destruct (stop c); [discriminate|].
    destruct (Str.break stop s) as [b a]. injection H as <- ->.
    rewrite (IH b eq_refl). reflexivity.
Qed.

Lemma break_some (stop : ascii -> bool) (s before rest : string) :
  Str.break stop s = (before, Some rest) ->
  s = before ++ rest /\ exists c tail, rest = String c tail /\ stop c = true.
Proof.
  revert before. induction s as [|c s IH]; intros before H; simpl in H.
  - discriminate.
  - destruct (stop c) eqn:E.
    + injection H as <- <-. split; [reflexivity|]. exists c, s. split; [reflexivity | exact E].
    + destruct (Str.break stop s) as [b a]. injection H as <- ->.
      destruct (IH b eq_refl) as [-> Hrest]. split; [reflexivity | exact Hrest].
Qed.

Lemma path_end_append (a b : string) : path_end a -> path_end b -> path_end (a ++ b).
Proof.
  intros [-> | [c [rest [-> Hc]]]] Hb; [exact Hb|].
  right. exists c, (rest ++ b). split; [reflexivity | exact Hc].
Qed.

Lemma cut_spec (c : ascii) (s before after : string) :
  UrlParse.cut c s = (before, after) ->
  s = before \/ s = before ++ String c after.
Proof.
  unfold UrlParse.cut.
  destruct (Str.break (Ascii.eqb c) s) as [b [r|]] eqn:E.
  - apply break_some in E as [-> [d [tail [-> Hd]]]].
    apply Ascii.eqb_eq in Hd. subst d.
    intros H. injection H as <- <-. right. reflexivity.
  - apply break_none in E. subst b.
    intros H. injection H as <- _. left. reflexivity.
Qed.

Lemma cut_path_end (c : ascii) (s before after : string) :
  Str.mem c "?#;" = true ->
  UrlParse.cut c s = (before, after) ->
  exists suffix, s = before ++ suffix /\ path_end suffix.
Proof.
  intros Hc H. destruct (cut_spec c s before after H) as [-> | ->].
  - exists "". split; [symmetry; apply StrFacts.append_nil_r | left; reflexivity].
  - exists (String c after). split; [reflexivity|].
    right. exists c, after. split; [reflexivity | exact Hc].
Qed.

Lemma splitparams_path_end (url before after : string) :
  UrlParse.splitparams url = (before, after) ->
  exists suffix, url = before ++ suffix /\ path_end suffix.
Proof.
  revert before. induction url as [|c url IH]; intros before H; simpl in H.
  - injection H as <- _. exists "". split; [reflexivity | left; reflexivity].
  - destruct (Str.mem "/" url).
    + destruct (UrlParse.splitparams url) as [b a]. injection H as <- ->.
      destruct (IH b eq_refl) as [suffix [-> Hs]].
      exists suffix. split; [reflexivity | exact Hs].
    + apply (cut_path_end ";" _ _ _ eq_refl H).
Qed.

Lemma split_scheme_suffix (url scheme rest : string) :
  UrlParse.split_scheme url = (scheme, rest) -> exists prefix, url = prefix ++ rest.
Proof.
  unfold UrlParse.split_scheme.
  destruct (Str.break (Ascii.eqb ":") url) as [b [r|]] eqn:E.
  - apply break_some in E as [-> [d [tail [-> _]]]].
    destruct b as [|c0 b].
    + intros H. injection H as _ <-. exists "". reflexivity.
    + destruct (_ && _).
      * intros H. injection H as _ <-.
        exists (String c0 b ++ String d ""). rewrite StrFacts.append_assoc. reflexivity.
      * intros H. injection H as _ <-. exists "". reflexivity.
  - destruct b; intros H; injection H as _ <-; exists ""; reflexivity.
Qed.

Lemma splitnetloc_suffix (after_slashes netloc rest : string) :
  UrlParse.splitnetloc after_slashes = (netloc, rest) -> after_slashes = netloc ++ rest.
Proof.
  unfold UrlParse.splitnetloc.
  destruct (Str.break _ after_slashes) as [b [r|]] eqn:E.
  - apply break_some in E as [-> _]. intros H. injection H as <- <-. reflexivity.
  - apply break_none in E. subst b. intros H. injection H as <- <-.
    symmetry. apply StrFacts.append_nil_r.
Qed.

Section WithIpaddress.

Variable ip_address : string -> result bool.

Lemma urlsplit_path (url scheme netloc path query fragment : string) :
  UrlParse.urlsplit ip_address url = Ok (scheme, netloc, path, query, fragment) ->
  exists prefix suffix,
    UrlParse.remove_unsafe url = prefix ++ path ++ suffix /\ path_end suffix.
Proof.
  unfold UrlParse.urlsplit.
  destruct (lstrip_suffix UrlParse.c0_control_or_space url) as [stripped Hstrip].
  set (u0 := Str.lstrip UrlParse.c0_control_or_space url) in *.
  assert (Hclean : UrlParse.remove_unsafe url =
                   UrlParse.remove_unsafe stripped ++ UrlParse.remove_unsafe u0).
  { rewrite Hstrip at 1. apply remove_unsafe_append. }
  destruct (UrlParse.split_scheme (UrlParse.remove_unsafe u0)) as [sch u2] eqn:Es.
  apply split_scheme_suffix in Es as [p2 Hu2].
  assert (Hnet : forall nl u3 (after_netloc : result (string * string)),
             after_netloc = Ok (nl, u3) ->
             (exists p3, u2 = p3 ++ u3) ->
             match after_netloc with
             | Raise e => Raise e
             | Ok (netloc0, url0) =>
                 let '(url1, fragment0) := UrlParse.cut "#" url0 in
                 let '(url2, query0) := UrlParse.cut "?" url1 in
                 match UrlParse.checknetloc netloc0 with
                 | Raise e => Raise e
                 | Ok _ => Ok (sch, netloc0, url2, query0, fragment0)
                 end
             end = Ok (scheme, netloc, path, query, fragment) ->
             exists prefix suffix,
               UrlParse.remove_unsafe url = prefix ++ path ++ suffix /\ path_end suffix).
  { intros nl u3 after_netloc -> [p3 Hu3].
    destruct (UrlParse.cut "#" u3) as [u4 fr] eqn:E4.
    destruct (UrlParse.cut "?" u4) as [u5 qu] eqn:E5.
    destruct (UrlParse.checknetloc nl); [|discriminate].
    intros H. injection H as _ _ <- _ _.
    apply (cut_path_end "#" _ _ _ eq_refl) in E4 as [s4 [-> H4]].
    apply (cut_path_end "?" _ _ _ eq_refl) in E5 as [s5 [-> H5]].
    exists (UrlParse.remove_unsafe stripped ++ p2 ++ p3), (s5 ++ s4).
    split; [|apply path_end_append; assumption].
    rewrite Hclean, Hu2, Hu3, !StrFacts.append_assoc. reflexivity. }
  destruct u2 as [|c1 u2'].
  { apply (Hnet "" "" _ eq_refl). exists "". reflexivity. }
  destruct (Ascii.eqb c1 "/") eqn:E1.
  2:{ destruct c1 as [[] [] [] [] [] [] [] []]; try discriminate E1;
        apply (Hnet "" _ _ eq_refl); exists ""; reflexivity. }
  apply Ascii.eqb_eq in E1. subst c1.
  destruct u2' as [|c2 u2''].
  { apply (Hnet "" _ _ eq_refl). exists "". reflexivity. }
  destruct (Ascii.eqb c2 "/") eqn:E2.
  2:{ destruct c2 as [[] [] [] [] [] [] [] []]; try discriminate E2;
        apply (Hnet "" _ _ eq_refl); exists ""; reflexivity. }
  apply Ascii.eqb_eq in E2. subst c2.
  destruct (UrlParse.splitnetloc u2'') as [nl u3] eqn:En.
  apply splitnetloc_suffix in En.
  destruct (_ || _); [discriminate|].
  destruct (_ && _).
  - destruct (UrlParse.check_bracketed_netloc ip_address nl); [|discriminate].
    apply (Hnet nl u3 _ eq_refl). exists (String "/" (String "/" nl)).
    rewrite En. reflexivity.
  - apply (Hnet nl u3 _ eq_refl). exists (String "/" (String "/" nl)).
    rewrite En. reflexivity.
Qed.

Lemma urlparse_path (url : string) (parsed : UrlParse.ParseResult) :
  UrlParse.urlparse ip_address url = Ok parsed ->
  exists prefix suffix,
    UrlParse.remove_unsafe url = prefix ++ UrlParse.path parsed ++ suffix /\ path_end suffix.
Proof.
  unfold UrlParse.urlparse.
  destruct (UrlParse.urlsplit ip_address url) as [[[[[sch nl] u] qu] fr]|e] eqn:E; [|discriminate].
  apply urlsplit_path in E as [prefix [suffix [Hu Hs]]].
  destruct (_ && _).
  - destruct (UrlParse.splitparams u) as [p q] eqn:Ep.
    intros H. injection H as <-. simpl.
    apply splitparams_path_end in Ep as [s6 [-> H6]].
    exists prefix, (s6 ++ suffix). split; [|apply path_end_append; assumption].
    rewrite Hu, !StrFacts.append_assoc. reflexivity.
  - intros H. injection H as <-. simpl.
    exists prefix, suffix. split; assumption.
Qed.

End WithIpaddress.

Lemma asin_class_safe (c : ascii) :
  Re.asin_class c = true ->
  Str.mem c (String "009" (String "013" (String "010" ""))) = false /\
  Ascii.eqb "/" c = false.
Proof.
  destruct c as [[] [] [] [] [] [] [] []]; vm_compute; intros H;
    try discriminate H; split; reflexivity.
Qed.

Lemma remove_unsafe_code (code : string) :
  Str.forallb Re.asin_class code = true ->
  UrlParse.remove_unsafe code = code /\ Str.mem "/" code = false.
Proof.
  induction code as [|c code IH]; [intros _; split; reflexivity|].
  cbn [Str.forallb]. intros H. apply andb_true_iff in H as [Hc Hrest].
  destruct (asin_class_safe c Hc) as [Hsafe Hslash].
  destruct (IH Hrest) as [Hclean Hmem].
  rewrite (remove_unsafe_cons c code Hsafe), Hclean. cbn [Str.mem].
  rewrite Hslash, Hmem. split; reflexivity.
Qed.

(** What either pattern of the extractor matches is a ten-character
    segment. *)
Lemma search_segment (lit url group : string) :
  lit = "/" \/ lit = "/dp/" ->
  Re.search lit url = Some group ->
  exists before after, segment_at url before group after.
Proof.
  intros Hlit H.
  apply ReFacts.search_inv in H as [b [a [-> [Hlen [Hcls Hd]]]]].
  destruct (remove_unsafe_code group Hcls) as [Hclean Hmem].
  exists (UrlParse.remove_unsafe (b ++ match lit with String _ EmptyString => "" | _ => "/dp" end)),
         (UrlParse.remove_unsafe a).
  split; [|split; [exact Hlen | split; [exact Hmem|]]].
  - destruct Hlit as [-> | ->];
      rewrite ?StrFacts.append_nil_r;
      change "/dp/" with ("/dp" ++ "/");
      rewrite <- ?StrFacts.append_assoc;
      rewrite !remove_unsafe_append, Hclean, !StrFacts.append_assoc; reflexivity.
  - destruct (delimiter_cases a Hd) as [[-> | [rest [-> | ->]]] | ->].
    + left. reflexivity.
    + right. exists "/"%char, (UrlParse.remove_unsafe rest).
      split; [apply remove_unsafe_cons|]; reflexivity.
    + right. exists "?"%char, (UrlParse.remove_unsafe rest).
      split; [apply remove_unsafe_cons|]; reflexivity.
    + left. reflexivity.
Qed.

(** The parts of [split]: the first part has no separator, and the other
    parts are those of what follows the first separator. *)
Lemma split_inv (s part : string) (parts : list string) :
  Str.split "/" s = part :: parts ->
  Str.mem "/" part = false /\
  ((parts = [] /\ s = part) \/
   (exists rest, s = part ++ String "/" rest /\ Str.split "/" rest = parts)).
Proof.
  revert part parts. induction s as [|c s IH]; intros part parts H; simpl in H.
  - injection H as <- <-. split; [reflexivity | left; split; reflexivity].
  - destruct (Ascii.eqb c "/") eqn:E.
    + apply Ascii.eqb_eq in E. subst c. injection H as <- <-.
      split; [reflexivity|]. right. exists s. split; reflexivity.
    + destruct (Str.split "/" s) as [|p ps] eqn:Es.
      * injection H as <- <-. exfalso.
        destruct s; simpl in Es; [discriminate|].
        destruct (Ascii.eqb _ _); [discriminate|].
        destruct (Str.split "/" s); discriminate.
      * injection H as <- <-.
        destruct (IH p ps eq_refl) as [Hmem Hrest].
        split.
        -- cbn [Str.mem]. rewrite Ascii.eqb_sym, E, Hmem. reflexivity.
        -- destruct Hrest as [[-> ->] | [rest [-> Hsplit]]].
           ++ left. split; reflexivity.
           ++ right. exists rest. split; [reflexivity | exact Hsplit].
Qed.

(** What the scan of the path parts returns is a ten-character part that
    follows a separator and ends at a separator or at the end of the
    path. *)
Lemma scan_dp_segment (parts : list string) (path next : string) :
  Str.split "/" path = parts ->
  scan_dp parts = Some next ->
  exists before after,
    path = before ++ "/" ++ next ++ after /\
    String.length next = 10%nat /\ Str.mem "/" next = false /\
    (after = "" \/ exists rest, after = String "/" rest).
Proof.
  revert path. induction parts as [|part following IH]; intros path Hsplit Hscan;
    [discriminate|].
  cbn [scan_dp] in Hscan.
  destruct following as [|nxt others]; [discriminate|].
  destruct (split_inv path part (nxt :: others) Hsplit) as [_ [[Hnil _] | [rest [-> Hrest]]]];
    [discriminate|].
  destruct (String.eqb part "dp" && Nat.eqb (String.length nxt) 10) eqn:E.
  - injection Hscan as <-. apply andb_true_iff in E as [_ E]. apply Nat.eqb_eq in E.
    destruct (split_inv rest nxt others Hrest) as [Hmem [[_ ->] | [rest' [-> _]]]].
    + exists part, "". split; [|split; [exact E | split; [exact Hmem | left; reflexivity]]].
      rewrite StrFacts.append_nil_r. reflexivity.
    + exists part, (String "/" rest').
      split; [|split; [exact E | split; [exact Hmem | right; exists rest'; reflexivity]]].
      reflexivity.
  - destruct (IH rest Hrest Hscan) as [b [a [-> Hrest']]].
    exists (part ++ String "/" b), a. split; [|exact Hrest'].
    rewrite !StrFacts.append_assoc. reflexivity.
Qed.

End UrlFacts.

(** X1. For a URL without a ten-character segment anywhere,
    [extract_asin] finds nothing: it returns [None], unless [urlparse]
    raises. *)
Theorem extract_asin_none_without_segment (W : World) (url : string) :
  (forall before seg after, ~ segment_at url before seg after) ->
  extract_asin W url =
    match urlparse W url with
    | Ok _ => Ok None
    | Raise e => Raise e
    end.
Proof.
  intros Hnone. unfold extract_asin.
  destruct (Re.search "/dp/" url) as [g|] eqn:E1.
  { apply (UrlFacts.search_segment "/dp/") in E1 as [b [a Hseg]]; [|right; reflexivity].
    exfalso. exact (Hnone b g a Hseg). }
  destruct (urlparse W url) as [parsed|e] eqn:Ep; [|reflexivity].
  destruct (scan_dp _) as [next|] eqn:E2.
  { exfalso.
    apply (UrlFacts.urlparse_path (ip_address W)) in Ep as [prefix [suffix [Hclean Hend]]].
    apply (UrlFacts.scan_dp_segment _ _ _ eq_refl) in E2
      as [b [a [Hpath [Hlen [Hmem Hafter]]]]].
    apply (Hnone (prefix ++ b) next (a ++ suffix)).
    split; [|split; [exact Hlen | split; [exact Hmem|]]].
    - rewrite Hclean, Hpath, !StrFacts.append_assoc. reflexivity.
    - destruct Hafter as [-> | [rest ->]].
      + destruct Hend as [-> | [c [rest [-> Hc]]]]; [left; reflexivity|].
        right. exists c, rest. split; [reflexivity|].
        cbn [Str.mem] in *. rewrite Hc. apply orb_true_r.
      + right. exists "/"%char, (rest ++ suffix). split; reflexivity. }
  destruct (Re.search "/" url) as [g|] eqn:E3; [|reflexivity].
  apply (UrlFacts.search_segment "/") in E3 as [b [a Hseg]]; [|left; reflexivity].
  exfalso. exact (Hnone b g a Hseg).
Qed.

Lemma take_part_append (seg after : string) :
  Str.mem "/" seg = false ->
  take_part (String.length seg) (seg ++ after) = Some after.
Proof.
  induction seg as [|c seg IH]; [reflexivity|].
  cbn [Str.mem]. intros H. apply orb_false_iff in H as [Hc Hrest].
  rewrite StrFacts.append_cons. cbn [String.length take_part].
  rewrite Ascii.eqb_sym, Hc. exact (IH Hrest).
Qed.

Lemma has_segment_complete (url before seg after : string) :
  segment_at url before seg after -> has_segment (UrlParse.remove_unsafe url) = true.
Proof.
  intros [-> [Hlen [Hmem Hafter]]].
  induction before as [|c before IH].
  - rewrite StrFacts.append_nil_l.
    change ("/" ++ seg ++ after) with (String "/" (seg ++ after)).
    cbn [has_segment segment_here]. rewrite Ascii.eqb_refl, <- Hlen.
    rewrite (take_part_append seg after Hmem).
    destruct Hafter as [-> | [d [rest [-> Hd]]]]; [reflexivity|].
    rewrite Hd. reflexivity.
  - rewrite StrFacts.append_cons. cbn [has_segment]. rewrite IH. apply orb_true_r.
Qed.

Lemma extract_asin_none_without_segment_witness :
  extract_asin Examples.bare "https://example.com/some/page" = Ok None.
Proof.
  apply (extract_asin_none_without_segment Examples.bare "https://example.com/some/page").
  intros before seg after H.
  apply has_segment_complete in H. vm_compute in H. discriminate H.
Defined.

(** ** The link builder *)

Module Occurrences.

Lemma mem_append (x : ascii) (s t : string) :
  Str.mem x (s ++ t) = Str.mem x s || Str.mem x t.
Proof.
  induction s as [|c s IH]; [reflexivity|].
  rewrite StrFacts.append_cons. simpl. rewrite IH. apply orb_assoc.
Qed.

(** Two ways of cutting one string. *)
Lemma append_eq_append (a b c d : string) :
  a ++ b = c ++ d ->
  exists m, (a = c ++ m /\ d = m ++ b) \/ (c = a ++ m /\ b = m ++ d).
Proof.
  revert c. induction a as [|x a IH]; intros c H.
  - exists c. right. split; [reflexivity | exact H].
  - destruct c as [|y c].
    + exists (String x a). left. split; [reflexivity | symmetry; exact H].
    + rewrite !StrFacts.append_cons in H. injection H as -> H.
      destruct (IH c H) as [m [[-> ->] | [-> ->]]]; exists m; [left | right];
        split; reflexivity.
Qed.

Lemma length_append_lt (a m : string) :
  a <> "" -> String.length m < String.length (a ++ m).
Proof.
  intros Ha. rewrite StrFacts.length_append.
  destruct a; [contradiction | simpl; lia].
Qed.

(** A string holding a character that [a] lacks does not start again
    inside [a]. *)
Lemma no_start_before (x : ascii) (a : string) :
  Str.mem x a = false -> a <> "" ->
  forall (n : nat) (s t r : string),
    String.length s <= n -> Str.mem x s = true -> s ++ r <> a ++ s ++ t.
Proof.
  intros Hxa Ha. induction n as [|n IH]; intros s t r Hn Hxs Heq.
  - destruct s; [discriminate | simpl in Hn; lia].
  - destruct (append_eq_append _ _ _ _ Heq) as [m [[Hs Hm] | [Hs _]]].
    + assert (Hxm : Str.mem x m = true).
      { rewrite Hs, mem_append, Hxa in Hxs. exact Hxs. }
      apply (IH m t r); [|exact Hxm|].
      * pose proof (length_append_lt a m Ha) as Hlt. rewrite <- Hs in Hlt. lia.
      * rewrite <- Hm, Hs. apply StrFacts.append_assoc.
    + rewrite Hs, mem_append, Hxs in Hxa. discriminate.
Qed.

(** A string holding a character that [b] lacks does not start again
    after its own start in itself followed by [b]. *)
Lemma no_start_after (x : ascii) (b : string) :
  Str.mem x b = false ->
  forall (n : nat) (s c r : string),
    String.length s <= n -> Str.mem x s = true -> c <> "" -> s ++ b <> c ++ s ++ r.
Proof.
  intros Hxb. induction n as [|n IH]; intros s c r Hn Hxs Hc Heq.
  - destruct s; [discriminate | simpl in Hn; lia].
  - destruct (append_eq_append _ _ _ _ Heq) as [m [[Hs Hm] | [_ Hb]]].
    + destruct (Str.mem x m) eqn:Hxm.
      * apply (IH m c r); [|exact Hxm|exact Hc|].
        -- pose proof (length_append_lt c m Hc) as Hlt. rewrite <- Hs in Hlt. lia.
        -- rewrite <- Hm, Hs. apply StrFacts.append_assoc.
      * assert (Hxc : Str.mem x c = true).
        { rewrite Hs, mem_append, Hxm, orb_false_r in Hxs. exact Hxs. }
        assert (Hx : Str.mem x (m ++ b) = true).
        { rewrite <- Hm, Hs, !mem_append, Hxc. reflexivity. }
        rewrite mem_append, Hxm, Hxb in Hx. discriminate.
    + rewrite Hb, !mem_append, Hxs, orb_true_r in Hxb. discriminate.
Qed.

Lemma occurrences_none (sub t : string) :
  (forall before after, t <> before ++ sub ++ after) -> Str.occurrences sub t = 0%nat.
Proof.
  induction t as [|c t IH]; intros H.
  - simpl. destruct (Str.strip_prefix sub "") as [r|] eqn:E; [|reflexivity].
    apply ReFacts.strip_prefix_inv in E. exfalso. apply (H "" r). exact E.
  - cbn [Str.occurrences].
    destruct (Str.strip_prefix sub (String c t)) as [r|] eqn:E.
    + apply ReFacts.strip_prefix_inv in E. exfalso. apply (H "" r). exact E.
    + rewrite IH; [reflexivity|].
      intros before after Heq. apply (H (String c before) after).
      rewrite StrFacts.append_cons, Heq. reflexivity.
Qed.

Lemma occurrences_skip (sub a t : string) :
  (forall a1 a2 r, a = a1 ++ a2 -> a2 <> "" -> sub ++ r <> a2 ++ t) ->
  Str.occurrences sub (a ++ t) = Str.occurrences sub t.
Proof.
  induction a as [|c a IH]; intros H; [reflexivity|].
  rewrite StrFacts.append_cons. cbn [Str.occurrences].
  destruct (Str.strip_prefix sub (String c (a ++ t))) as [r|] eqn:E.
  - apply ReFacts.strip_prefix_inv in E. exfalso.
    apply (H "" (String c a) r); [reflexivity | discriminate |].
    rewrite StrFacts.append_cons. symmetry. exact E.
  - rewrite IH; [reflexivity|].
    intros a1 a2 r Ha Hne. apply (H (String c a1) a2 r); [|exact Hne].
    rewrite StrFacts.append_cons, Ha. reflexivity.
Qed.

Lemma occurrences_at_least_once (sub a b : string) :
  1 <= Str.occurrences sub (a ++ sub ++ b).
Proof.
  induction a as [|c a IH].
  - rewrite StrFacts.append_nil_l.
    destruct (sub ++ b) as [|c t] eqn:E; cbn [Str.occurrences];
      rewrite <- E, ReFacts.strip_prefix_app; lia.
  - rewrite StrFacts.append_cons. cbn [Str.occurrences]. lia.
Qed.

(** A string with a character that occurs neither before nor after it
    occurs exactly once. *)
Lemma occurrences_once (x : ascii) (sub a b : string) :
  Str.mem x sub = true -> Str.mem x a = false -> Str.mem x b = false ->
  Str.occurrences sub (a ++ sub ++ b) = 1%nat.
Proof.
  intros Hs Ha Hb.
  rewrite occurrences_skip.
  - destruct sub as [|c sub]; [discriminate|].
    rewrite StrFacts.append_cons. cbn [Str.occurrences].
    rewrite <- StrFacts.append_cons, ReFacts.strip_prefix_app.
    rewrite occurrences_none; [reflexivity|].
    intros before after Heq.
    apply (no_start_after x b Hb (String.length (String c sub)) (String c sub)
             (String c before) after (le_n _) Hs); [discriminate|].
    rewrite !StrFacts.append_cons, Heq. reflexivity.
  - intros a1 a2 r Heq Hne Habs.
    assert (Ha2 : Str.mem x a2 = false).
    { rewrite Heq, mem_append in Ha. apply orb_false_iff in Ha as [_ Ha]. exact Ha. }
    exact (no_start_before x a2 Ha2 Hne (String.length sub) sub b r (le_n _) Hs Habs).
Qed.

End Occurrences.

(** C7, as stated, fails: with the affiliate tag [amazon] the output
    holds the tag twice, in the host name and after [tag=]. *)
Lemma associate_url_tag_twice_counterexample :
  create_associate_url Examples.bare (Some "B08N5WRWNW") (Some "amazon")
    = "https://www.amazon.com/dp/B08N5WRWNW/ref=nosim?tag=amazon" /\
  Str.occurrences "amazon"
    (create_associate_url Examples.bare (Some "B08N5WRWNW") (Some "amazon")) = 2%nat /\
  Str.occurrences "B08N5WRWNW"
    (create_associate_url Examples.bare (Some "B08N5WRWNW") (Some "B08N5WRWNW")) = 2%nat.
Proof. vm_compute. repeat split. Qed.

(** C7, amended.  For every identifier and every affiliate tag in force
    (the argument, else the environment's, else the placeholder), the
    output is the fixed address, the identifier, the fixed referral text
    and the tag, in this order; so it holds the identifier and the tag,
    each at least once.  It holds the identifier exactly once when the
    identifier has a character that occurs nowhere else in the output, and
    likewise the tag. *)
Theorem associate_url_contains_identifier_and_tag
    (W : World) (asin : string) (associate_id : option string) :
  let tag := tag_in_force W associate_id in
  let out := create_associate_url W (Some asin) associate_id in
  out = "https://www.amazon.com/dp/" ++ asin ++ "/ref=nosim?tag=" ++ tag /\
  1 <= Str.occurrences asin out /\
  1 <= Str.occurrences tag out /\
  (forall x, Str.mem x asin = true ->
             Str.mem x "https://www.amazon.com/dp/" = false ->
             Str.mem x ("/ref=nosim?tag=" ++ tag) = false ->
             Str.occurrences asin out = 1%nat) /\
  (forall x, Str.mem x tag = true ->
             Str.mem x ("https://www.amazon.com/dp/" ++ asin ++ "/ref=nosim?tag=") = false ->
             Str.occurrences tag out = 1%nat).
Proof.
  intros tag out.
  assert (Hout : out = "https://www.amazon.com/dp/" ++ asin ++ "/ref=nosim?tag=" ++ tag)
    by reflexivity.
  split; [exact Hout|]. rewrite Hout. split; [|split; [|split]].
  - apply Occurrences.occurrences_at_least_once.
  - pose proof (Occurrences.occurrences_at_least_once tag
                  ("https://www.amazon.com/dp/" ++ asin ++ "/ref=nosim?tag=") "") as H.
    rewrite StrFacts.append_nil_r, !StrFacts.append_assoc in H. exact H.
  - intros x Hx Ha Hb. exact (Occurrences.occurrences_once x asin _ _ Hx Ha Hb).
  - intros x Hx Ha.
    pose proof (Occurrences.occurrences_once x tag
                  ("https://www.amazon.com/dp/" ++ asin ++ "/ref=nosim?tag=") "" Hx Ha eq_refl)
      as H.
    rewrite StrFacts.append_nil_r, !StrFacts.append_assoc in H. exact H.
Qed.

Lemma associate_url_contains_identifier_and_tag_witness :
  create_associate_url Examples.bare (Some "B08N5WRWNW") None
    = "https://www.amazon.com/dp/B08N5WRWNW/ref=nosim?tag=yourtrackingid" /\
  Str.occurrences "B08N5WRWNW" (create_associate_url Examples.bare (Some "B08N5WRWNW") None)
    = 1%nat /\
  Str.occurrences "yourtrackingid" (create_associate_url Examples.bare (Some "B08N5WRWNW") None)
    = 1%nat.
Proof.
  destruct (associate_url_contains_identifier_and_tag Examples.bare "B08N5WRWNW" None)
    as [Hout [_ [_ [Hid Htag]]]].
  split; [exact Hout|]. split.
  - apply (Hid "B"%char); reflexivity.
  - apply (Htag "y"%char); reflexivity.
Defined.

(** ** The price fetcher *)

Lemma get_amazon_price_failure
    (W : World) (url : string) (tr : trace) (response : Response) :
  requests_get W tr url headers = Ok response ->
  status_code response <> 200%Z \/
  find_class (content response) "span" "a-offscreen" = None ->
  exists tr',
    get_amazon_price W url tr = (Ok (None, None), tr') /\
    requests tr' = (requests tr ++ [Get url headers])%list.
Proof.
  intros Hget Hfail.
  unfold get_amazon_price, bind, get. rewrite Hget.
  destruct (status_code response =? 200)%Z eqn:E; simpl.
  - destruct Hfail as [Hs | Hnone].
    + apply Z.eqb_eq in E. contradiction.
    + unfold try_except, bind. rewrite Hnone. simpl.
      unfold bind, print, emit, ret. simpl.
      eexists. split; [reflexivity|].
      rewrite !requests_app. simpl. rewrite app_nil_r. reflexivity.
  - unfold bind, print, emit, ret. simpl.
    eexists. split; [reflexivity|].
    rewrite !requests_app. simpl. rewrite app_nil_r. reflexivity.
Qed.

(** C4. When the request is answered and the status is not in the success
    range, or the page has no item-price element, [get_amazon_price]
    returns [(None, None)] and does not raise; it has made the one
    request. *)
Theorem fetch_failure_gives_absent
    (W : World) (url : string) (tr : trace) (response : Response) :
  requests_get W tr url headers = Ok response ->
  success_status (status_code response) = false \/
  find_class (content response) "span" "a-offscreen" = None ->
  exists tr',
    get_amazon_price W url tr = (Ok (None, None), tr') /\
    requests tr' = (requests tr ++ [Get url headers])%list.
Proof.
  intros Hget [Hstatus | Hnone]; apply (get_amazon_price_failure W url tr response Hget).
  - left. intros E. rewrite E in Hstatus. discriminate.
  - right. exact Hnone.
Qed.

Lemma fetch_failure_gives_absent_witness :
  exists tr',
    get_amazon_price (Examples.configured (Examples.reply 503) 200)
      "https://www.amazon.com/dp/B08N5WRWNW/ref=nosim?tag=yourtrackingid" [] =
      (Ok (None, None), tr') /\
    requests tr' =
      (requests [] ++
       [Get "https://www.amazon.com/dp/B08N5WRWNW/ref=nosim?tag=yourtrackingid" headers])%list.
Proof.
  apply (fetch_failure_gives_absent _ _ [] {| status_code := 503; content := [] |}).
  - reflexivity.
  - left. reflexivity.
Defined.

Section Fetch.

Variable W : World.

(** The price fetcher makes exactly one request, a GET of its argument,
    and hands nothing to the notifier. *)
Lemma get_amazon_price_trace (url : string) (tr : trace) :
  exists added,
    snd (get_amazon_price W url tr) = (tr ++ added)%list /\
    fetched added = [url] /\ notifications added = [] /\
    requests added = [Get url headers].
Proof.
  unfold get_amazon_price, bind, get.
  destruct (requests_get W tr url headers) as [response | e]; simpl.
  - destruct (negb _); simpl.
    + unfold bind, print, emit, ret. simpl.
      eexists. split; [rewrite <- app_assoc; reflexivity|]. repeat split.
    + unfold try_except, bind, getText.
      destruct (find_class _ _ _); simpl.
      * eexists. split; [reflexivity|]. repeat split.
      * unfold bind, print, emit, ret. simpl.
        eexists. split; [rewrite <- app_assoc; reflexivity|]. repeat split.
  - eexists. split; [reflexivity|]. repeat split.
Qed.

End Fetch.

(** X4. Every call of [get_amazon_price] makes exactly one outbound
    request, the GET of its argument with the browser-like headers,
    whatever the answer. *)
Theorem fetch_makes_one_request (W : World) (url : string) (tr : trace) :
  exists added,
    snd (get_amazon_price W url tr) = (tr ++ added)%list /\
    requests added = [Get url headers].
Proof.
  destruct (get_amazon_price_trace W url tr) as [added [Htr [_ [_ Hreq]]]].
  exists added. split; assumption.
Qed.

(** ** The notifier *)

Section Notifier.

Variable W : World.

Lemma send_without_credentials message bot_token chat_id tr :
  truthy (token_in_force W bot_token) && truthy (chat_in_force W chat_id) = false ->
  send_telegram_message W message bot_token chat_id tr =
    (Ok false,
     (tr ++ [Notify message;
             Print "Error: Telegram credentials not found in environment variables"])%list).
Proof.
  intros H. unfold send_telegram_message, bind, emit, print, ret.
  fold (token_in_force W bot_token). fold (chat_in_force W chat_id).
  apply andb_false_iff in H.
  assert (G : negb (truthy (token_in_force W bot_token))
              || negb (truthy (chat_in_force W chat_id)) = true).
  { destruct H as [-> | ->]; simpl; [reflexivity | apply orb_true_r]. }
  rewrite G. unfold bind, emit. simpl. rewrite <- app_assoc. reflexivity.
Qed.

Lemma send_with_credentials message bot_token chat_id tr :
  truthy (token_in_force W bot_token) = true ->
  truthy (chat_in_force W chat_id) = true ->
  let url := telegram_url (token_in_force W bot_token) in
  let data := telegram_data (chat_in_force W chat_id) message in
  let asked := (tr ++ [Notify message])%list in
  send_telegram_message W message bot_token chat_id tr =
    match requests_post W asked url data with
    | Ok response =>
        (Ok (status_code response =? 200)%Z, (asked ++ [Post url data])%list)
    | Raise e =>
        (Ok false,
         (asked ++ [Post url data; Print ("Error sending Telegram message: " ++ exn_msg e)])%list)
    end.
Proof.
  intros Ht Hc. unfold send_telegram_message, bind, emit.
  fold (token_in_force W bot_token). fold (chat_in_force W chat_id).
  rewrite Ht, Hc. simpl.
  unfold try_except, bind, post, telegram_url, telegram_data.
  destruct (requests_post W _ _ _) as [response | e]; simpl.
  - reflexivity.
  - unfold bind, print, emit, ret. simpl. rewrite <- app_assoc. reflexivity.
Qed.

(** The notifier returns, whatever the outside answers, and records one
    notification. *)
Lemma send_returns message bot_token chat_id tr :
  exists sent tr',
    send_telegram_message W message bot_token chat_id tr = (Ok sent, tr') /\
    notifications tr' = (notifications tr ++ [message])%list.
Proof.
  destruct (truthy (token_in_force W bot_token) && truthy (chat_in_force W chat_id)) eqn:E.
  - apply andb_true_iff in E as [Ht Hc].
    rewrite (send_with_credentials message bot_token chat_id tr Ht Hc).
    destruct (requests_post W _ _ _) as [response | e]; eexists _, _; split;
      try reflexivity; rewrite !notifications_app; simpl; rewrite ?app_nil_r; reflexivity.
  - rewrite (send_without_credentials message bot_token chat_id tr E).
    eexists _, _; split; [reflexivity|].
    rewrite notifications_app. reflexivity.
Qed.

End Notifier.

(** C5. If the bot token or the chat id is absent, being neither passed as
    an argument nor set in the environment, [send_telegram_message] returns
    [False] and the trace gains no outbound request: only the ghost
    notification mark and the printed error. *)
Theorem notify_without_credentials_makes_no_request
    (W : World) (message : string) (bot_token chat_id : option string) (tr : trace) :
  (bot_token = None /\ getenv W "TELEGRAM_BOT_TOKEN" = None) \/
  (chat_id = None /\ getenv W "TELEGRAM_CHAT_ID" = None) ->
  exists tr',
    send_telegram_message W message bot_token chat_id tr = (Ok false, tr') /\
    requests tr' = requests tr.
Proof.
  intros H.
  assert (E : truthy (token_in_force W bot_token) && truthy (chat_in_force W chat_id) = false).
  { apply andb_false_iff.
    destruct H as [[-> Henv] | [-> Henv]]; [left | right]; simpl; rewrite Henv; reflexivity. }
  eexists. split.
  - apply send_without_credentials, E.
  - rewrite requests_app. simpl. apply app_nil_r.
Qed.

Lemma notify_without_credentials_witness :
  exists tr',
    send_telegram_message Examples.bare "hello" None (Some "42") [] = (Ok false, tr') /\
    requests tr' = requests [].
Proof.
  apply notify_without_credentials_makes_no_request.
  left. split; reflexivity.
Defined.

(** C6, as stated, fails.  With both credentials in the environment and a
    reply of status 204, which is in the success range, one request is
    made and [send_telegram_message] returns [False].  And with a token
    that is present but empty, no request is made at all. *)
Lemma notify_success_range_counterexample :
  success_status 204 = true /\
  fst (send_telegram_message (Examples.configured (Examples.reply 200) 204)
         "hello" None None []) = Ok false /\
  length (requests (snd (send_telegram_message (Examples.configured (Examples.reply 200) 204)
                           "hello" None None []))) = 1%nat /\
  requests (snd (send_telegram_message (Examples.configured (Examples.reply 200) 200)
                   "hello" (Some "") (Some "42") [])) = [].
Proof. vm_compute. repeat split. Qed.

(** C6, amended.  With both credentials in force and non-empty,
    [send_telegram_message] makes exactly one outbound request, the POST
    to the bot's [sendMessage] address, and returns: [True] exactly when
    that request is answered with status 200, [False] when it is answered
    with another status or raises. *)
Theorem notify_with_credentials
    (W : World) (message : string) (bot_token chat_id : option string) (tr : trace) :
  truthy (token_in_force W bot_token) = true ->
  truthy (chat_in_force W chat_id) = true ->
  let url := telegram_url (token_in_force W bot_token) in
  let data := telegram_data (chat_in_force W chat_id) message in
  exists sent tr',
    send_telegram_message W message bot_token chat_id tr = (Ok sent, tr') /\
    requests tr' = (requests tr ++ [Post url data])%list /\
    (sent = true <->
     exists response,
       requests_post W (tr ++ [Notify message])%list url data = Ok response /\
       status_code response = 200%Z).
Proof.
  intros Ht Hc url data.
  rewrite (send_with_credentials W message bot_token chat_id tr Ht Hc).
  fold url data.
  destruct (requests_post W _ url data) as [response | e].
  - eexists _, _. split; [reflexivity|]. split.
    + rewrite !requests_app. simpl. rewrite app_nil_r. reflexivity.
    + split.
      * intros H. exists response. split; [reflexivity|]. apply Z.eqb_eq, H.
      * intros [r [Hr Hs]]. injection Hr as <-. apply Z.eqb_eq, Hs.
  - eexists _, _. split; [reflexivity|]. split.
    + rewrite !requests_app. simpl. rewrite app_nil_r. reflexivity.
    + split; [discriminate|]. intros [r [Hr _]]. discriminate.
Qed.

Lemma notify_with_credentials_witness :
  exists sent tr',
    send_telegram_message (Examples.configured (Examples.reply 200) 200)
      "hello" None None [] = (Ok sent, tr') /\
    requests tr' =
      (requests [] ++ [Post "https://api.telegram.org/bot123:abc/sendMessage"
                            [("chat_id", "42"); ("text", "hello"); ("parse_mode", "HTML")]])%list /\
    (sent = true <->
     exists response,
       requests_post (Examples.configured (Examples.reply 200) 200) ([] ++ [Notify "hello"])%list
         "https://api.telegram.org/bot123:abc/sendMessage"
         [("chat_id", "42"); ("text", "hello"); ("parse_mode", "HTML")] = Ok response /\
       status_code response = 200%Z).
Proof.
  apply (notify_with_credentials (Examples.configured (Examples.reply 200) 200)
           "hello" None None []); reflexivity.
Defined.

(** ** The product store *)

(** C8, as stated, fails: a file whose bytes are not UTF-8 text is
    malformed, reading it raises [UnicodeDecodeError], which neither
    handler catches, and [load_products] raises it. *)
Lemma load_products_not_utf8_counterexample :
  open_read (Examples.unreadable Examples.not_utf8) [] "products.json"
    = Raise Examples.not_utf8 /\
  load_products (Examples.unreadable Examples.not_utf8) "products.json" []
    = (Raise Examples.not_utf8, [Open "products.json"]).
Proof. vm_compute. split; reflexivity. Qed.

(** C8, amended.  When the file is missing ([open] raises
    [FileNotFoundError]) or its text is not valid JSON ([json.load]
    raises [JSONDecodeError]), [load_products] returns the empty list and
    does not raise. *)
Theorem load_products_missing_or_invalid (W : World) (filename : string) (tr : trace) :
  (exists e, open_read W tr filename = Raise e /\ exn_cls e = FileNotFoundError) \/
  (exists text e, open_read W tr filename = Ok text /\
                  json_loads W text = Raise e /\ exn_cls e = JSONDecodeError) ->
  exists tr', load_products W filename tr = (Ok (JArray []), tr').
Proof.
  intros [[e [Hopen Hcls]] | [text [e [Hopen [Hjson Hcls]]]]];
    unfold load_products, try_except, bind, read_file, lift; rewrite Hopen; simpl.
  - unfold is_class. rewrite Hcls. simpl. unfold bind, print, emit, ret. simpl.
    eexists. reflexivity.
  - rewrite Hjson. simpl. unfold is_class. rewrite Hcls. simpl.
    unfold bind, print, emit, ret. simpl. eexists. reflexivity.
Qed.

Lemma load_products_missing_or_invalid_witness :
  exists tr',
    load_products Examples.bare "products.json" [] = (Ok (JArray []), tr').
Proof.
  apply load_products_missing_or_invalid.
  left. eexists. split; reflexivity.
Defined.

(** ** Every computation of the program only adds to the trace *)

Section Growth.

Variable W : World.

(** What is added lies in [P], for any [P] that holds of the events other
    than sleeps. *)
Variable P : Event -> Prop.
Hypothesis awake_in_P : forall e, awake e -> P e.

Lemma adds_nothing {A : Type} (m : M A) :
  (forall tr, snd (m tr) = tr) -> adds P m.
Proof.
  intros H tr. exists []. rewrite H. split; [symmetry; apply app_nil_r | constructor].
Qed.

Lemma adds_ret {A : Type} (a : A) : adds P (ret a).
Proof. apply adds_nothing. reflexivity. Qed.

Lemma adds_lift {A : Type} (r : result A) : adds P (lift r).
Proof. apply adds_nothing. reflexivity. Qed.

Lemma adds_emit (e : Event) : awake e -> adds P (emit e).
Proof.
  intros He tr. exists [e]. split; [reflexivity|].
  constructor; [apply awake_in_P, He | constructor].
Qed.

Lemma adds_bind {A B : Type} (m : M A) (k : A -> M B) :
  adds P m -> (forall a, adds P (k a)) -> adds P (bind m k).
Proof.
  intros Hm Hk tr. unfold bind.
  destruct (Hm tr) as [added1 [H1 P1]].
  destruct (m tr) as [[a | e] tr1]; simpl in H1; subst tr1.
  - destruct (Hk a (tr ++ added1)%list) as [added2 [H2 P2]].
    exists (added1 ++ added2)%list. rewrite H2.
    split; [symmetry; apply app_assoc | apply Forall_app; split; assumption].
  - exists added1. split; [reflexivity | exact P1].
Qed.

Lemma adds_handle {A : Type} (clauses : list ((exn -> bool) * (exn -> M A))) (e : exn) :
  Forall (fun clause => forall e', adds P (snd clause e')) clauses ->
  adds P (handle clauses e).
Proof.
  induction 1 as [|[caught handler] others Hc _ IH]; simpl.
  - apply adds_nothing. reflexivity.
  - destruct (caught e); [apply Hc | apply IH].
Qed.

Lemma adds_try {A : Type} (m : M A) (clauses : list ((exn -> bool) * (exn -> M A))) :
  adds P m ->
  Forall (fun clause => forall e', adds P (snd clause e')) clauses ->
  adds P (try_except m clauses).
Proof.
  intros Hm Hc tr. unfold try_except.
  destruct (Hm tr) as [added1 [H1 P1]].
  destruct (m tr) as [[a | e] tr1]; simpl in H1; subst tr1.
  - exists added1. split; [reflexivity | exact P1].
  - destruct (adds_handle clauses e Hc (tr ++ added1)%list) as [added2 [H2 P2]].
    exists (added1 ++ added2)%list. rewrite H2.
    split; [symmetry; apply app_assoc | apply Forall_app; split; assumption].
Qed.

Lemma adds_for_each {A : Type} (xs : list A) (body : A -> M unit) :
  (forall x, adds P (body x)) -> adds P (for_each xs body).
Proof.
  intros Hb. induction xs as [|x xs IH]; simpl.
  - apply adds_ret.
  - apply adds_bind; [apply Hb | intros _; exact IH].
Qed.

Lemma adds_get (url : string) (hdrs : list (string * string)) : adds P (get W url hdrs).
Proof.
  intros tr. exists [Get url hdrs]. split; [reflexivity|].
  constructor; [apply awake_in_P; exact I | constructor].
Qed.

Lemma adds_post (url : string) (data : list (string * string)) : adds P (post W url data).
Proof.
  intros tr. exists [Post url data]. split; [reflexivity|].
  constructor; [apply awake_in_P; exact I | constructor].
Qed.

Lemma adds_print (line : string) : adds P (print line).
Proof. apply adds_emit. exact I. Qed.

Lemma adds_get_amazon_price (url : string) : adds P (get_amazon_price W url).
Proof.
  unfold get_amazon_price. apply adds_bind; [apply adds_get|].
  intros response. destruct (negb _).
  - apply adds_bind; [apply adds_print | intros _; apply adds_ret].
  - apply adds_try.
    + apply adds_bind; [|intros a; apply adds_ret].
      unfold getText. destruct (find_class _ _ _); [apply adds_ret | apply adds_lift].
    + repeat constructor. intros e'. simpl.
      apply adds_bind; [apply adds_print | intros _; apply adds_ret].
Qed.

Lemma adds_send (message : string) (bot_token chat_id : option string) :
  adds P (send_telegram_message W message bot_token chat_id).
Proof.
  unfold send_telegram_message.
  apply adds_bind; [apply adds_emit; exact I|]. intros _.
  destruct (_ || _).
  - apply adds_bind; [apply adds_print | intros _; apply adds_ret].
  - apply adds_try.
    + apply adds_bind; [apply adds_post | intros a; apply adds_ret].
    + repeat constructor. intros e'. simpl.
      apply adds_bind; [apply adds_print | intros _; apply adds_ret].
Qed.

Lemma adds_check_product (associate_id bot_token chat_id : option string) (product : Product) :
  adds P (check_product W associate_id bot_token chat_id product).
Proof.
  unfold check_product.
  destruct (product !! "url") as [url|]; [|apply adds_ret].
  destruct (String.eqb url ""); [apply adds_ret|].
  apply adds_bind; [apply adds_lift|]. intros asin.
  destruct (negb (truthy asin)); [apply adds_print|].
  apply adds_bind; [apply adds_get_amazon_price|]. intros [item_price delivery_price].
  destruct (negb (truthy item_price)); [apply adds_print|].
  destruct (free_shipping delivery_price); [|apply adds_print].
  apply adds_bind; [apply adds_send|]. intros sent.
  destruct sent; apply adds_print.
Qed.

Lemma adds_products (products : list Product) (associate_id bot_token chat_id : option string) :
  adds P (for_each products (check_product W associate_id bot_token chat_id)).
Proof. apply adds_for_each. intros product. apply adds_check_product. Qed.

End Growth.


Lemma times_notified_app (message : string) (a b : trace) :
  times_notified message (a ++ b)%list =
  (times_notified message a + times_notified message b)%nat.
Proof.
  unfold times_notified. rewrite notifications_app. apply count_occ_app.
Qed.

Lemma adds_times_notified {A : Type} (P : Event -> Prop) (m : M A)
    (message : string) (tr : trace) :
  adds P m -> times_notified message tr <= times_notified message (snd (m tr)).
Proof.
  intros H. destruct (H tr) as [added [-> _]].
  rewrite times_notified_app. lia.
Qed.

Lemma slept_app (a b : trace) : slept (a ++ b)%list = (slept a ++ slept b)%list.
Proof.
  induction a as [|e a IH]; simpl; [reflexivity|].
  destruct e; simpl; rewrite IH; reflexivity.
Qed.

Lemma slept_awake (added : trace) : Forall awake added -> slept added = [].
Proof.
  induction 1 as [|e added He _ IH]; [reflexivity|].
  destruct e; simpl; try exact IH. destruct He.
Qed.

(** ** The monitor loop *)

(** [lower] maps a character to [f], [r] or [e] exactly when the
    character is that letter in either case. *)
Lemma lower_char_free (c t : ascii) :
  t = "f"%char \/ t = "r"%char \/ t = "e"%char ->
  Ascii.eqb (Str.lower_char c) t = char_eq_ci c t.
Proof.
  intros [-> | [-> | ->]];
    destruct c as [[] [] [] [] [] [] [] []]; vm_compute; reflexivity.
Qed.

(** The test of the loop, [delivery_price.lower() == "free"] on a
    non-empty delivery price, is case-insensitive equality with [free]. *)
Lemma free_shipping_is_eq_ci (delivery_price : option string) :
  free_shipping delivery_price = delivery_is_free delivery_price.
Proof.
  destruct delivery_price as [d|]; [|reflexivity].
  unfold free_shipping, delivery_is_free, truthy.
  destruct d as [|c1 d]; [reflexivity|].
  change (negb (String.eqb (String c1 d) "")) with true. rewrite andb_true_l.
  destruct d as [|c2 [|c3 [|c4 [|c5 d]]]]; simpl;
    rewrite ?(lower_char_free c1 "f"), ?(lower_char_free c2 "r"),
            ?(lower_char_free c3 "e"), ?(lower_char_free c4 "e") by auto;
    repeat match goal with
           | |- context [char_eq_ci ?c ?t] => destruct (char_eq_ci c t); simpl
           end; reflexivity.
Qed.

Lemma for_each_app {A : Type} (xs ys : list A) (body : A -> M unit) (tr : trace) :
  for_each (xs ++ ys)%list body tr = bind (for_each xs body) (fun _ => for_each ys body) tr.
Proof.
  revert tr. induction xs as [|x xs IH]; intros tr; simpl.
  - reflexivity.
  - unfold bind. destruct (body x tr) as [[[] | e] tr1]; [|reflexivity].
    rewrite IH. reflexivity.
Qed.

(** A sleep that returns has been recorded; a refused one leaves no
    trace. *)
Lemma sleep_ok (W : World) (seconds : Z) (tr tr' : trace) :
  sleep W seconds tr = (Ok tt, tr') -> tr' = (tr ++ [Sleep seconds])%list.
Proof.
  unfold sleep, lift. destruct (_ || _); [discriminate|].
  destruct (_ <? _)%Z; [discriminate|].
  intros H. injection H as _ <-. reflexivity.
Qed.

Lemma sleep_trace (W : World) (seconds : Z) (tr : trace) :
  snd (sleep W seconds tr) = tr \/ snd (sleep W seconds tr) = (tr ++ [Sleep seconds])%list.
Proof.
  unfold sleep, lift. destruct (_ || _); [left; reflexivity|].
  destruct (_ <? _)%Z; [left; reflexivity | right; reflexivity].
Qed.

Lemma adds_sleep (P : Event -> Prop) (W : World) (seconds : Z) :
  P (Sleep seconds) -> adds P (sleep W seconds).
Proof.
  intros HP tr. destruct (sleep_trace W seconds tr) as [-> | ->].
  - exists []. split; [symmetry; apply app_nil_r | constructor].
  - exists [Sleep seconds]. split; [reflexivity | constructor; [exact HP | constructor]].
Qed.

Lemma sleep_accepted (W : World) (sleep_minutes : Z) (tr : trace) :
  sleep_returns W sleep_minutes ->
  sleep W (sleep_minutes * 60) tr = (Ok tt, (tr ++ [Sleep (sleep_minutes * 60)])%list).
Proof.
  intros [[Hlo Hhi] Hos]. unfold sleep.
  replace (sleep_minutes * 60 <? -9223372036)%Z with false by (symmetry; apply Z.ltb_ge; lia).
  replace (9223372036 <? sleep_minutes * 60)%Z with false by (symmetry; apply Z.ltb_ge; lia).
  replace (sleep_minutes * 60 <? 0)%Z with false by (symmetry; apply Z.ltb_ge; lia).
  cbn [orb]. rewrite Hos. reflexivity.
Qed.

Section Monitor.

Variable W : World.
Variables associate_id bot_token chat_id : option string.

Lemma check_product_skips (product : Product) (tr : trace) :
  product !! "url" = None \/ product !! "url" = Some "" ->
  check_product W associate_id bot_token chat_id product tr = (Ok tt, tr).
Proof.
  intros [H | H]; unfold check_product; rewrite H; reflexivity.
Qed.

Lemma for_each_skips (before after : list Product) (product : Product) (tr : trace) :
  product !! "url" = None \/ product !! "url" = Some "" ->
  for_each (before ++ product :: after)%list
    (check_product W associate_id bot_token chat_id) tr =
  for_each (before ++ after)%list (check_product W associate_id bot_token chat_id) tr.
Proof.
  intros H. rewrite !for_each_app. unfold bind.
  destruct (for_each before _ tr) as [[[] | e] tr1]; [|reflexivity].
  simpl. unfold bind. rewrite (check_product_skips product tr1 H). reflexivity.
Qed.

Lemma cycle_skips (before after : list Product) (product : Product)
    (sleep_minutes : Z) (tr : trace) :
  product !! "url" = None \/ product !! "url" = Some "" ->
  cycle W (before ++ product :: after)%list associate_id bot_token chat_id sleep_minutes tr =
  cycle W (before ++ after)%list associate_id bot_token chat_id sleep_minutes tr.
Proof.
  intros H. unfold cycle, bind, print, emit. simpl.
  rewrite (for_each_skips before after product _ H). reflexivity.
Qed.

End Monitor.

(** C10. A product whose [url] is missing or empty is passed over without
    any event (no extraction, no request, no notification, no output), in
    every turn of the loop, and the loop behaves as if the product were
    not in the list. *)
Theorem product_without_url_is_skipped
    (W : World) (associate_id bot_token chat_id : option string) (product : Product) :
  product !! "url" = None \/ product !! "url" = Some "" ->
  (forall tr, check_product W associate_id bot_token chat_id product tr = (Ok tt, tr)) /\
  (forall (cycles : nat) (before after : list Product) (sleep_minutes : Z) (tr : trace),
     monitor_products W cycles (before ++ product :: after)%list
       associate_id bot_token chat_id sleep_minutes tr =
     monitor_products W cycles (before ++ after)%list
       associate_id bot_token chat_id sleep_minutes tr).
Proof.
  intros H. split.
  - intros tr. apply check_product_skips, H.
  - intros cycles before after sleep_minutes.
    induction cycles as [|n IH]; intros tr; simpl; [reflexivity|].
    unfold bind.
    rewrite (cycle_skips W associate_id bot_token chat_id before after product
               sleep_minutes tr H).
    destruct (cycle W _ _ _ _ _ tr) as [[[] | e] tr1]; [apply IH | reflexivity].
Qed.

Lemma product_without_url_is_skipped_witness :
  (forall tr, check_product Examples.bare None None None {[ "name" := "No link" ]} tr
              = (Ok tt, tr)) /\
  (forall (cycles : nat) (before after : list Product) (sleep_minutes : Z) (tr : trace),
     monitor_products Examples.bare cycles (before ++ {[ "name" := "No link" ]} :: after)%list
       None None None sleep_minutes tr =
     monitor_products Examples.bare cycles (before ++ after)%list
       None None None sleep_minutes tr).
Proof.
  apply product_without_url_is_skipped.
  left. reflexivity.
Defined.

Section FreeShipping.

Variable W : World.
Variables associate_id bot_token chat_id : option string.
Variable product : Product.
Variables url asin item_price : string.
Variable delivery_price : option string.

Hypothesis Hurl : product !! "url" = Some url.
Hypothesis Hurl_nonempty : url <> "".
Hypothesis Hasin : extract_asin W url = Ok (Some asin).
Hypothesis Hprice_nonempty : item_price <> "".

Let name : string := default "Unknown Product" (product !! "name").
Let associate_url : string := create_associate_url W (Some asin) associate_id.
Let message : string := notification_message name item_price associate_url.

(** One pass of the loop body over the product, from any trace at which
    the fetch yields the reading. *)
Lemma check_product_notifies (tr : trace) :
  fst (get_amazon_price W associate_url tr) = Ok (Some item_price, delivery_price) ->
  exists tr',
    check_product W associate_id bot_token chat_id product tr = (Ok tt, tr') /\
    notifications tr' =
      (notifications tr ++ if delivery_is_free delivery_price then [message] else [])%list.
Proof.
  intros Hfetch. unfold check_product. rewrite Hurl.
  destruct (String.eqb url "") eqn:E; [apply String.eqb_eq in E; contradiction|].
  unfold bind at 1. unfold lift. rewrite Hasin.
  rewrite (extract_asin_truthy W url asin Hasin). cbn [negb]. cbv beta iota.
  fold associate_url. unfold bind at 1.
  destruct (get_amazon_price_trace W associate_url tr) as [added [Htr [_ [Hquiet _]]]].
  destruct (get_amazon_price W associate_url tr) as [r tr1]. simpl in Hfetch, Htr. subst r tr1.
  assert (Ht : truthy (Some item_price) = true).
  { destruct item_price; [contradiction | reflexivity]. }
  rewrite Ht. cbn [negb]. cbv beta iota.
  rewrite free_shipping_is_eq_ci.
  destruct (delivery_is_free delivery_price).
  - fold name. cbn [format]. fold message. unfold bind.
    destruct (send_returns W message bot_token chat_id (tr ++ added)%list)
      as [sent [tr2 [Hsend Hnote]]].
    rewrite Hsend.
    exists (tr2 ++ [Print (if sent then "Notification sent for " ++ name
                          else "Failed to send notification for " ++ name)])%list.
    split.
    + destruct sent; reflexivity.
    + rewrite notifications_app, Hnote, notifications_app, Hquiet. simpl.
      rewrite !app_nil_r. reflexivity.
  - eexists. split; [reflexivity|].
    rewrite !notifications_app, Hquiet. simpl. rewrite !app_nil_r. reflexivity.
Qed.

Hypothesis Hfree : delivery_is_free delivery_price = true.
Hypothesis Halways :
  forall tr, fst (get_amazon_price W associate_url tr) = Ok (Some item_price, delivery_price).

Lemma for_each_notifies (products : list Product) (tr tr' : trace) :
  In product products ->
  for_each products (check_product W associate_id bot_token chat_id) tr = (Ok tt, tr') ->
  times_notified message tr + 1 <= times_notified message tr'.
Proof.
  revert tr. induction products as [|p products IH]; intros tr Hin Hrun; [destruct Hin|].
  cbn [for_each] in Hrun. unfold bind in Hrun.
  destruct (check_product W associate_id bot_token chat_id p tr) as [[[] | e] tr1] eqn:Hp;
    [|discriminate].
  destruct Hin as [-> | Hin].
  - destruct (check_product_notifies tr (Halways tr)) as [tr2 [Hrun2 Hnote]].
    rewrite Hrun2 in Hp. injection Hp as <-.
    rewrite Hfree in Hnote.
    pose proof (adds_times_notified awake
                  (for_each products (check_product W associate_id bot_token chat_id))
                  message tr2
                  (adds_products W awake (fun e He => He) products
                     associate_id bot_token chat_id)) as Hmono.
    rewrite Hrun in Hmono. cbn [snd] in Hmono.
    unfold times_notified in *.
    rewrite Hnote, count_occ_app, (count_occ_cons_eq string_dec [] eq_refl) in Hmono.
    lia.
  - pose proof (adds_times_notified awake
                  (check_product W associate_id bot_token chat_id p) message tr
                  (adds_check_product W awake (fun e He => He)
                     associate_id bot_token chat_id p)) as Hmono.
    rewrite Hp in Hmono. cbn [snd] in Hmono.
    specialize (IH tr1 Hin Hrun). lia.
Qed.

Lemma times_notified_quiet (msg : string) (tr : trace) (e : Event) :
  (forall m, e <> Notify m) ->
  times_notified msg (tr ++ [e])%list = times_notified msg tr.
Proof.
  intros H. rewrite times_notified_app.
  destruct e; try (unfold times_notified; simpl; lia).
  exfalso. apply (H message0). reflexivity.
Qed.

Lemma cycle_notifies (products : list Product) (sleep_minutes : Z) (tr tr' : trace) :
  In product products ->
  cycle W products associate_id bot_token chat_id sleep_minutes tr = (Ok tt, tr') ->
  times_notified message tr + 1 <= times_notified message tr'.
Proof.
  intros Hin. unfold cycle, bind, print, emit.
  destruct (for_each products _ _) as [[[] | e] tr1] eqn:Hrun; [|discriminate].
  destruct (sleep W _ _) as [[[] | e] tr2] eqn:Hsleep; [|discriminate].
  apply sleep_ok in Hsleep. subst tr2.
  intros H. injection H as <-.
  apply (for_each_notifies products _ _ Hin) in Hrun.
  rewrite !times_notified_quiet in * by discriminate.
  exact Hrun.
Qed.

Lemma monitor_notifies (products : list Product) (sleep_minutes : Z) (cycles : nat)
    (tr tr' : trace) :
  In product products ->
  monitor_products W cycles products associate_id bot_token chat_id sleep_minutes tr
    = (Ok tt, tr') ->
  times_notified message tr + cycles <= times_notified message tr'.
Proof.
  intros Hin. revert tr. induction cycles as [|n IH]; intros tr; cbn [monitor_products].
  - unfold ret. intros H. injection H as <-. lia.
  - unfold bind.
    destruct (cycle W products associate_id bot_token chat_id sleep_minutes tr)
      as [[[] | e] tr1] eqn:Hc; [|discriminate].
    intros Hrest. apply (cycle_notifies products _ _ _ Hin) in Hc.
    apply IH in Hrest. lia.
Qed.

End FreeShipping.

(** C1, as stated, fails: the page of the product has an item-price
    element with empty text and a delivery price [Free]; the item price is
    present and the delivery price equals [free] up to case, yet the loop
    body hands nothing to the notifier. *)
Lemma free_shipping_empty_price_counterexample :
  fst (get_amazon_price (Examples.configured (Ok (Examples.page "" (Some "Free"))) 200)
         "https://www.amazon.com/dp/B08N5WRWNW/ref=nosim?tag=yourtrackingid" [])
    = Ok (Some "", Some "Free") /\
  delivery_is_free (Some "Free") = true /\
  check_product (Examples.configured (Ok (Examples.page "" (Some "Free"))) 200)
    None None None Examples.kettle []
    = (Ok tt,
       [Get "https://www.amazon.com/dp/B08N5WRWNW/ref=nosim?tag=yourtrackingid" headers;
        Print "Error: Could not get price for Kettle"]).
Proof. vm_compute. repeat split. Qed.

(** C1, amended.  Take a product with a non-empty [url] from which an
    identifier is extracted, and a fetched item price that is present and
    non-empty.  (1) From any trace at which the fetch yields that reading,
    the loop body returns and hands the notifier exactly one message, the
    product's, when the delivery price is present and equals [free] up to
    case, and none otherwise.  (2) No memory of earlier notifications
    exists: if the fetch yields a free-shipping reading at all times, then
    after any number of completed turns of the loop over a store holding
    the product, the notifier has been handed the product's message at
    least once per turn. *)
Theorem free_shipping_notified_every_cycle
    (W : World) (associate_id bot_token chat_id : option string) (product : Product)
    (url asin item_price : string) (delivery_price : option string) :
  product !! "url" = Some url ->
  url <> "" ->
  extract_asin W url = Ok (Some asin) ->
  item_price <> "" ->
  let name := default "Unknown Product" (product !! "name") in
  let associate_url := create_associate_url W (Some asin) associate_id in
  let message := notification_message name item_price associate_url in
  (forall tr,
     fst (get_amazon_price W associate_url tr) = Ok (Some item_price, delivery_price) ->
     exists tr',
       check_product W associate_id bot_token chat_id product tr = (Ok tt, tr') /\
       notifications tr' =
         (notifications tr ++ if delivery_is_free delivery_price then [message] else [])%list)
  /\
  (delivery_is_free delivery_price = true ->
   (forall tr,
      fst (get_amazon_price W associate_url tr) = Ok (Some item_price, delivery_price)) ->
   forall (products : list Product) (sleep_minutes : Z) (cycles : nat) (tr tr' : trace),
     In product products ->
     monitor_products W cycles products associate_id bot_token chat_id sleep_minutes tr
       = (Ok tt, tr') ->
     times_notified message tr + cycles <= times_notified message tr').
Proof.
  intros Hurl Hne Hasin Hprice name associate_url message. split.
  - intros tr Hfetch.
    exact (check_product_notifies W associate_id bot_token chat_id product url asin
             item_price delivery_price Hurl Hne Hasin Hprice tr Hfetch).
  - intros Hfree Halways products sleep_minutes cycles tr tr' Hin Hrun.
    exact (monitor_notifies W associate_id bot_token chat_id product url asin
             item_price delivery_price Hurl Hne Hasin Hprice Hfree Halways
             products sleep_minutes cycles tr tr' Hin Hrun).
Qed.

Lemma free_shipping_notified_every_cycle_witness :
  (exists tr',
     check_product (Examples.configured (Ok (Examples.page "$24.99" (Some "FREE"))) 200)
       None None None Examples.kettle [] = (Ok tt, tr') /\
     notifications tr' =
       [notification_message "Kettle" "$24.99"
          "https://www.amazon.com/dp/B08N5WRWNW/ref=nosim?tag=yourtrackingid"]) /\
  (forall tr',
     monitor_products (Examples.configured (Ok (Examples.page "$24.99" (Some "FREE"))) 200)
       2 [Examples.kettle] None None None 20 [] = (Ok tt, tr') ->
     2 <= times_notified
            (notification_message "Kettle" "$24.99"
               "https://www.amazon.com/dp/B08N5WRWNW/ref=nosim?tag=yourtrackingid") tr').
Proof.
  destruct (free_shipping_notified_every_cycle
              (Examples.configured (Ok (Examples.page "$24.99" (Some "FREE"))) 200)
              None None None Examples.kettle
              "https://www.amazon.com/dp/B08N5WRWNW" "B08N5WRWNW" "$24.99" (Some "FREE"))
    as [Hone Hall].
  - reflexivity.
  - discriminate.
  - reflexivity.
  - discriminate.
  - split.
    + apply (Hone []). reflexivity.
    + intros tr' Hrun.
      apply (Hall eq_refl (fun tr => eq_refl) [Examples.kettle] 20%Z 2%nat [] tr').
      * left. reflexivity.
      * exact Hrun.
Defined.

Section Sleeping.

Variable W : World.
Variables associate_id bot_token chat_id : option string.
Variable products : list Product.
Variable sleep_minutes : Z.

Lemma cycle_sleeps (tr tr' : trace) :
  cycle W products associate_id bot_token chat_id sleep_minutes tr = (Ok tt, tr') ->
  slept tr' = (slept tr ++ [sleep_minutes * 60])%list%Z.
Proof.
  unfold cycle, bind, print, emit.
  match goal with
  | |- context [for_each products ?body ?t] =>
      destruct (adds_products W awake (fun e He => He) products
                  associate_id bot_token chat_id t) as [added [Hadd Hawake]];
      destruct (for_each products body t) as [[[] | e] tr1]
  end; [|discriminate].
  cbn [snd] in Hadd. subst tr1.
  destruct (sleep W _ _) as [[[] | e] tr2] eqn:Hsleep; [|discriminate].
  apply sleep_ok in Hsleep. subst tr2.
  intros H. injection H as <-.
  rewrite !slept_app, (slept_awake added Hawake). simpl.
  rewrite !app_nil_r. reflexivity.
Qed.

Lemma monitor_sleeps (cycles : nat) (tr tr' : trace) :
  monitor_products W cycles products associate_id bot_token chat_id sleep_minutes tr
    = (Ok tt, tr') ->
  slept tr' = (slept tr ++ repeat (sleep_minutes * 60)%Z cycles)%list.
Proof.
  revert tr. induction cycles as [|n IH]; intros tr; cbn [monitor_products].
  - unfold ret. intros H. injection H as <-. simpl. symmetry. apply app_nil_r.
  - unfold bind.
    destruct (cycle W products associate_id bot_token chat_id sleep_minutes tr)
      as [[[] | e] tr1] eqn:Hc; [|discriminate].
    intros Hrest. apply cycle_sleeps in Hc. apply IH in Hrest.
    rewrite Hrest, Hc, <- app_assoc. reflexivity.
Qed.

End Sleeping.

(** X2. The loop sleeps once at the end of every turn, for the configured
    minutes converted to seconds: after [cycles] completed turns the
    sleeps added are [cycles] times [sleep_minutes * 60]. *)
Theorem monitor_sleeps_configured_seconds
    (W : World) (associate_id bot_token chat_id : option string) (products : list Product)
    (sleep_minutes : Z) (cycles : nat) (tr tr' : trace) :
  monitor_products W cycles products associate_id bot_token chat_id sleep_minutes tr
    = (Ok tt, tr') ->
  slept tr' = (slept tr ++ repeat (sleep_minutes * 60)%Z cycles)%list.
Proof.
  exact (monitor_sleeps W associate_id bot_token chat_id products sleep_minutes cycles tr tr').
Qed.

Lemma monitor_sleeps_configured_seconds_witness :
  slept (snd (monitor_products Examples.shop 2 [Examples.lamp; Examples.kettle]
                None None None 20 []))
    = [1200; 1200]%Z.
Proof.
  apply (monitor_sleeps_configured_seconds Examples.shop None None None
           [Examples.lamp; Examples.kettle] 20 2 []).
  vm_compute. reflexivity.
Defined.

(** A product whose fetch yields no item price is logged and passed
    over. *)
Lemma check_product_without_price
    (W : World) (associate_id bot_token chat_id : option string) (product : Product)
    (url asin : string) (item_price delivery_price : option string) (tr : trace) :
  product !! "url" = Some url ->
  url <> "" ->
  extract_asin W url = Ok (Some asin) ->
  fst (get_amazon_price W (create_associate_url W (Some asin) associate_id) tr)
    = Ok (item_price, delivery_price) ->
  truthy item_price = false ->
  exists tr',
    check_product W associate_id bot_token chat_id product tr = (Ok tt, tr') /\
    notifications tr' = notifications tr.
Proof.
  intros Hurl Hne Hasin Hfetch Hprice. unfold check_product. rewrite Hurl.
  destruct (String.eqb url "") eqn:E; [apply String.eqb_eq in E; contradiction|].
  unfold bind at 1. unfold lift. rewrite Hasin.
  rewrite (extract_asin_truthy W url asin Hasin). cbn [negb]. cbv beta iota.
  unfold bind at 1.
  destruct (get_amazon_price_trace W (create_associate_url W (Some asin) associate_id) tr)
    as [added [Htr [_ [Hquiet _]]]].
  destruct (get_amazon_price W (create_associate_url W (Some asin) associate_id) tr)
    as [r tr1].
  cbn [fst snd] in Hfetch, Htr. subst r tr1.
  rewrite Hprice. cbn [negb]. cbv beta iota.
  eexists. split; [reflexivity|].
  rewrite !notifications_app, Hquiet. simpl. rewrite !app_nil_r. reflexivity.
Qed.

(** X3. A store of two products: the fetch of the first is answered with
    a status other than 200, the fetch of the second yields a price and
    free delivery, and [time.sleep] accepts the configured minutes and
    returns.  One turn of the loop is completed and hands the notifier
    exactly one message, the second product's. *)
Theorem failed_fetch_then_free_product
    (W : World) (associate_id bot_token chat_id : option string)
    (first second : Product) (url1 asin1 url2 asin2 item_price : string)
    (delivery_price : option string) (sleep_minutes : Z) (tr : trace) :
  first !! "url" = Some url1 -> url1 <> "" -> extract_asin W url1 = Ok (Some asin1) ->
  (forall t, exists response,
      requests_get W t (create_associate_url W (Some asin1) associate_id) headers = Ok response /\
      status_code response <> 200%Z) ->
  second !! "url" = Some url2 -> url2 <> "" -> extract_asin W url2 = Ok (Some asin2) ->
  item_price <> "" ->
  delivery_is_free delivery_price = true ->
  (forall t, fst (get_amazon_price W (create_associate_url W (Some asin2) associate_id) t)
             = Ok (Some item_price, delivery_price)) ->
  sleep_returns W sleep_minutes ->
  exists tr',
    cycle W [first; second] associate_id bot_token chat_id sleep_minutes tr = (Ok tt, tr') /\
    notifications tr' =
      (notifications tr ++
       [notification_message (default "Unknown Product" (second !! "name")) item_price
          (create_associate_url W (Some asin2) associate_id)])%list.
Proof.
  intros Hurl1 Hne1 Hasin1 Hfail Hurl2 Hne2 Hasin2 Hprice Hfree Hfetch Hsleep.
  unfold cycle, bind at 1 2. unfold print at 1. unfold emit at 1.
  set (tr0 := (tr ++ [Print (nl ++ "Checking prices at " ++ datetime_now W tr)])%list).
  assert (H0 : notifications tr0 = notifications tr).
  { unfold tr0. rewrite notifications_app. simpl. apply app_nil_r. }
  cbn [for_each]. unfold bind at 1 2.
  destruct (Hfail tr0) as [response [Hget Hstatus]].
  assert (Hfst : fst (get_amazon_price W (create_associate_url W (Some asin1) associate_id) tr0)
                 = Ok (None, None)).
  { destruct (get_amazon_price_failure W _ tr0 response Hget (or_introl Hstatus))
      as [t [Ht _]].
    rewrite Ht. reflexivity. }
  destruct (check_product_without_price W associate_id bot_token chat_id first url1 asin1
              None None tr0 Hurl1 Hne1 Hasin1 Hfst eq_refl) as [tr1 [Hrun1 Hnote1]].
  rewrite Hrun1.
  destruct (check_product_notifies W associate_id bot_token chat_id second url2 asin2
              item_price delivery_price Hurl2 Hne2 Hasin2 Hprice tr1 (Hfetch tr1))
    as [tr2 [Hrun2 Hnote2]].
  unfold bind. rewrite Hrun2. unfold ret, print, emit.
  rewrite (sleep_accepted W sleep_minutes _ Hsleep).
  eexists. split; [reflexivity|].
  rewrite !notifications_app, Hnote2, Hnote1, H0, Hfree. simpl.
  rewrite !app_nil_r. reflexivity.
Qed.

Lemma failed_fetch_then_free_product_witness :
  exists tr',
    cycle Examples.shop [Examples.lamp; Examples.kettle] None None None 20 [] = (Ok tt, tr') /\
    notifications tr' =
      (notifications [] ++
       [notification_message "Kettle" "$24.99"
          "https://www.amazon.com/dp/B08N5WRWNW/ref=nosim?tag=yourtrackingid"])%list.
Proof.
  apply (failed_fetch_then_free_product Examples.shop None None None
           Examples.lamp Examples.kettle
           "https://www.amazon.com/dp/B000000001" "B000000001"
           "https://www.amazon.com/dp/B08N5WRWNW" "B08N5WRWNW" "$24.99" (Some "Free") 20 []).
  - reflexivity.
  - discriminate.
  - reflexivity.
  - intros t. exists {| status_code := 503; content := [] |}. split; [reflexivity | discriminate].
  - reflexivity.
  - discriminate.
  - reflexivity.
  - discriminate.
  - reflexivity.
  - intros t. reflexivity.
  - split; [lia | intros t; reflexivity].
Defined.

(** ** The single-shot command *)

(** C9, as stated, fails: from the URL that the link builder makes for
    an absent identifier, [extract_asin] returns [None], and the page
    that [check_price] fetches is the URL it was given. *)
Lemma check_price_none_url_counterexample :
  extract_asin Examples.bare "https://www.amazon.com/dp/None/ref=nosim?tag=yourtrackingid"
    = Ok None /\
  fetched (snd (check_price Examples.bare
                  "https://www.amazon.com/dp/None/ref=nosim?tag=yourtrackingid" None []))
    = ["https://www.amazon.com/dp/None/ref=nosim?tag=yourtrackingid"].
Proof. vm_compute. split; reflexivity. Qed.

(** C9, amended.  When [extract_asin] returns [None], [check_price] still
    builds the associate URL, with the text [None] where the identifier
    belongs, and the one page it fetches is that URL: not the URL it was
    given, unless the URL given is that very text. *)
Theorem check_price_fetches_none_url
    (W : World) (url : string) (associate_id : option string) (tr : trace) :
  extract_asin W url = Ok None ->
  let none_url := "https://www.amazon.com/dp/None/ref=nosim?tag=" ++ tag_in_force W associate_id in
  create_associate_url W None associate_id = none_url /\
  exists added,
    snd (check_price W url associate_id tr) = (tr ++ added)%list /\
    fetched added = [none_url] /\
    (url <> none_url -> ~ In url (fetched added)).
Proof.
  intros Hasin none_url.
  assert (Hbuild : create_associate_url W None associate_id = none_url) by reflexivity.
  split; [exact Hbuild|].
  unfold check_price. unfold bind at 1. unfold lift. rewrite Hasin.
  cbn [truthy negb]. cbv beta iota.
  rewrite Hbuild.
  unfold bind, print, emit, ret. cbv beta iota.
  match goal with
  | |- context [get_amazon_price W none_url ?t] =>
      destruct (get_amazon_price_trace W none_url t) as [added [Htr [Hfetch _]]];
      destruct (get_amazon_price W none_url t) as [r tr1]
  end.
  cbn [snd] in Htr. subst tr1.
  assert (Hgoal : forall extra : trace,
             fetched extra = [] ->
             exists added0,
               ((tr ++ [Print "Error: Could not extract ASIN from URL. Using original URL."])
                  ++ [Print ("Associate URL: " ++ none_url)]
                  ++ [Print ("Processing URL: " ++ none_url)] ++ added ++ extra)%list
               = (tr ++ added0)%list /\
               fetched added0 = [none_url] /\
               (url <> none_url -> ~ In url (fetched added0))).
  { intros extra Hextra. eexists. split; [rewrite <- app_assoc; reflexivity|].
    assert (Hf : fetched
                   ([Print "Error: Could not extract ASIN from URL. Using original URL."] ++
                    [Print ("Associate URL: " ++ none_url)] ++
                    [Print ("Processing URL: " ++ none_url)] ++ added ++ extra)%list
                 = [none_url]).
    { rewrite !fetched_app, Hfetch, Hextra. reflexivity. }
    split; [exact Hf|].
    rewrite Hf. intros Hne [Heq | []]. apply Hne. symmetry. exact Heq. }
  destruct r as [[item_price delivery_price] | e]; cbn [snd].
  - destruct (truthy item_price); cbn [snd].
    + destruct (Hgoal [Print ("Item price: " ++ format item_price);
                       Print ("Delivery price: " ++ format delivery_price)] eq_refl)
        as [added0 [H1 H2]].
      exists added0. split; [|exact H2]. rewrite <- H1.
      rewrite <- !app_assoc. reflexivity.
    + destruct (Hgoal [Print "Failed to retrieve price information"] eq_refl)
        as [added0 [H1 H2]].
      exists added0. split; [|exact H2]. rewrite <- H1.
      rewrite <- !app_assoc. reflexivity.
  - destruct (Hgoal [] eq_refl) as [added0 [H1 H2]].
    exists added0. split; [|exact H2]. rewrite <- H1.
    rewrite app_nil_r, <- !app_assoc. reflexivity.
Qed.

Lemma check_price_fetches_none_url_witness :
  create_associate_url Examples.bare None None
    = "https://www.amazon.com/dp/None/ref=nosim?tag=yourtrackingid" /\
  exists added,
    snd (check_price Examples.bare "https://example.com/some/page" None []) = ([] ++ added)%list /\
    fetched added = ["https://www.amazon.com/dp/None/ref=nosim?tag=yourtrackingid"] /\
    ("https://example.com/some/page"
       <> "https://www.amazon.com/dp/None/ref=nosim?tag=yourtrackingid" ->
     ~ In "https://example.com/some/page" (fetched added)).
Proof.
  apply (check_price_fetches_none_url Examples.bare "https://example.com/some/page" None []).
  reflexivity.
Defined.

(** * Further properties *)

(** ** The extractor: what it returns and when it raises *)

Lemma scan_dp_is_segment (W : World) (url next : string) (parsed : UrlParse.ParseResult) :
  urlparse W url = Ok parsed ->
  scan_dp (Str.split "/" (UrlParse.path parsed)) = Some next ->
  exists before after, segment_at url before next after.
Proof.
  intros Ep E2.
  apply (UrlFacts.urlparse_path (ip_address W)) in Ep as [prefix [suffix [Hclean Hend]]].
  apply (UrlFacts.scan_dp_segment _ _ _ eq_refl) in E2
    as [b [a [Hpath [Hlen [Hmem Hafter]]]]].
  exists (prefix ++ b), (a ++ suffix).
  split; [|split; [exact Hlen | split; [exact Hmem|]]].
  - rewrite Hclean, Hpath, !StrFacts.append_assoc. reflexivity.
  - destruct Hafter as [-> | [rest ->]].
    + destruct Hend as [-> | [c [rest [-> Hc]]]]; [left; reflexivity|].
      right. exists c, rest. split; [reflexivity|].
      cbn [Str.mem] in *. rewrite Hc. apply orb_true_r.
    + right. exists "/"%char, (rest ++ suffix). split; reflexivity.
Qed.

(** X5. Whatever [extract_asin] returns as an identifier is a
    ten-character segment of the URL: the URL (tabs and line ends taken
    out) holds a [/], then the identifier, which has ten characters and no
    [/], then the end or one of [/], [?], [#], [;]. *)
Theorem extract_asin_result_is_segment (W : World) (url asin : string) :
  extract_asin W url = Ok (Some asin) ->
  exists before after, segment_at url before asin after.
Proof.
  unfold extract_asin. intros H.
  destruct (Re.search "/dp/" url) as [g|] eqn:E1.
  - injection H as <-. apply (UrlFacts.search_segment "/dp/" url g); [right; reflexivity | exact E1].
  - destruct (urlparse W url) as [parsed|e] eqn:Ep; [|discriminate].
    destruct (scan_dp _) as [next|] eqn:E2.
    + injection H as <-. exact (scan_dp_is_segment W url next parsed Ep E2).
    + destruct (Re.search "/" url) as [g|] eqn:E3; [|discriminate].
      injection H as <-.
      apply (UrlFacts.search_segment "/" url g); [left; reflexivity | exact E3].
Qed.

Lemma extract_asin_result_is_segment_witness :
  exists before after,
    segment_at "https://www.amazon.com/Kettle/dp/b08n5wrwnw;v=2?th=1" before "b08n5wrwnw" after.
Proof.
  apply (extract_asin_result_is_segment Examples.bare).
  vm_compute. reflexivity.
Defined.

Module Brackets.

Lemma mem_remove (c d : ascii) (s : string) :
  Str.mem c s = false -> Str.mem c (Str.remove d s) = false.
Proof.
  induction s as [|x s IH]; [reflexivity|].
  cbn [Str.mem Str.remove]. intros H. apply orb_false_iff in H as [Hx Hs].
  destruct (Ascii.eqb d x); [exact (IH Hs)|].
  cbn [Str.mem]. rewrite Hx, (IH Hs). reflexivity.
Qed.

Lemma mem_lstrip (c : ascii) (p : ascii -> bool) (s : string) :
  Str.mem c s = false -> Str.mem c (Str.lstrip p s) = false.
Proof.
  induction s as [|x s IH]; [reflexivity|].
  cbn [Str.lstrip]. intros H. destruct (p x); [|exact H].
  cbn [Str.mem] in H. apply orb_false_iff in H as [_ Hs]. exact (IH Hs).
Qed.

Lemma mem_suffix (c : ascii) (prefix s : string) :
  Str.mem c (prefix ++ s) = false -> Str.mem c s = false.
Proof.
  rewrite Occurrences.mem_append. intros H. apply orb_false_iff in H as [_ H]. exact H.
Qed.

Lemma mem_prefix (c : ascii) (s suffix : string) :
  Str.mem c (s ++ suffix) = false -> Str.mem c s = false.
Proof.
  rewrite Occurrences.mem_append. intros H. apply orb_false_iff in H as [H _]. exact H.
Qed.

Lemma mem_remove_same (c : ascii) (s : string) : Str.mem c (Str.remove c s) = false.
Proof.
  induction s as [|x s IH]; [reflexivity|].
  cbn [Str.remove]. destruct (Ascii.eqb c x) eqn:E; [exact IH|].
  cbn [Str.mem]. rewrite E, IH. reflexivity.
Qed.

(** What [break] puts in front holds no character it stops at. *)
Lemma break_before (stop : ascii -> bool) (c : ascii) (s before : string)
    (after : option string) :
  stop c = true -> Str.break stop s = (before, after) -> Str.mem c before = false.
Proof.
  intros Hc. revert before. induction s as [|x s IH]; intros before H; cbn [Str.break] in H.
  - injection H as <- _. reflexivity.
  - destruct (stop x) eqn:Ex.
    + injection H as <- _. reflexivity.
    + destruct (Str.break stop s) as [b a]. injection H as <- <-.
      cbn [Str.mem]. rewrite (IH b eq_refl), orb_false_r.
      apply Ascii.eqb_neq. intros ->. rewrite Hc in Ex. discriminate.
Qed.

Lemma splitnetloc_domain (after_slashes netloc rest : string) :
  UrlParse.splitnetloc after_slashes = (netloc, rest) -> Str.mem "/" netloc = false.
Proof.
  unfold UrlParse.splitnetloc.
  destruct (Str.break _ after_slashes) as [b a] eqn:E.
  apply (break_before _ "/") in E; [|reflexivity].
  destruct a; intros H; injection H as <- _; exact E.
Qed.

(** Normalisation brings in none of the five characters [_checknetloc]
    looks for: on the characters below U+0100 each of them comes from
    itself only. *)
Lemma nfkc_char_mem (d c : ascii) :
  Str.mem d "/?#@:" = true ->
  existsb (N.eqb (Str.code d)) (UrlParse.nfkc_char c) = Ascii.eqb d c.
Proof.
  cbn [Str.mem]. rewrite orb_false_r. intros H.
  repeat (apply orb_true_iff in H as [H | H]);
    apply Ascii.eqb_eq in H; subst d;
    destruct c as [[] [] [] [] [] [] [] []]; reflexivity.
Qed.

Lemma nfkc_mem (d : ascii) (s : string) :
  Str.mem d "/?#@:" = true ->
  existsb (N.eqb (Str.code d)) (UrlParse.nfkc s) = Str.mem d s.
Proof.
  intros Hd. induction s as [|c s IH]; [reflexivity|].
  cbn [UrlParse.nfkc Str.mem]. rewrite existsb_app, IH, (nfkc_char_mem d c Hd). reflexivity.
Qed.

(** [_checknetloc] accepts every host of characters below U+0100. *)
Lemma checknetloc_returns (netloc : string) :
  Str.mem "/" netloc = false -> UrlParse.checknetloc netloc = Ok tt.
Proof.
  intros Hslash. unfold UrlParse.checknetloc.
  destruct (_ || _); [reflexivity|].
  set (n := Str.remove "?" (Str.remove "#" (Str.remove ":" (Str.remove "@" netloc)))).
  cbv zeta. destruct (UrlParse.same_codes _ _); [reflexivity|].
  assert (Hnone : forall d, Str.mem d "/?#@:" = true -> Str.mem d n = false).
  { intros d Hd. cbn [Str.mem] in Hd. rewrite orb_false_r in Hd. unfold n.
    repeat (apply orb_true_iff in Hd as [Hd | Hd]); apply Ascii.eqb_eq in Hd; subst d.
    - do 4 apply mem_remove. exact Hslash.
    - apply mem_remove_same.
    - apply mem_remove, mem_remove_same.
    - do 3 apply mem_remove. apply mem_remove_same.
    - do 2 apply mem_remove. apply mem_remove_same. }
  cbn [UrlParse.codes existsb].
  rewrite !nfkc_mem by reflexivity.
  rewrite !Hnone by reflexivity. reflexivity.
Qed.

(** Without a square bracket in the URL, [urlsplit] does not raise. *)
Lemma urlsplit_returns (ip : string -> result bool) (url : string) :
  Str.mem "[" url = false -> Str.mem "]" url = false ->
  exists parts, UrlParse.urlsplit ip url = Ok parts.
Proof.
  intros Ho Hc. unfold UrlParse.urlsplit.
  set (u1 := UrlParse.remove_unsafe (Str.lstrip UrlParse.c0_control_or_space url)).
  assert (H1 : forall c, Str.mem c url = false -> Str.mem c u1 = false).
  { intros c H. unfold u1, UrlParse.remove_unsafe.
    do 3 apply mem_remove. apply mem_lstrip, H. }
  destruct (UrlParse.split_scheme u1) as [sch u2] eqn:Es.
  apply UrlFacts.split_scheme_suffix in Es as [p2 Hu2].
  assert (H2 : forall c, Str.mem c url = false -> Str.mem c u2 = false).
  { intros c H. apply (mem_suffix c p2). rewrite <- Hu2. apply H1, H. }
  assert (Hdone : forall nl u3 : string,
             Str.mem "/" nl = false ->
             exists parts,
               (let '(url1, fragment0) := UrlParse.cut "#" u3 in
                let '(url2, query0) := UrlParse.cut "?" url1 in
                match UrlParse.checknetloc nl with
                | Raise e => Raise e
                | Ok _ => Ok (sch, nl, url2, query0, fragment0)
                end) = Ok parts).
  { intros nl u3 Hnl. destruct (UrlParse.cut "#" u3) as [u4 fr].
    destruct (UrlParse.cut "?" u4) as [u5 qu].
    rewrite (checknetloc_returns nl Hnl). eexists. reflexivity. }
  destruct u2 as [|c1 u2']; [apply (Hdone "" ""); reflexivity|].
  destruct (Ascii.eqb c1 "/") eqn:E1.
  2:{ destruct c1 as [[] [] [] [] [] [] [] []]; try discriminate E1;
        apply Hdone; reflexivity. }
  apply Ascii.eqb_eq in E1. subst c1.
  destruct u2' as [|c2 u2'']; [apply Hdone; reflexivity|].
  destruct (Ascii.eqb c2 "/") eqn:E2.
  2:{ destruct c2 as [[] [] [] [] [] [] [] []]; try discriminate E2;
        apply Hdone; reflexivity. }
  apply Ascii.eqb_eq in E2. subst c2.
  destruct (UrlParse.splitnetloc u2'') as [nl u3] eqn:En.
  pose proof (splitnetloc_domain _ _ _ En) as Hslash.
  apply UrlFacts.splitnetloc_suffix in En.
  assert (Hnl : forall c, Str.mem c url = false -> Str.mem c nl = false).
  { intros c H. apply (mem_prefix c nl u3). rewrite <- En.
    apply (mem_suffix c "//"). exact (H2 c H). }
  rewrite (Hnl _ Ho), (Hnl _ Hc). cbn [andb orb negb]. apply Hdone. exact Hslash.
Qed.

Lemma urlparse_returns (ip : string -> result bool) (url : string) :
  Str.mem "[" url = false -> Str.mem "]" url = false ->
  exists parsed, UrlParse.urlparse ip url = Ok parsed.
Proof.
  intros Ho Hc. unfold UrlParse.urlparse.
  destruct (urlsplit_returns ip url Ho Hc) as [[[[[sch nl] u] qu] fr] ->].
  destruct (_ && _); [destruct (UrlParse.splitparams u)|]; eexists; reflexivity.
Qed.

(** A place where the pattern matches is found by the search. *)
Lemma search_finds (lit before code after : string) :
  String.length code = 10%nat ->
  Str.forallb Re.asin_class code = true ->
  Re.at_delimiter after = true ->
  exists group, Re.search lit (before ++ lit ++ code ++ after) = Some group.
Proof.
  intros Hlen Hcls Hd. induction before as [|c before IH]; rewrite search_unfold.
  - rewrite StrFacts.append_nil_l, (ReFacts.match_here_intro lit code after Hlen Hcls Hd).
    eexists. reflexivity.
  - destruct (Re.match_here lit _) as [g|]; [eexists; reflexivity|].
    rewrite (StrFacts.append_cons c before). exact IH.
Qed.

End Brackets.

(** X6. [extract_asin] raises only when the first pattern ([/dp/], ten
    characters of [A-Z0-9], a delimiter) does not match and [urlparse]
    raises, and what it raises is the exception of [urlparse].  On a URL
    of characters below U+0100, the URLs of this model, [urlparse] raises
    only if the URL holds a square bracket: [_checknetloc] accepts every
    host of such characters. *)
Theorem extract_asin_raises_only_from_urlparse (W : World) (url : string) (e : exn) :
  extract_asin W url = Raise e ->
  urlparse W url = Raise e /\
  (Str.mem "[" url = true \/ Str.mem "]" url = true) /\
  (forall before code after, ~ code_after Re.asin_class "/dp/" url before code after).
Proof.
  unfold extract_asin. intros H.
  destruct (Re.search "/dp/" url) as [g|] eqn:E1; [discriminate|].
  assert (Hparse : urlparse W url = Raise e).
  { destruct (urlparse W url) as [parsed|e0]; [|congruence].
    destruct (scan_dp _); [discriminate|].
    destruct (Re.search "/" url); discriminate. }
  split; [exact Hparse|]. split.
  - destruct (Str.mem "[" url) eqn:Ho; [left; reflexivity|].
    destruct (Str.mem "]" url) eqn:Hc; [right; reflexivity|].
    exfalso. unfold urlparse in Hparse.
    destruct (Brackets.urlparse_returns (ip_address W) url Ho Hc) as [parsed Hp].
    rewrite Hp in Hparse. discriminate.
  - intros before code after [Heq [Hlen [Hcls Hdelim]]].
    destruct (Brackets.search_finds "/dp/" before code after Hlen Hcls
                (delimiter_of_spec after Hdelim)) as [g Hg].
    rewrite <- Heq, E1 in Hg. discriminate.
Qed.

Lemma extract_asin_raises_only_from_urlparse_witness :
  urlparse Examples.bare "http://[" = Raise (Exn ValueError "Invalid IPv6 URL") /\
  (Str.mem "[" "http://[" = true \/ Str.mem "]" "http://[" = true) /\
  (forall before code after, ~ code_after Re.asin_class "/dp/" "http://[" before code after).
Proof.
  apply (extract_asin_raises_only_from_urlparse Examples.bare "http://["
           (Exn ValueError "Invalid IPv6 URL")).
  reflexivity.
Defined.

(** X7. Round trip of the link builder and the extractor: from the
    associate URL built for an identifier of ten characters of [A-Z0-9],
    with any affiliate tag, [extract_asin] returns that identifier. *)
Theorem extract_asin_of_associate_url
    (W : World) (asin : string) (associate_id : option string) :
  String.length asin = 10%nat ->
  Str.forallb Re.asin_class asin = true ->
  extract_asin W (create_associate_url W (Some asin) associate_id) = Ok (Some asin).
Proof.
  intros Hlen Hcls.
  change (create_associate_url W (Some asin) associate_id)
    with ("https://www.amazon.com" ++ "/dp/" ++ asin ++
          "/ref=nosim?tag=" ++ tag_in_force W associate_id).
  unfold extract_asin.
  rewrite (search_dp_leftmost "https://www.amazon.com" asin
             ("/ref=nosim?tag=" ++ tag_in_force W associate_id) Hlen Hcls).
  - reflexivity.
  - right. eexists. left. reflexivity.
  - intros before' code' after' [Heq _].
    do 22 (destruct before' as [|? before'];
           [ rewrite ?StrFacts.append_nil_l, ?StrFacts.append_cons in Heq; discriminate Heq
           | rewrite ?StrFacts.append_cons in Heq; injection Heq as _ Heq ]).
    simpl. lia.
Qed.

Lemma extract_asin_of_associate_url_witness :
  extract_asin Examples.bare (create_associate_url Examples.bare (Some "B08N5WRWNW") (Some "me-20"))
    = Ok (Some "B08N5WRWNW").
Proof.
  apply (extract_asin_of_associate_url Examples.bare "B08N5WRWNW" (Some "me-20")); reflexivity.
Defined.

(** ** The price fetcher: what an answered and an unanswered request give *)

Lemma find_first {A : Type} (test : A -> bool) (before after : list A) (x : A) :
  Forall (fun y => test y = false) before -> test x = true ->
  List.find test (before ++ x :: after)%list = Some x.
Proof.
  induction 1 as [|y before Hy _ IH]; intros Hx; simpl.
  - rewrite Hx. reflexivity.
  - rewrite Hy. exact (IH Hx).
Qed.

(** X8. When the request is answered, [get_amazon_price] returns and does
    not raise.  The item price is absent exactly when the status is not 200
    or the page has no span of class [a-offscreen]; a delivery price is
    never returned without an item price; and with status 200 the item
    price is the text of the first such span in the page, returned without
    any output. *)
Theorem get_amazon_price_answered
    (W : World) (url : string) (tr : trace) (response : Response) :
  requests_get W tr url headers = Ok response ->
  exists item_price delivery_price tr',
    get_amazon_price W url tr = (Ok (item_price, delivery_price), tr') /\
    (item_price = None <->
     status_code response <> 200%Z \/
     find_class (content response) "span" "a-offscreen" = None) /\
    (item_price = None -> delivery_price = None) /\
    (forall before e after,
       status_code response = 200%Z ->
       content response = (before ++ e :: after)%list ->
       Forall (fun x => span_with_class "a-offscreen" x = false) before ->
       span_with_class "a-offscreen" e = true ->
       item_price = Some (text e) /\ tr' = (tr ++ [Get url headers])%list).
Proof.
  intros Hget. unfold get_amazon_price, bind, get. rewrite Hget.
  destruct (status_code response =? 200)%Z eqn:E; cbn [negb].
  - apply Z.eqb_eq in E. unfold try_except, bind, getText.
    destruct (find_class (content response) "span" "a-offscreen") as [e0|] eqn:Ef.
    + eexists _, _, _. split; [reflexivity|]. split; [|split].
      * split; [discriminate|]. intros [H | H]; [contradiction | discriminate].
      * discriminate.
      * intros before e after _ Hc Hb He. split; [|reflexivity].
        unfold find_class in Ef. rewrite Hc in Ef.
        assert (Hfirst : List.find (span_with_class "a-offscreen") (before ++ e :: after)%list
                         = Some e) by (apply find_first; assumption).
        unfold span_with_class in Hfirst at 1. rewrite Hfirst in Ef.
        injection Ef as <-. reflexivity.
    + simpl. unfold bind, print, emit, ret. simpl.
      eexists _, _, _. split; [reflexivity|]. split; [|split].
      * split; [intros _; right; reflexivity | reflexivity].
      * reflexivity.
      * intros before e after _ Hc Hb He. exfalso.
        unfold find_class in Ef. rewrite Hc in Ef.
        assert (Hfirst : List.find (span_with_class "a-offscreen") (before ++ e :: after)%list
                         = Some e) by (apply find_first; assumption).
        unfold span_with_class in Hfirst at 1. rewrite Hfirst in Ef. discriminate.
  - apply Z.eqb_neq in E. unfold bind, print, emit, ret. simpl.
    eexists _, _, _. split; [reflexivity|]. split; [|split].
    + split; [intros _; left; exact E | reflexivity].
    + reflexivity.
    + intros before e after Hs. contradiction.
Qed.

Lemma get_amazon_price_answered_witness :
  exists item_price delivery_price tr',
    get_amazon_price Examples.shop "https://www.amazon.com/dp/B08N5WRWNW/ref=nosim?tag=x" []
      = (Ok (item_price, delivery_price), tr') /\
    (item_price = None <->
     status_code (Examples.page "$24.99" (Some "Free")) <> 200%Z \/
     find_class (content (Examples.page "$24.99" (Some "Free"))) "span" "a-offscreen" = None) /\
    (item_price = None -> delivery_price = None) /\
    (forall before e after,
       status_code (Examples.page "$24.99" (Some "Free")) = 200%Z ->
       content (Examples.page "$24.99" (Some "Free")) = (before ++ e :: after)%list ->
       Forall (fun x => span_with_class "a-offscreen" x = false) before ->
       span_with_class "a-offscreen" e = true ->
       item_price = Some (text e) /\
       tr' = ([] ++ [Get "https://www.amazon.com/dp/B08N5WRWNW/ref=nosim?tag=x" headers])%list).
Proof.
  apply (get_amazon_price_answered Examples.shop
           "https://www.amazon.com/dp/B08N5WRWNW/ref=nosim?tag=x" []
           (Examples.page "$24.99" (Some "Free"))).
  reflexivity.
Defined.

Section FetchError.

Variable W : World.
Variables associate_id bot_token chat_id : option string.
Variable product : Product.
Variables url asin : string.
Variable e : exn.

Hypothesis Hurl : product !! "url" = Some url.
Hypothesis Hurl_nonempty : url <> "".
Hypothesis Hasin : extract_asin W url = Ok (Some asin).
Hypothesis Hraise :
  forall t, requests_get W t (create_associate_url W (Some asin) associate_id) headers = Raise e.

Lemma check_product_fetch_error (tr : trace) :
  check_product W associate_id bot_token chat_id product tr =
    (Raise e, (tr ++ [Get (create_associate_url W (Some asin) associate_id) headers])%list).
Proof.
  unfold check_product. rewrite Hurl.
  destruct (String.eqb url "") eqn:E; [apply String.eqb_eq in E; contradiction|].
  unfold bind at 1. unfold lift. rewrite Hasin.
  rewrite (extract_asin_truthy W url asin Hasin). cbn [negb]. cbv beta iota.
  unfold bind at 1. unfold get_amazon_price, bind, get. rewrite Hraise. reflexivity.
Qed.

Lemma monitor_fetch_error (earlier later : list Product) (sleep_minutes : Z) (cycles : nat)
    (tr : trace) :
  fst (for_each earlier (check_product W associate_id bot_token chat_id)
         (tr ++ [Print (nl ++ "Checking prices at " ++ datetime_now W tr)])%list) = Ok tt ->
  monitor_products W (S cycles) (earlier ++ product :: later)%list
    associate_id bot_token chat_id sleep_minutes tr =
  (Raise e,
   (snd (for_each earlier (check_product W associate_id bot_token chat_id)
           (tr ++ [Print (nl ++ "Checking prices at " ++ datetime_now W tr)])%list)
    ++ [Get (create_associate_url W (Some asin) associate_id) headers])%list).
Proof.
  intros Hearlier. cbn [monitor_products]. unfold bind at 1.
  unfold cycle, bind, print, emit.
  rewrite for_each_app. unfold bind.
  destruct (for_each earlier _ _) as [[[] | e1] tr1]; [|discriminate Hearlier].
  cbn [for_each snd]. unfold bind.
  rewrite check_product_fetch_error. reflexivity.
Qed.

Lemma earlier_awake (earlier : list Product) (tr : trace) :
  slept (snd (for_each earlier (check_product W associate_id bot_token chat_id) tr)) = slept tr.
Proof.
  destruct (adds_products W awake (fun x Hx => Hx) earlier associate_id bot_token chat_id tr)
    as [added [-> Hawake]].
  rewrite slept_app, (slept_awake added Hawake). apply app_nil_r.
Qed.

End FetchError.

(** X9. A transport error of [requests.get] is not caught: when the
    request for a product's page raises, [get_amazon_price] raises the
    same exception after the one request, and so does the loop in its
    first turn when it reaches the product: the products before it have
    been checked, the products after it never are, and the loop has not
    slept. *)
Theorem fetch_error_ends_the_loop
    (W : World) (associate_id bot_token chat_id : option string) (product : Product)
    (url asin : string) (e : exn) (earlier later : list Product) (sleep_minutes : Z)
    (cycles : nat) (tr : trace) :
  product !! "url" = Some url ->
  url <> "" ->
  extract_asin W url = Ok (Some asin) ->
  (forall t, requests_get W t (create_associate_url W (Some asin) associate_id) headers
             = Raise e) ->
  fst (for_each earlier (check_product W associate_id bot_token chat_id)
         (tr ++ [Print (nl ++ "Checking prices at " ++ datetime_now W tr)])%list) = Ok tt ->
  get_amazon_price W (create_associate_url W (Some asin) associate_id) tr =
    (Raise e, (tr ++ [Get (create_associate_url W (Some asin) associate_id) headers])%list) /\
  monitor_products W (S cycles) (earlier ++ product :: later)%list
    associate_id bot_token chat_id sleep_minutes tr =
    (Raise e,
     (snd (for_each earlier (check_product W associate_id bot_token chat_id)
             (tr ++ [Print (nl ++ "Checking prices at " ++ datetime_now W tr)])%list)
      ++ [Get (create_associate_url W (Some asin) associate_id) headers])%list) /\
  slept (snd (monitor_products W (S cycles) (earlier ++ product :: later)%list
                associate_id bot_token chat_id sleep_minutes tr)) = slept tr.
Proof.
  intros Hurl Hne Hasin Hraise Hearlier.
  pose proof (monitor_fetch_error W associate_id bot_token chat_id product url asin e
                Hurl Hne Hasin Hraise earlier later sleep_minutes cycles tr Hearlier) as Hrun.
  split; [|split].
  - unfold get_amazon_price, bind, get. rewrite Hraise. reflexivity.
  - exact Hrun.
  - rewrite Hrun. cbn [snd].
    rewrite slept_app, (earlier_awake W associate_id bot_token chat_id earlier), slept_app.
    simpl. rewrite !app_nil_r. reflexivity.
Qed.

Lemma fetch_error_ends_the_loop_witness :
  get_amazon_price
    (Examples.configured (Raise (Exn (OtherException "ConnectionError") "no route")) 200)
    "https://www.amazon.com/dp/B08N5WRWNW/ref=nosim?tag=yourtrackingid" [] =
    (Raise (Exn (OtherException "ConnectionError") "no route"),
     ([] ++ [Get "https://www.amazon.com/dp/B08N5WRWNW/ref=nosim?tag=yourtrackingid" headers])%list) /\
  monitor_products
    (Examples.configured (Raise (Exn (OtherException "ConnectionError") "no route")) 200)
    3 ([Examples.bare_entry] ++ Examples.kettle :: [Examples.lamp])%list None None None 20 [] =
    (Raise (Exn (OtherException "ConnectionError") "no route"),
     (snd (for_each [Examples.bare_entry]
             (check_product
                (Examples.configured
                   (Raise (Exn (OtherException "ConnectionError") "no route")) 200)
                None None None)
             ([] ++ [Print (nl ++ "Checking prices at " ++
                            datetime_now
                              (Examples.configured
                                 (Raise (Exn (OtherException "ConnectionError") "no route")) 200)
                              [])])%list)
      ++ [Get "https://www.amazon.com/dp/B08N5WRWNW/ref=nosim?tag=yourtrackingid" headers])%list) /\
  slept (snd (monitor_products
                (Examples.configured
                   (Raise (Exn (OtherException "ConnectionError") "no route")) 200)
                3 ([Examples.bare_entry] ++ Examples.kettle :: [Examples.lamp])%list
                None None None 20 [])) = slept [].
Proof.
  apply (fetch_error_ends_the_loop
           (Examples.configured (Raise (Exn (OtherException "ConnectionError") "no route")) 200)
           None None None Examples.kettle
           "https://www.amazon.com/dp/B08N5WRWNW" "B08N5WRWNW"
           (Exn (OtherException "ConnectionError") "no route")
           [Examples.bare_entry] [Examples.lamp] 20 2 []).
  - reflexivity.
  - discriminate.
  - reflexivity.
  - intros t. reflexivity.
  - vm_compute. reflexivity.
Defined.

(** ** The product store: what is passed through *)

Lemma load_products_passes_json
    (W : World) (filename text : string) (value : json) (tr : trace) :
  open_read W tr filename = Ok text ->
  json_loads W text = Ok value ->
  load_products W filename tr = (Ok value, (tr ++ [Open filename])%list).
Proof.
  intros Hopen Hjson.
  unfold load_products, try_except, bind, read_file, lift.
  rewrite Hopen, Hjson. reflexivity.
Qed.

(** X10. [load_products] does not look at what the file holds: when the
    file is read and its text is valid JSON, the value that [json.load]
    gives is returned as it is, whatever its shape, and nothing is
    printed. *)
Theorem load_products_returns_any_json
    (W : World) (filename text : string) (value : json) (tr : trace) :
  open_read W tr filename = Ok text ->
  json_loads W text = Ok value ->
  load_products W filename tr = (Ok value, (tr ++ [Open filename])%list).
Proof.
  exact (load_products_passes_json W filename text value tr).
Qed.

Lemma load_products_returns_any_json_witness :
  load_products (Examples.with_file "{}" (Ok (JObject []))) "products.json" []
    = (Ok (JObject []), ([] ++ [Open "products.json"])%list).
Proof.
  apply (load_products_returns_any_json _ "products.json" "{}"); reflexivity.
Defined.

(** X11. Only [FileNotFoundError] and [JSONDecodeError] are caught: any
    exception of another class raised while the file is opened, read or
    parsed goes on to the caller, and nothing is printed. *)
Theorem load_products_other_errors_propagate
    (W : World) (filename : string) (e : exn) (tr : trace) :
  is_class FileNotFoundError e = false ->
  is_class JSONDecodeError e = false ->
  open_read W tr filename = Raise e \/
  (exists text, open_read W tr filename = Ok text /\ json_loads W text = Raise e) ->
  load_products W filename tr = (Raise e, (tr ++ [Open filename])%list).
Proof.
  intros Hf Hj [Hopen | [text [Hopen Hjson]]];
    unfold load_products, try_except, bind, read_file, lift; rewrite Hopen;
    [|rewrite Hjson]; cbn [handle]; rewrite Hf, Hj; reflexivity.
Qed.

Lemma load_products_other_errors_propagate_witness :
  load_products
    (Examples.with_file "" (Raise (Exn (OtherException "RecursionError") "maximum recursion depth exceeded")))
    "products.json" []
    = (Raise (Exn (OtherException "RecursionError") "maximum recursion depth exceeded"),
       ([] ++ [Open "products.json"])%list).
Proof.
  apply load_products_other_errors_propagate.
  - reflexivity.
  - reflexivity.
  - right. exists "". split; reflexivity.
Defined.

(** ** The notifier: arguments and environment *)

(** X12. Credentials passed as arguments are never replaced from the
    environment, not even empty ones: with both arguments given, the
    outcome is the same under every environment, and when one of the two
    is the empty string the notifier returns [False] without a request. *)
Theorem explicit_credentials_ignore_environment
    (W : World) (env : gmap string string) (message token chat : string) (tr : trace) :
  send_telegram_message (with_environ env W) message (Some token) (Some chat) tr =
    send_telegram_message W message (Some token) (Some chat) tr /\
  (token = "" \/ chat = "" ->
   fst (send_telegram_message W message (Some token) (Some chat) tr) = Ok false /\
   requests (snd (send_telegram_message W message (Some token) (Some chat) tr)) = requests tr).
Proof.
  split; [reflexivity|].
  intros Hempty.
  rewrite (send_without_credentials W message (Some token) (Some chat) tr).
  - split; [reflexivity|]. cbn [snd]. rewrite requests_app. simpl. apply app_nil_r.
  - apply andb_false_iff. destruct Hempty as [-> | ->]; [left | right]; reflexivity.
Qed.

Lemma explicit_credentials_ignore_environment_witness :
  send_telegram_message (with_environ Examples.credentials Examples.bare)
    "hello" (Some "") (Some "42") [] =
    send_telegram_message Examples.bare "hello" (Some "") (Some "42") [] /\
  ("" = "" \/ "42" = "" ->
   fst (send_telegram_message Examples.bare "hello" (Some "") (Some "42") []) = Ok false /\
   requests (snd (send_telegram_message Examples.bare "hello" (Some "") (Some "42") []))
     = requests []).
Proof.
  exact (explicit_credentials_ignore_environment Examples.bare Examples.credentials
           "hello" "" "42" []).
Defined.

(** ** The single-shot command: what it does to the outside *)

Lemma posted_app (a b : trace) : posted (a ++ b)%list = (posted a ++ posted b)%list.
Proof.
  induction a as [|e a IH]; simpl; [reflexivity|].
  destruct e; simpl; rewrite IH; reflexivity.
Qed.

Lemma printed_app (a b : trace) : printed (a ++ b)%list = (printed a ++ printed b)%list.
Proof.
  induction a as [|e a IH]; simpl; [reflexivity|].
  destruct e; simpl; rewrite IH; reflexivity.
Qed.

Lemma get_amazon_price_events (W : World) (url : string) (tr : trace) :
  exists added,
    snd (get_amazon_price W url tr) = (tr ++ added)%list /\
    requests added = [Get url headers] /\
    notifications added = [] /\ slept added = [].
Proof.
  unfold get_amazon_price, bind, get.
  destruct (requests_get W tr url headers) as [response | e]; simpl.
  - destruct (negb _); simpl.
    + unfold bind, print, emit, ret. simpl.
      eexists. split; [rewrite <- app_assoc; reflexivity|]. repeat split.
    + unfold try_except, bind, getText.
      destruct (find_class _ _ _); simpl.
      * eexists. split; [reflexivity|]. repeat split.
      * unfold bind, print, emit, ret. simpl.
        eexists. split; [rewrite <- app_assoc; reflexivity|]. repeat split.
  - eexists. split; [reflexivity|]. repeat split.
Qed.

Ltac one_fetch Hreq Hnot Hslept :=
  eexists; split; [rewrite <- ?app_assoc; reflexivity|];
  rewrite ?requests_app, ?notifications_app, ?slept_app, Hreq, Hnot, Hslept;
  repeat split.

(** X13. [check_price] makes exactly one request, the GET of the associate
    URL built from what [extract_asin] returned, and never a POST: it
    sends no notification and does not sleep.  When [extract_asin]
    raises, the command raises before any output or request. *)
Theorem check_price_makes_one_fetch
    (W : World) (url : string) (associate_id : option string) (tr : trace) :
  match extract_asin W url with
  | Raise e => check_price W url associate_id tr = (Raise e, tr)
  | Ok asin =>
      exists added,
        snd (check_price W url associate_id tr) = (tr ++ added)%list /\
        requests added = [Get (create_associate_url W asin associate_id) headers] /\
        notifications added = [] /\
        slept added = []
  end.
Proof.
  unfold check_price. unfold bind at 1. unfold lift.
  destruct (extract_asin W url) as [asin | e]; [|reflexivity].
  set (target := create_associate_url W asin associate_id).
  destruct (negb (truthy asin)); unfold bind, print, emit, ret; cbv beta iota;
    match goal with
    | |- context [get_amazon_price W target ?t] =>
        destruct (get_amazon_price_events W target t) as [added [Htr [Hreq [Hnot Hslept]]]];
        destruct (get_amazon_price W target t) as [[[item_price delivery_price] | e] tr1]
    end; cbn [snd] in Htr; subst tr1; cbn [snd];
    try (destruct (truthy item_price); cbn [snd]);
    one_fetch Hreq Hnot Hslept.
Qed.

(** ** The loop: what it does to the outside *)

Section Outside.

Variable W : World.
Variables associate_id bot_token chat_id : option string.

Local Abbreviation allowed := (loop_event W associate_id bot_token chat_id).

Lemma allowed_print (line : string) : adds allowed (print line).
Proof.
  intros tr. exists [Print line]. split; [reflexivity|].
  constructor; [exact I | constructor].
Qed.

Lemma allowed_get_amazon_price (asin : string) :
  String.length asin = 10%nat ->
  adds allowed (get_amazon_price W (create_associate_url W (Some asin) associate_id)).
Proof.
  intros Hlen. unfold get_amazon_price.
  apply adds_bind.
  - intros tr. eexists. split; [reflexivity|].
    constructor; [|constructor].
    split; [reflexivity|]. exists asin. split; [exact Hlen | reflexivity].
  - intros response. destruct (negb _).
    + apply adds_bind; [apply allowed_print | intros _; apply adds_ret].
    + apply adds_try.
      * apply adds_bind; [|intros item_price; apply adds_ret].
        unfold getText. destruct (find_class _ _ _); [apply adds_ret | apply adds_lift].
      * constructor; [|constructor].
        intros e'. cbn [snd].
        apply adds_bind; [apply allowed_print | intros _; apply adds_ret].
Qed.

Lemma allowed_send (message : string) :
  adds allowed (send_telegram_message W message bot_token chat_id).
Proof.
  intros tr.
  destruct (truthy (token_in_force W bot_token)) eqn:Htoken;
    [destruct (truthy (chat_in_force W chat_id)) eqn:Hchat|].
  - rewrite (send_with_credentials W message bot_token chat_id tr Htoken Hchat).
    cbv zeta.
    assert (Hpost : allowed (Post (telegram_url (token_in_force W bot_token))
                               (telegram_data (chat_in_force W chat_id) message))).
    { split; [exact Htoken|]. split; [exact Hchat|]. split; [reflexivity|].
      exists message. reflexivity. }
    destruct (requests_post W _ _ _) as [response | e]; cbn [snd];
      eexists; (split; [rewrite <- app_assoc; reflexivity|]);
      repeat (constructor; [first [exact I | exact Hpost]|]); constructor.
  - rewrite (send_without_credentials W message bot_token chat_id tr)
      by (rewrite Htoken, Hchat; reflexivity).
    eexists. split; [reflexivity|]. repeat (constructor; [exact I|]). constructor.
  - rewrite (send_without_credentials W message bot_token chat_id tr)
      by (rewrite Htoken; reflexivity).
    eexists. split; [reflexivity|]. repeat (constructor; [exact I|]). constructor.
Qed.

Lemma adds_bind_lift {A B : Type} (P : Event -> Prop) (r : result A) (k : A -> M B) :
  (forall a, r = Ok a -> adds P (k a)) -> adds P (let* a := lift r in k a).
Proof.
  intros Hk tr. unfold bind, lift. destruct r as [a | e].
  - apply (Hk a eq_refl).
  - exists []. split; [symmetry; apply app_nil_r | constructor].
Qed.

Lemma allowed_check_product (product : Product) :
  adds allowed (check_product W associate_id bot_token chat_id product).
Proof.
  unfold check_product.
  destruct (product !! "url") as [url|]; [|apply adds_ret].
  destruct (String.eqb url ""); [apply adds_ret|].
  apply adds_bind_lift. intros [asin|] Hasin; [|apply allowed_print].
  rewrite (extract_asin_truthy W url asin Hasin). cbn [negb].
  apply adds_bind.
  - apply allowed_get_amazon_price. exact (extract_asin_length W url asin Hasin).
  - intros [item_price delivery_price].
    destruct (negb (truthy item_price)); [apply allowed_print|].
    destruct (free_shipping delivery_price); [|apply allowed_print].
    apply adds_bind; [apply allowed_send|].
    intros [|]; apply allowed_print.
Qed.

Lemma allowed_monitor_products (cycles : nat) (products : list Product) (sleep_minutes : Z) :
  adds allowed (monitor_products W cycles products associate_id bot_token chat_id sleep_minutes).
Proof.
  induction cycles as [|cycles IH]; [apply adds_ret|].
  cbn [monitor_products]. apply adds_bind; [|intros _; exact IH].
  unfold cycle.
  apply adds_bind; [apply adds_nothing; reflexivity|]. intros current_time.
  apply adds_bind; [apply allowed_print|]. intros _.
  apply adds_bind; [apply adds_for_each; apply allowed_check_product|]. intros _.
  apply adds_bind; [apply allowed_print|]. intros _.
  apply adds_sleep. exact I.
Qed.

End Outside.

(** X14. Whatever the products, the answers of the network and the number
    of turns, the loop only adds to what has happened, and what it adds
    stays within [loop_event]: every GET asks [www.amazon.com] for the
    page of a ten-character identifier, with the affiliate tag in force
    and the browser-like headers; every POST goes to the messaging
    endpoint of the non-empty token in force and carries the non-empty
    chat id in force; no file is opened. *)
Theorem monitor_products_stays_within_bounds
    (W : World) (cycles : nat) (products : list Product)
    (associate_id bot_token chat_id : option string) (sleep_minutes : Z) (tr : trace) :
  exists added,
    snd (monitor_products W cycles products associate_id bot_token chat_id sleep_minutes tr)
      = (tr ++ added)%list /\
    Forall (loop_event W associate_id bot_token chat_id) added.
Proof.
  exact (allowed_monitor_products W associate_id bot_token chat_id cycles products
           sleep_minutes tr).
Qed.

(** ** The loop: which pages it fetches, and in which order *)

Section Order.

Variable W : World.
Variables associate_id bot_token chat_id : option string.

Lemma send_fetches_nothing (message : string) (tr : trace) :
  exists sent added,
    send_telegram_message W message bot_token chat_id tr = (Ok sent, (tr ++ added)%list) /\
    fetched added = [].
Proof.
  destruct (truthy (token_in_force W bot_token)) eqn:Htoken;
    [destruct (truthy (chat_in_force W chat_id)) eqn:Hchat|].
  - rewrite (send_with_credentials W message bot_token chat_id tr Htoken Hchat).
    cbv zeta. destruct (requests_post W _ _ _) as [response | e];
      do 2 eexists; (split; [rewrite <- app_assoc; reflexivity | reflexivity]).
  - rewrite (send_without_credentials W message bot_token chat_id tr)
      by (rewrite Htoken, Hchat; reflexivity).
    do 2 eexists. split; reflexivity.
  - rewrite (send_without_credentials W message bot_token chat_id tr)
      by (rewrite Htoken; reflexivity).
    do 2 eexists. split; reflexivity.
Qed.

Lemma check_product_fetches (product : Product) (tr tr' : trace) :
  check_product W associate_id bot_token chat_id product tr = (Ok tt, tr') ->
  exists page added,
    fetch_target W associate_id product = Ok page /\
    tr' = (tr ++ added)%list /\
    fetched added = match page with Some url => [url] | None => [] end.
Proof.
  unfold check_product, fetch_target.
  destruct (product !! "url") as [url|].
  2:{ intros [= <-]. exists None, []. rewrite app_nil_r. repeat split. }
  destruct (String.eqb url "").
  { intros [= <-]. exists None, []. rewrite app_nil_r. repeat split. }
  unfold bind at 1. unfold lift.
  destruct (extract_asin W url) as [[asin|] | e] eqn:Hasin; [| |discriminate].
  2:{ cbn [truthy negb]. intros [= <-]. exists None. eexists. repeat split. }
  rewrite (extract_asin_truthy W url asin Hasin). cbn [negb].
  set (page := create_associate_url W (Some asin) associate_id).
  unfold bind at 1.
  destruct (get_amazon_price_trace W page tr) as [added [Htr [Hfetched _]]].
  destruct (get_amazon_price W page tr) as [[[item_price delivery_price] | e] tr1];
    [|discriminate].
  cbn [snd] in Htr. subst tr1.
  destruct (negb (truthy item_price)).
  { intros [= <-]. exists (Some page). eexists. split; [reflexivity|].
    split; [rewrite <- app_assoc; reflexivity|].
    rewrite fetched_app, Hfetched. reflexivity. }
  destruct (free_shipping delivery_price).
  2:{ intros [= <-]. exists (Some page). eexists. split; [reflexivity|].
      split; [rewrite <- app_assoc; reflexivity|].
      rewrite fetched_app, Hfetched. reflexivity. }
  unfold bind.
  destruct (send_fetches_nothing
              (notification_message (default "Unknown Product" (product !! "name"))
                 (format item_price) page) (tr ++ added)%list)
    as [sent [sending [Hsend Hnone]]].
  rewrite Hsend.
  destruct sent; intros [= <-]; exists (Some page); eexists; (split; [reflexivity|]);
    (split; [rewrite <- !app_assoc; reflexivity|]);
    rewrite !fetched_app, Hfetched, Hnone; reflexivity.
Qed.

Lemma for_each_fetches (products : list Product) (tr tr' : trace) :
  for_each products (check_product W associate_id bot_token chat_id) tr = (Ok tt, tr') ->
  exists added,
    tr' = (tr ++ added)%list /\
    fetched added = fetch_targets W associate_id products.
Proof.
  revert tr. induction products as [|product rest IH]; intros tr.
  - intros [= <-]. exists []. rewrite app_nil_r. split; reflexivity.
  - cbn [for_each fetch_targets]. unfold bind.
    destruct (check_product W associate_id bot_token chat_id product tr)
      as [[[] | e] tr1] eqn:Hone; [|discriminate].
    intros Hrest.
    destruct (check_product_fetches product tr tr1 Hone) as [page [one [Hpage [-> Hfetched]]]].
    destruct (IH _ Hrest) as [others [-> Hothers]].
    rewrite Hpage. exists (one ++ others)%list.
    split; [rewrite <- app_assoc; reflexivity|].
    rewrite fetched_app, Hfetched, Hothers. destruct page; reflexivity.
Qed.

Lemma monitor_products_fetches (cycles : nat) (products : list Product)
    (sleep_minutes : Z) (tr tr' : trace) :
  monitor_products W cycles products associate_id bot_token chat_id sleep_minutes tr
    = (Ok tt, tr') ->
  exists added,
    tr' = (tr ++ added)%list /\
    fetched added = concat (repeat (fetch_targets W associate_id products) cycles).
Proof.
  revert tr. induction cycles as [|cycles IH]; intros tr.
  - intros [= <-]. exists []. rewrite app_nil_r. split; reflexivity.
  - cbn [monitor_products repeat concat]. unfold bind at 1.
    destruct (cycle W products associate_id bot_token chat_id sleep_minutes tr)
      as [[[] | e] tr1] eqn:Hcycle; [|discriminate].
    intros Hrest.
    destruct (IH _ Hrest) as [later [-> Hlater]].
    revert Hcycle. unfold cycle, bind, print, emit, ret.
    match goal with
    | |- context [for_each products ?body ?t] =>
        destruct (for_each products body t) as [[[] | e] tr2] eqn:Hpass
    end; [|discriminate].
    destruct (sleep W _ _) as [[[] | e] tr3] eqn:Hsleep; [|discriminate].
    apply sleep_ok in Hsleep. subst tr3.
    intros [= <-].
    destruct (for_each_fetches _ _ _ Hpass) as [pass [-> Hfetched]].
    eexists. split; [rewrite <- !app_assoc; reflexivity|].
    rewrite !fetched_app, Hfetched, Hlater. reflexivity.
Qed.

End Order.

(** X15. Over turns that end without an exception, the pages fetched are
    exactly, turn after turn, the associate URLs of the products in file
    order: one GET for each product with a non-empty [url] from which an
    identifier is extracted, none for the others, and the same list
    again in every turn, whether or not a notification was sent. *)
Theorem monitor_fetches_in_file_order
    (W : World) (cycles : nat) (products : list Product)
    (associate_id bot_token chat_id : option string) (sleep_minutes : Z) (tr : trace) :
  fst (monitor_products W cycles products associate_id bot_token chat_id sleep_minutes tr)
    = Ok tt ->
  exists added,
    snd (monitor_products W cycles products associate_id bot_token chat_id sleep_minutes tr)
      = (tr ++ added)%list /\
    fetched added = concat (repeat (fetch_targets W associate_id products) cycles).
Proof.
  intros Hok.
  destruct (monitor_products W cycles products associate_id bot_token chat_id sleep_minutes tr)
    as [r tr'] eqn:Hrun.
  cbn [fst] in Hok. subst r. cbn [snd].
  exact (monitor_products_fetches W associate_id bot_token chat_id cycles products
           sleep_minutes tr tr' Hrun).
Qed.

Lemma monitor_fetches_in_file_order_witness :
  exists added,
    snd (monitor_products Examples.shop 2 [Examples.lamp; Examples.bare_entry; Examples.kettle]
           None None None 20 [])
      = ([] ++ added)%list /\
    fetched added =
      concat (repeat (fetch_targets Examples.shop None
                        [Examples.lamp; Examples.bare_entry; Examples.kettle]) 2).
Proof.
  apply monitor_fetches_in_file_order. vm_compute. reflexivity.
Defined.

(** ** The [monitor] command *)

Section CommandFacts.

Variable W : World.
Variable str_of : json -> string.
Variable is_zero : string -> bool.
Variables associate_id bot_token chat_id : option string.

(** On the dict of a product, the loop body on JSON values is the loop
    body on products. *)
Lemma check_item_represents (item : json) (product : Product) (tr : trace) :
  represents item product ->
  check_item W str_of is_zero associate_id bot_token chat_id item tr =
  check_product W associate_id bot_token chat_id product tr.
Proof.
  intros [members [-> [Hurl Hname]]].
  unfold check_item, check_product. rewrite Hurl, Hname.
  destruct (product !! "url") as [url|]; [|reflexivity].
  cbn [fmap option_fmap option_map from_option id json_truthy].
  rewrite negb_involutive.
  destruct (String.eqb url ""); [reflexivity|].
  destruct (product !! "name") as [name|]; reflexivity.
Qed.

Lemma for_each_represents (items : list json) (products : list Product) (tr : trace) :
  Forall2 represents items products ->
  for_each items (check_item W str_of is_zero associate_id bot_token chat_id) tr =
  for_each products (check_product W associate_id bot_token chat_id) tr.
Proof.
  intros Hall. revert tr.
  induction Hall as [|item product items products Hone Hall IH]; intros tr; [reflexivity|].
  cbn [for_each]. unfold bind.
  rewrite (check_item_represents item product tr Hone).
  destruct (check_product W associate_id bot_token chat_id product tr) as [[[] | e] tr1];
    [apply IH | reflexivity].
Qed.

Lemma monitor_values_represents (cycles : nat) (items : list json) (products : list Product)
    (sleep_minutes : Z) (tr : trace) :
  Forall2 represents items products ->
  monitor_values W str_of is_zero cycles (JArray items) associate_id bot_token chat_id
    sleep_minutes tr =
  monitor_products W cycles products associate_id bot_token chat_id sleep_minutes tr.
Proof.
  intros Hall. revert tr. induction cycles as [|cycles IH]; intros tr; [reflexivity|].
  cbn [monitor_values monitor_products].
  assert (Hcycle : cycle_values W str_of is_zero (JArray items) associate_id bot_token chat_id
                     sleep_minutes tr =
                   cycle W products associate_id bot_token chat_id sleep_minutes tr).
  { unfold cycle_values, cycle, bind, print, emit, lift, json_iter.
    rewrite (for_each_represents items products _ Hall). reflexivity. }
  unfold bind at 1. rewrite Hcycle. unfold bind at 1.
  destruct (cycle W products associate_id bot_token chat_id sleep_minutes tr)
    as [[[] | e] tr1]; [apply IH | reflexivity].
Qed.

End CommandFacts.

(** X16. On a product file that holds a non-empty array of objects whose
    [url] and [name] are strings or missing, the [monitor] command opens
    the file, prints the number of entries and then runs the loop on
    these products, with the Telegram credentials left to the
    environment: everything proved of [monitor_products] holds of the
    command. *)
Theorem monitor_runs_the_loop
    (W : World) (str_of : json -> string) (is_zero : string -> bool)
    (cycles : nat) (associate_id : option string) (sleep_minutes : Z)
    (products_file text : string) (items : list json) (products : list Product)
    (tr : trace) :
  open_read W tr products_file = Ok text ->
  json_loads W text = Ok (JArray items) ->
  items <> [] ->
  Forall2 represents items products ->
  monitor W str_of is_zero cycles associate_id sleep_minutes products_file tr =
  (print ("Starting to monitor " ++ Str.of_Z (Z.of_nat (List.length products))
          ++ " products...") >>
   monitor_products W cycles products associate_id None None sleep_minutes)
    (tr ++ [Open products_file])%list.
Proof.
  intros Hopen Hjson Hsome Hall.
  unfold monitor. unfold bind at 1.
  rewrite (load_products_passes_json W products_file text (JArray items) tr Hopen Hjson).
  destruct items as [|item items]; [contradiction|].
  cbn [json_truthy negb]. cbv beta iota.
  unfold bind at 1. unfold lift at 1. cbn [json_len].
  rewrite (Forall2_length _ _ _ Hall).
  unfold bind, print, emit.
  apply monitor_values_represents. exact Hall.
Qed.

Lemma monitor_runs_the_loop_witness :
  monitor (Examples.with_file Examples.kettle_file (Ok (JArray [Examples.kettle_entry])))
    Examples.no_text Examples.zero_literal 2 None 20 "products.json" [] =
  (print ("Starting to monitor " ++ Str.of_Z (Z.of_nat (List.length [Examples.kettle]))
          ++ " products...") >>
   monitor_products
     (Examples.with_file Examples.kettle_file (Ok (JArray [Examples.kettle_entry])))
     2 [Examples.kettle] None None None 20)
    ([] ++ [Open "products.json"])%list.
Proof.
  apply (monitor_runs_the_loop _ _ _ _ _ _ _ Examples.kettle_file [Examples.kettle_entry]).
  - reflexivity.
  - reflexivity.
  - discriminate.
  - constructor; [|constructor].
    exists [("name", JString "Kettle"); ("url", JString "https://www.amazon.com/dp/B08N5WRWNW")].
    split; [reflexivity|]. split; vm_compute; reflexivity.
Defined.

(** X17. When opening the file raises [FileNotFoundError], or
    [json.load] raises [JSONDecodeError] on its text, or the file holds a
    value that Python takes for false (an empty array or object, [null],
    [false], an empty string, a zero), the [monitor] command prints
    [No products to monitor. Please check your products.json file.] as
    its last line and returns: no request is made, nothing is handed to
    the notifier and the loop is not entered, so it never sleeps. *)
Theorem monitor_without_products
    (W : World) (str_of : json -> string) (is_zero : string -> bool)
    (cycles : nat) (associate_id : option string) (sleep_minutes : Z)
    (products_file : string) (tr : trace) :
  (exists e, open_read W tr products_file = Raise e /\ exn_cls e = FileNotFoundError) \/
  (exists text e, open_read W tr products_file = Ok text /\
                  json_loads W text = Raise e /\ exn_cls e = JSONDecodeError) \/
  (exists text value, open_read W tr products_file = Ok text /\
                      json_loads W text = Ok value /\ json_truthy is_zero value = false) ->
  exists added lines,
    monitor W str_of is_zero cycles associate_id sleep_minutes products_file tr
      = (Ok tt, (tr ++ added)%list) /\
    printed added =
      (lines ++ ["No products to monitor. Please check your products.json file."])%list /\
    requests added = [] /\ notifications added = [] /\ slept added = [].
Proof.
  intros [[e [Hopen Hcls]] | [[text [e [Hopen [Hjson Hcls]]]] | [text [value [Hopen [Hjson Hfalse]]]]]];
    unfold monitor; unfold bind at 1;
    unfold load_products, try_except, bind at 1, read_file, lift at 1; rewrite Hopen.
  - cbn [handle]. unfold is_class at 1. rewrite Hcls.
    unfold bind, print, emit, ret. cbn [json_truthy negb]. cbv beta iota.
    exists [Open products_file; Print ("Error: " ++ products_file ++ " not found");
            Print "No products to monitor. Please check your products.json file."],
           ["Error: " ++ products_file ++ " not found"].
    split; [rewrite <- !app_assoc; reflexivity|]. repeat split.
  - rewrite Hjson. cbn [handle]. unfold is_class at 1 2. rewrite Hcls.
    unfold bind, print, emit, ret. cbn [json_truthy negb]. cbv beta iota.
    exists [Open products_file; Print ("Error: " ++ products_file ++ " is not valid JSON");
            Print "No products to monitor. Please check your products.json file."],
           ["Error: " ++ products_file ++ " is not valid JSON"].
    split; [rewrite <- !app_assoc; reflexivity|]. repeat split.
  - rewrite Hjson. rewrite Hfalse. cbn [negb]. unfold print, emit.
    exists [Open products_file;
            Print "No products to monitor. Please check your products.json file."], [].
    split; [rewrite <- !app_assoc; reflexivity|]. repeat split.
Qed.

Lemma monitor_without_products_witness :
  exists added lines,
    monitor (Examples.with_file "{}" (Ok (JObject []))) Examples.no_text Examples.zero_literal
      3 None 20 "products.json" []
      = (Ok tt, ([] ++ added)%list) /\
    printed added =
      (lines ++ ["No products to monitor. Please check your products.json file."])%list /\
    requests added = [] /\ notifications added = [] /\ slept added = [].
Proof.
  apply monitor_without_products.
  right. right. exists "{}", (JObject []). repeat split.
Defined.

(** X18. A product file that holds valid JSON other than an array (one
    object not wrapped in a list, a string, a number, [true]) is not
    refused by [load_products]; the command then raises before any
    request: for an object or a string the loop goes through its keys or
    characters and asks the first one for [get], an [AttributeError]; for
    a number or [true], [len] raises a [TypeError]. *)
Theorem monitor_rejects_other_documents
    (W : World) (str_of : json -> string) (is_zero : string -> bool)
    (cycles : nat) (associate_id : option string) (sleep_minutes : Z)
    (products_file text : string) (value : json) (tr : trace) :
  open_read W tr products_file = Ok text ->
  json_loads W text = Ok value ->
  json_truthy is_zero value = true ->
  (forall items, value <> JArray items) ->
  exists added,
    monitor W str_of is_zero (S cycles) associate_id sleep_minutes products_file tr =
      (Raise match value with
             | JObject _ | JString _ =>
                 Exn AttributeError "'str' object has no attribute 'get'"
             | _ => type_error ("object of type '" ++ type_name value ++ "' has no len()")
             end,
       (tr ++ added)%list) /\
    requests added = [] /\ notifications added = [] /\ slept added = [].
Proof.
  intros Hopen Hjson Htruthy Hshape.
  unfold monitor. unfold bind at 1.
  rewrite (load_products_passes_json W products_file text value tr Hopen Hjson).
  rewrite Htruthy. cbn [negb]. cbv beta iota.
  destruct value as [|b|literal|s|items|members].
  - discriminate Htruthy.
  - exists [Open products_file]. split; [reflexivity|]. repeat split.
  - exists [Open products_file]. split; [reflexivity|]. repeat split.
  - destruct s as [|c s]; [discriminate Htruthy|].
    exists [Open products_file;
            Print ("Starting to monitor "
                   ++ Str.of_Z (Z.of_nat (String.length (String c s))) ++ " products...");
            Print (nl ++ "Checking prices at "
                   ++ datetime_now W
                        ((tr ++ [Open products_file]) ++
                         [Print ("Starting to monitor "
                                 ++ Str.of_Z (Z.of_nat (String.length (String c s)))
                                 ++ " products...")])%list)].
    split; [|repeat split].
    unfold bind at 1. unfold lift at 1. cbn [json_len].
    unfold bind at 1. unfold print at 1. unfold emit at 1.
    cbn [monitor_values]. unfold bind at 1.
    unfold cycle_values, bind, print, emit, lift. cbn [json_iter characters for_each].
    unfold check_item, bind, lift. cbn [type_name].
    rewrite <- !app_assoc. reflexivity.
  - exfalso. exact (Hshape items eq_refl).
  - destruct members as [|[k v] members]; [discriminate Htruthy|].
    exists [Open products_file;
            Print ("Starting to monitor "
                   ++ Str.of_Z (Z.of_nat (List.length (obj_keys ((k, v) :: members))))
                   ++ " products...");
            Print (nl ++ "Checking prices at "
                   ++ datetime_now W
                        ((tr ++ [Open products_file]) ++
                         [Print ("Starting to monitor "
                                 ++ Str.of_Z (Z.of_nat (List.length
                                                          (obj_keys ((k, v) :: members))))
                                 ++ " products...")])%list)].
    split; [|repeat split].
    unfold bind at 1. unfold lift at 1. cbn [json_len].
    unfold bind at 1. unfold print at 1. unfold emit at 1.
    cbn [monitor_values]. unfold bind at 1.
    unfold cycle_values, bind, print, emit, lift. cbn [json_iter obj_keys List.map for_each].
    unfold check_item, bind, lift. cbn [type_name].
    rewrite <- !app_assoc. reflexivity.
Qed.

Lemma monitor_rejects_other_documents_witness :
  exists added,
    monitor (Examples.with_file Examples.kettle_alone (Ok Examples.kettle_entry))
      Examples.no_text Examples.zero_literal 1 None 20 "products.json" [] =
      (Raise match Examples.kettle_entry with
             | JObject _ | JString _ =>
                 Exn AttributeError "'str' object has no attribute 'get'"
             | _ => type_error ("object of type '" ++ type_name Examples.kettle_entry
                                ++ "' has no len()")
             end,
       ([] ++ added)%list) /\
    requests added = [] /\ notifications added = [] /\ slept added = [].
Proof.
  apply (monitor_rejects_other_documents _ _ _ _ _ _ _ Examples.kettle_alone).
  - reflexivity.
  - reflexivity.
  - reflexivity.
  - intros items Hitems. discriminate Hitems.
Defined.

(** X19. An entry of the product list that is not an object (a bare URL
    string, a number, a nested list) ends the loop with an
    [AttributeError] as soon as it is reached: the entries before it are
    checked, the entries after it never are, and the loop does not
    sleep. *)
Theorem entry_that_is_no_object_ends_the_loop
    (W : World) (str_of : json -> string) (is_zero : string -> bool)
    (cycles : nat) (associate_id bot_token chat_id : option string) (sleep_minutes : Z)
    (earlier later : list json) (entry : json) (tr : trace) :
  (forall members, entry <> JObject members) ->
  fst (for_each earlier (check_item W str_of is_zero associate_id bot_token chat_id)
         (tr ++ [Print (nl ++ "Checking prices at " ++ datetime_now W tr)])%list) = Ok tt ->
  monitor_values W str_of is_zero (S cycles) (JArray (earlier ++ entry :: later))
    associate_id bot_token chat_id sleep_minutes tr =
  (Raise (Exn AttributeError ("'" ++ type_name entry ++ "' object has no attribute 'get'")),
   snd (for_each earlier (check_item W str_of is_zero associate_id bot_token chat_id)
          (tr ++ [Print (nl ++ "Checking prices at " ++ datetime_now W tr)])%list)).
Proof.
  intros Hshape Hearlier.
  cbn [monitor_values]. unfold bind at 1.
  unfold cycle_values, bind, print, emit, lift. cbn [json_iter].
  rewrite for_each_app. unfold bind.
  destruct (for_each earlier _ _) as [[[] | e] tr1]; [|discriminate Hearlier].
  cbn [for_each snd]. unfold bind.
  destruct entry as [|b|literal|s|items|members];
    try reflexivity.
  exfalso. exact (Hshape members eq_refl).
Qed.

Lemma entry_that_is_no_object_ends_the_loop_witness :
  monitor_values Examples.shop Examples.no_text Examples.zero_literal 1
    (JArray ([Examples.kettle_entry] ++ JString "https://www.amazon.com/dp/B000000001" :: []))
    None None None 20 [] =
  (Raise (Exn AttributeError
            ("'" ++ type_name (JString "https://www.amazon.com/dp/B000000001")
             ++ "' object has no attribute 'get'")),
   snd (for_each [Examples.kettle_entry]
          (check_item Examples.shop Examples.no_text Examples.zero_literal None None None)
          ([] ++ [Print (nl ++ "Checking prices at " ++ datetime_now Examples.shop [])])%list)).
Proof.
  apply entry_that_is_no_object_ends_the_loop.
  - intros members Hmembers. discriminate Hmembers.
  - vm_compute. reflexivity.
Defined.

(** ** The loop: no notification unless delivery is free *)

Lemma adds_bind_result {A B : Type} (P : Event -> Prop) (m : M A) (k : A -> M B) :
  adds P m ->
  (forall a tr, fst (m tr) = Ok a -> adds P (k a)) ->
  adds P (let* a := m in k a).
Proof.
  intros Hm Hk tr. unfold bind.
  destruct (Hm tr) as [first [Htr Hfirst]].
  pose proof (Hk) as Hk'. specialize (fun a => Hk' a tr).
  destruct (m tr) as [[a | e] tr1]; cbn [snd fst] in *; subst tr1.
  - destruct (Hk' a eq_refl (tr ++ first)%list) as [second [Htr' Hsecond]].
    exists (first ++ second)%list. rewrite Htr', <- app_assoc.
    split; [reflexivity | apply Forall_app; split; assumption].
  - exists first. split; [reflexivity | exact Hfirst].
Qed.

Lemma silent_trace (added : trace) :
  Forall silent added -> notifications added = [] /\ posted added = [].
Proof.
  induction 1 as [|e added He _ [IHn IHp]]; [split; reflexivity|].
  destruct e; cbn [notifications posted]; try (split; assumption); destruct He.
Qed.

Section Silence.

Variable W : World.
Variables associate_id bot_token chat_id : option string.

Hypothesis never_free :
  forall url tr item_price delivery_price,
    fst (get_amazon_price W url tr) = Ok (item_price, delivery_price) ->
    delivery_is_free delivery_price = false.

Lemma silent_print (line : string) : adds silent (print line).
Proof.
  intros tr. exists [Print line]. split; [reflexivity|].
  constructor; [exact I | constructor].
Qed.

Lemma silent_get_amazon_price (url : string) : adds silent (get_amazon_price W url).
Proof.
  unfold get_amazon_price.
  apply adds_bind.
  - intros tr. eexists. split; [reflexivity|]. constructor; [exact I | constructor].
  - intros response. destruct (negb _).
    + apply adds_bind; [apply silent_print | intros _; apply adds_ret].
    + apply adds_try.
      * apply adds_bind; [|intros item_price; apply adds_ret].
        unfold getText. destruct (find_class _ _ _); [apply adds_ret | apply adds_lift].
      * constructor; [|constructor].
        intros e'. cbn [snd].
        apply adds_bind; [apply silent_print | intros _; apply adds_ret].
Qed.

Lemma silent_check_product (product : Product) :
  adds silent (check_product W associate_id bot_token chat_id product).
Proof.
  unfold check_product.
  destruct (product !! "url") as [url|]; [|apply adds_ret].
  destruct (String.eqb url ""); [apply adds_ret|].
  apply adds_bind; [apply adds_lift|]. intros asin.
  destruct (negb (truthy asin)); [apply silent_print|].
  apply adds_bind_result; [apply silent_get_amazon_price|].
  intros [item_price delivery_price] tr Hfetch.
  destruct (negb (truthy item_price)); [apply silent_print|].
  rewrite free_shipping_is_eq_ci, (never_free _ _ _ _ Hfetch).
  apply silent_print.
Qed.

Lemma silent_monitor_products (cycles : nat) (products : list Product) (sleep_minutes : Z) :
  adds silent (monitor_products W cycles products associate_id bot_token chat_id sleep_minutes).
Proof.
  induction cycles as [|cycles IH]; [apply adds_ret|].
  cbn [monitor_products]. apply adds_bind; [|intros _; exact IH].
  unfold cycle.
  apply adds_bind; [apply adds_nothing; reflexivity|]. intros current_time.
  apply adds_bind; [apply silent_print|]. intros _.
  apply adds_bind; [apply adds_for_each; apply silent_check_product|]. intros _.
  apply adds_bind; [apply silent_print|]. intros _.
  apply adds_sleep. exact I.
Qed.

End Silence.

(** X20. The loop notifies for free delivery only: in a world where no
    page read by [get_amazon_price] shows a delivery price that is
    [free] up to case, no run of the loop, over any products and any
    number of turns, hands a message to the notifier or makes a POST. *)
Theorem no_notification_unless_free
    (W : World) (cycles : nat) (products : list Product)
    (associate_id bot_token chat_id : option string) (sleep_minutes : Z) (tr : trace) :
  (forall url tr' item_price delivery_price,
     fst (get_amazon_price W url tr') = Ok (item_price, delivery_price) ->
     delivery_is_free delivery_price = false) ->
  exists added,
    snd (monitor_products W cycles products associate_id bot_token chat_id sleep_minutes tr)
      = (tr ++ added)%list /\
    notifications added = [] /\ posted added = [].
Proof.
  intros Hnever.
  destruct (silent_monitor_products W associate_id bot_token chat_id Hnever cycles products
              sleep_minutes tr) as [added [Htr Hsilent]].
  exists added. split; [exact Htr | exact (silent_trace added Hsilent)].
Qed.

Lemma no_notification_unless_free_witness :
  exists added,
    snd (monitor_products
           (Examples.configured (Ok (Examples.page "$24.99" (Some "$5.99"))) 200)
           2 [Examples.kettle; Examples.lamp] None None None 20 [])
      = ([] ++ added)%list /\
    notifications added = [] /\ posted added = [].
Proof.
  apply no_notification_unless_free.
  intros url tr' item_price delivery_price Hfetch.
  vm_compute in Hfetch. injection Hfetch as _ <-. reflexivity.
Defined.

(** ** The loop: what does not end it *)

Section Survival.

Variable W : World.
Variables associate_id bot_token chat_id : option string.

Hypothesis answered :
  forall tr url, exists response, requests_get W tr url headers = Ok response.





End Survival.



(** ** The loop: a sleep that is refused *)

(** X22. [sleep_minutes] is not checked before the loop.  With a negative
    value the first turn checks every product, prints the line about
    sleeping and then raises: [time.sleep] refuses a negative length with
    [ValueError], and a length beyond 9223372036 seconds either way
    ([sleep_minutes] from 153722868 on, or down to -153722868) with
    [OverflowError].  The loop has not slept. *)
Theorem refused_sleep_ends_the_loop
    (W : World) (cycles : nat) (products : list Product)
    (associate_id bot_token chat_id : option string) (sleep_minutes : Z) (tr : trace) :
  (sleep_minutes < 0 \/ 153722868 <= sleep_minutes)%Z ->
  fst (for_each products (check_product W associate_id bot_token chat_id)
         (tr ++ [Print (nl ++ "Checking prices at " ++ datetime_now W tr)])%list) = Ok tt ->
  monitor_products W (S cycles) products associate_id bot_token chat_id sleep_minutes tr =
  (Raise (if (-153722868 <? sleep_minutes)%Z && (sleep_minutes <? 0)%Z
          then Exn ValueError "sleep length must be non-negative"
          else Exn (OtherException "OverflowError")
                 "timestamp too large to convert to C _PyTime_t"),
   (snd (for_each products (check_product W associate_id bot_token chat_id)
           (tr ++ [Print (nl ++ "Checking prices at " ++ datetime_now W tr)])%list)
    ++ [Print (nl ++ "Sleeping for " ++ Str.of_Z sleep_minutes ++ " minutes...")])%list).
Proof.
  intros Hrange Hpass. cbn [monitor_products]. unfold bind at 1.
  unfold cycle, bind, print, emit.
  destruct (for_each products _ _) as [[[] | e] tr1]; [|discriminate Hpass].
  cbn [snd]. unfold sleep, lift.
  destruct (sleep_minutes * 60 <? -9223372036)%Z eqn:Elow;
    [apply Z.ltb_lt in Elow | apply Z.ltb_ge in Elow];
    (destruct (9223372036 <? sleep_minutes * 60)%Z eqn:Ehigh;
       [apply Z.ltb_lt in Ehigh | apply Z.ltb_ge in Ehigh]);
    (destruct (sleep_minutes * 60 <? 0)%Z eqn:Eneg;
       [apply Z.ltb_lt in Eneg | apply Z.ltb_ge in Eneg]);
    (destruct (-153722868 <? sleep_minutes)%Z eqn:Ea;
       [apply Z.ltb_lt in Ea | apply Z.ltb_ge in Ea]);
    (destruct (sleep_minutes <? 0)%Z eqn:Eb;
       [apply Z.ltb_lt in Eb | apply Z.ltb_ge in Eb]);
    cbn [orb andb]; try reflexivity; exfalso; lia.
Qed.

Lemma refused_sleep_ends_the_loop_witness :
  monitor_products Examples.shop 3 [Examples.lamp; Examples.kettle] None None None (-1) [] =
  (Raise (if (-153722868 <? -1)%Z && (-1 <? 0)%Z
          then Exn ValueError "sleep length must be non-negative"
          else Exn (OtherException "OverflowError")
                 "timestamp too large to convert to C _PyTime_t"),
   (snd (for_each [Examples.lamp; Examples.kettle]
           (check_product Examples.shop None None None)
           ([] ++ [Print (nl ++ "Checking prices at " ++ datetime_now Examples.shop [])])%list)
    ++ [Print (nl ++ "Sleeping for " ++ Str.of_Z (-1) ++ " minutes...")])%list).
Proof.
  apply refused_sleep_ends_the_loop.
  - left. lia.
  - vm_compute. reflexivity.
Defined.
